(** * Token issuing and recording-session tracking of the telehealth app

    A shallow embedding of the serverless token endpoint ([createToken],
    [base64UrlEncode] and its request handler) and of the recording endpoint
    ([startRecording], [stopRecording], [getRecordingStatus] and its
    request handler), together with the properties the specification
    states about them.

    Representation choices, used throughout:
    - a JavaScript string is represented by the bytes of its UTF-8 encoding,
      as a Rocq [string]; this is what [Buffer.from(str)] and the [crypto]
      module see, so [Buffer.from] is the identity on this representation.
      The representation tells apart any two strings without lone
      surrogates ([Utf16Facts.Buffer_from_inj]); the step from the code
      units of a string to these bytes, which maps every lone surrogate to
      U+FFFD, is [Utf16.Buffer_from];
    - [undefined] request parameters and environment variables are [None];
    - the integer timestamps are mathematical integers ([Z]); they stay far
      below 2^53, where JavaScript numbers are exact;
    - 32-bit words of SHA-256 are [Z] with the reduction modulo 2^32 written
      out;
    - the [Map] of active recordings is a [gmap string RecordingInfo];
    - a call of the recording endpoint runs from its request to its answer
      with no other request in between: the functions are composed
      sequentially, and what a call reads from outside (the clock, the
      reply of the egress service) is an argument of the call;
    - the Node.js and LiveKit library functions the code calls
      ([Buffer#toString('base64')], [JSON.stringify], [crypto.createHmac],
      [Date#toISOString], the egress client) are modelled after their
      standards (RFC 4648, ECMA-262, FIPS 180-4, RFC 2104) or, for the
      remote service, as a reply supplied from outside. *)

From Stdlib Require Import ZArith NArith String Ascii List Lia.
From Stdlib Require Import DecimalString DecimalPos DecimalZ.
From stdpp Require Import base option list gmap strings.

Local Open Scope string_scope.

(* ===================================================================== *)
(** ** Strings *)
(* ===================================================================== *)

Module Str.

(** All characters of [s] satisfy [p]. *)
Fixpoint all (p : ascii → bool) (s : string) : bool :=
  match s with
  | "" => true
  | String c r => p c && all p r
  end.

(** Number of characters of [s] satisfying [p]. *)
Fixpoint count (p : ascii → bool) (s : string) : nat :=
  match s with
  | "" => 0
  | String c r => (if p c then 1 else 0) + count p r
  end.

(** [s.replace(/[p]/g, by)] for a regular expression that matches single
    characters: every character satisfying [p] is replaced by [by]. *)
Fixpoint replace_g (p : ascii → bool) (by_ : string) (s : string) : string :=
  match s with
  | "" => ""
  | String c r =>
      if p c then by_ +:+ replace_g p by_ r else String c (replace_g p by_ r)
  end.

(** [s.split(sep)] for a one-character separator: the list of the maximal
    separator-free pieces, in order (never empty: [''.split('.')] is
    [['']]). *)
Fixpoint split (sep : ascii) (s : string) : list string :=
  match s with
  | "" => [""]
  | String c r =>
      if Ascii.eqb c sep then "" :: split sep r
      else match split sep r with
           | [] => [String c ""]
           | piece :: rest => String c piece :: rest
           end
  end.

(** JavaScript truthiness of a value that is a string or [undefined]. *)
Definition truthy (v : option string) : bool :=
  match v with
  | None => false
  | Some s => negb (String.eqb s "")
  end.

(** [v || d] for such a value. *)
Definition or_else (v : option string) (d : string) : string :=
  match v with
  | Some s => if String.eqb s "" then d else s
  | None => d
  end.

Definition is_char (c : ascii) : ascii → bool := Ascii.eqb c.

End Str.

(* ===================================================================== *)
(** ** Base64 (RFC 4648), as [Buffer#toString('base64')] produces it *)
(* ===================================================================== *)

Module Base64.

Definition alphabet : string :=
  "ABCDEFGHIJKLMNOPQRSTUVWXYZabcdefghijklmnopqrstuvwxyz0123456789+/".

(** The character of a 6-bit value. *)
Definition char_of (i : N) : ascii :=
  match String.get (N.to_nat i) alphabet with
  | Some c => c
  | None => "="%char
  end.

Definition code (c : ascii) : N := N_of_ascii c.

(** Three bytes give four characters; a last group of one or two bytes
    is padded with ['=']. *)
Fixpoint toString_base64 (buf : string) : string :=
  match buf with
  | "" => ""
  | String a "" =>
      let n := (code a * 65536)%N in
      String (char_of (n / 262144))
        (String (char_of ((n / 4096) mod 64)) "==")
  | String a (String b "") =>
      let n := (code a * 65536 + code b * 256)%N in
      String (char_of (n / 262144))
        (String (char_of ((n / 4096) mod 64))
           (String (char_of ((n / 64) mod 64)) "="))
  | String a (String b (String c r)) =>
      let n := (code a * 65536 + code b * 256 + code c)%N in
      String (char_of (n / 262144))
        (String (char_of ((n / 4096) mod 64))
           (String (char_of ((n / 64) mod 64))
              (String (char_of (n mod 64)) (toString_base64 r))))
  end.

(** [Buffer.from(str)] on the representation of a string by its UTF-8
    bytes, where it is the identity. [Utf16.Buffer_from] is the same call
    on the code units of the string, lone surrogates included. *)
Definition Buffer_from (str : string) : string := str.

End Base64.

(** [base64UrlEncode] of the token endpoint:
    [Buffer.from(str).toString('base64').replace(/\+/g, '-')
       .replace(/\//g, '_').replace(/=/g, '')]. *)
Definition base64UrlEncode (str : string) : string :=
  Str.replace_g (Str.is_char "=") ""
    (Str.replace_g (Str.is_char "/") "_"
       (Str.replace_g (Str.is_char "+") "-"
          (Base64.toString_base64 (Base64.Buffer_from str)))).

(* ===================================================================== *)
(** ** JavaScript strings as code units, and [Buffer.from] on them *)
(* ===================================================================== *)

Module Utf16.

Local Open Scope Z_scope.

(** A JavaScript string is a sequence of 16-bit code units. A unit in
    D800..DBFF followed by one in DC00..DFFF is a surrogate pair and
    stands for one code point; any other unit in D800..DFFF is a lone
    surrogate. *)
Definition is_unit (u : Z) : bool := (0 <=? u) && (u <? 65536).
Definition is_high (u : Z) : bool := (55296 <=? u) && (u <? 56320).
Definition is_low (u : Z) : bool := (56320 <=? u) && (u <? 57344).

Definition byte (n : Z) : ascii := ascii_of_N (Z.to_N n).

(** The UTF-8 bytes of a code point. *)
Definition utf8 (c : Z) : string :=
  if c <? 128 then String (byte c) ""
  else if c <? 2048 then
    String (byte (192 + c / 64)) (String (byte (128 + c mod 64)) "")
  else if c <? 65536 then
    String (byte (224 + c / 4096))
      (String (byte (128 + c / 64 mod 64)) (String (byte (128 + c mod 64)) ""))
  else
    String (byte (240 + c / 262144))
      (String (byte (128 + c / 4096 mod 64))
         (String (byte (128 + c / 64 mod 64))
            (String (byte (128 + c mod 64)) ""))).

Definition code_point (high low : Z) : Z :=
  65536 + (high - 55296) * 1024 + (low - 56320).

(** U+FFFD, which stands in for a lone surrogate. *)
Definition replacement : Z := 65533.

(** [Buffer.from(str)]: the UTF-8 encoding of the string, every lone
    surrogate encoded as U+FFFD. *)
Fixpoint Buffer_from (str : list Z) : string :=
  match str with
  | [] => ""
  | u :: rest =>
      if is_high u then
        match rest with
        | v :: rest' =>
            if is_low v then utf8 (code_point u v) +:+ Buffer_from rest'
            else utf8 replacement +:+ Buffer_from rest
        | [] => utf8 replacement
        end
      else if is_low u then utf8 replacement +:+ Buffer_from rest
      else utf8 u +:+ Buffer_from rest
  end.

(** A string without lone surrogates. *)
Fixpoint well_formed (str : list Z) : bool :=
  match str with
  | [] => true
  | u :: rest =>
      is_unit u
      && if is_high u then
           match rest with
           | v :: rest' => is_low v && well_formed rest'
           | [] => false
           end
         else negb (is_low u) && well_formed rest
  end.

(** [base64UrlEncode(str)] on a JavaScript string: [Base64.Buffer_from]
    is given the bytes that [Buffer.from] makes of it. *)
Definition base64UrlEncode_str (str : list Z) : string :=
  base64UrlEncode (Buffer_from str).

End Utf16.

(* ===================================================================== *)
(** ** SHA-256 (FIPS 180-4) and HMAC (RFC 2104), as [crypto.createHmac] *)
(* ===================================================================== *)

Module SHA256.

Local Open Scope Z_scope.

(** Bytes are integers in [0, 256); words are integers in [0, 2^32). *)
Definition bytes_of_string (s : string) : list Z :=
  map (λ c, Z.of_N (N_of_ascii c)) (list_ascii_of_string s).

Definition string_of_bytes (bs : list Z) : string :=
  string_of_list_ascii (map (λ b, ascii_of_N (Z.to_N b)) bs).

Definition wrap (x : Z) : Z := x mod 4294967296.
Definition add32 (x y : Z) : Z := wrap (x + y).
Definition not32 (x : Z) : Z := Z.lxor x 4294967295.
Definition rotr (n x : Z) : Z :=
  Z.lor (Z.shiftr x n) (wrap (Z.shiftl x (32 - n))).
Definition shr (n x : Z) : Z := Z.shiftr x n.

Definition Ch (x y z : Z) : Z := Z.lxor (Z.land x y) (Z.land (not32 x) z).
Definition Maj (x y z : Z) : Z :=
  Z.lxor (Z.lxor (Z.land x y) (Z.land x z)) (Z.land y z).
Definition bigsigma0 (x : Z) : Z :=
  Z.lxor (Z.lxor (rotr 2 x) (rotr 13 x)) (rotr 22 x).
Definition bigsigma1 (x : Z) : Z :=
  Z.lxor (Z.lxor (rotr 6 x) (rotr 11 x)) (rotr 25 x).
Definition smallsigma0 (x : Z) : Z :=
  Z.lxor (Z.lxor (rotr 7 x) (rotr 18 x)) (shr 3 x).
Definition smallsigma1 (x : Z) : Z :=
  Z.lxor (Z.lxor (rotr 17 x) (rotr 19 x)) (shr 10 x).

(** The constants are the first 32 bits of the fractional parts of the
    square roots (initial hash value) and cube roots (round constants) of
    the first primes; they are computed here rather than tabulated. *)
Fixpoint has_divisor (fuel : nat) (d n : Z) : bool :=
  match fuel with
  | O => false
  | S fuel' =>
      if n <? d * d then false
      else if n mod d =? 0 then true
      else has_divisor fuel' (d + 1) n
  end.

Definition is_prime (n : Z) : bool :=
  (2 <=? n) && negb (has_divisor (Z.to_nat n) 2 n).

Fixpoint primes_from (fuel : nat) (n : Z) (k : nat) : list Z :=
  match fuel, k with
  | O, _ | _, O => []
  | S fuel', S k' =>
      if is_prime n then n :: primes_from fuel' (n + 1) k'
      else primes_from fuel' (n + 1) k
  end.

Definition first_primes (k : nat) : list Z := primes_from 400 2 k.

(** Integer cube root, one bit at a time from the top. *)
Fixpoint cube_root_bits (bits : nat) (r n : Z) : Z :=
  match bits with
  | O => r
  | S bits' =>
      let r' := r + 2 ^ Z.of_nat bits' in
      cube_root_bits bits' (if r' * r' * r' <=? n then r' else r) n
  end.

Definition frac_sqrt32 (p : Z) : Z := wrap (Z.sqrt (p * 2 ^ 64)).
Definition frac_cbrt32 (p : Z) : Z := wrap (cube_root_bits 48 0 (p * 2 ^ 96)).

Definition H0 : list Z := Eval vm_compute in map frac_sqrt32 (first_primes 8).
Definition K : list Z := Eval vm_compute in map frac_cbrt32 (first_primes 64).

(** Padding: a 1 bit, zero bits up to 448 modulo 512, and the length in
    bits as a 64-bit big-endian integer. *)
Definition be_bytes (n : nat) (x : Z) : list Z :=
  map (λ i, (x / 2 ^ (8 * Z.of_nat i)) mod 256) (rev (seq 0 n)).

Definition pad (msg : list Z) : list Z :=
  let len := Z.of_nat (length msg) in
  msg ++ [128] ++ repeat 0 (Z.to_nat ((55 - len) mod 64))
      ++ be_bytes 8 (8 * len).

Definition word_of_bytes (bs : list Z) : Z :=
  fold_left (λ acc b, acc * 256 + b) bs 0.

Fixpoint words_of_bytes (fuel : nat) (bs : list Z) : list Z :=
  match fuel with
  | O => []
  | S fuel' =>
      match bs with
      | [] => []
      | _ => word_of_bytes (firstn 4 bs) :: words_of_bytes fuel' (skipn 4 bs)
      end
  end.

(** The message schedule: sixteen words of the block, extended to 64. *)
Fixpoint schedule (n : nat) (ws : list Z) : list Z :=
  match n with
  | O => ws
  | S n' =>
      let t := length ws in
      let at_ (back : nat) := nth (t - back) ws 0 in
      schedule n'
        (ws ++ [add32 (add32 (smallsigma1 (at_ 2%nat)) (at_ 7%nat))
                      (add32 (smallsigma0 (at_ 15%nat)) (at_ 16%nat))])
  end.

Record regs := Regs { ra : Z; rb : Z; rc : Z; rd : Z;
                      re : Z; rf : Z; rg : Z; rh : Z }.

Definition round (s : regs) (kw : Z * Z) : regs :=
  let t1 := add32 (add32 (add32 (rh s) (bigsigma1 (re s)))
                         (add32 (Ch (re s) (rf s) (rg s)) (fst kw)))
                  (snd kw) in
  let t2 := add32 (bigsigma0 (ra s)) (Maj (ra s) (rb s) (rc s)) in
  Regs (add32 t1 t2) (ra s) (rb s) (rc s) (add32 (rd s) t1) (re s) (rf s) (rg s).

Definition regs_of_list (h : list Z) : regs :=
  Regs (nth 0 h 0) (nth 1 h 0) (nth 2 h 0) (nth 3 h 0)
       (nth 4 h 0) (nth 5 h 0) (nth 6 h 0) (nth 7 h 0).

Definition list_of_regs (s : regs) : list Z :=
  [ra s; rb s; rc s; rd s; re s; rf s; rg s; rh s].

Definition compress (h : regs) (block : list Z) : regs :=
  let w := schedule 48 (words_of_bytes 16 block) in
  let s := fold_left round (combine K w) h in
  Regs (add32 (ra h) (ra s)) (add32 (rb h) (rb s))
       (add32 (rc h) (rc s)) (add32 (rd h) (rd s))
       (add32 (re h) (re s)) (add32 (rf h) (rf s))
       (add32 (rg h) (rg s)) (add32 (rh h) (rh s)).

Fixpoint blocks (fuel : nat) (h : regs) (bs : list Z) : regs :=
  match fuel with
  | O => h
  | S fuel' =>
      match bs with
      | [] => h
      | _ => blocks fuel' (compress h (firstn 64 bs)) (skipn 64 bs)
      end
  end.

Definition digest_bytes (h : regs) : list Z :=
  concat (map (be_bytes 4) (list_of_regs h)).

Definition sha256 (msg : list Z) : list Z :=
  let padded := pad msg in
  digest_bytes (blocks (length padded) (regs_of_list H0) padded).

(** HMAC: keys longer than the 64-byte block are hashed first, then the
    key is padded with zero bytes to the block size. *)
Definition key_block (key : list Z) : list Z :=
  let k := if (64 <? Z.of_nat (length key)) then sha256 key else key in
  k ++ repeat 0 (64 - length k)%nat.

Definition hmac (key msg : list Z) : list Z :=
  let k0 := key_block key in
  let ipad := map (Z.lxor 54) k0 in
  let opad := map (Z.lxor 92) k0 in
  sha256 (opad ++ sha256 (ipad ++ msg)).

(** [crypto.createHmac('sha256', key).update(data).digest()] on strings. *)
Definition hmac_sha256 (key data : string) : string :=
  string_of_bytes (hmac (bytes_of_string key) (bytes_of_string data)).

(** The string of one zero byte. *)
Definition NUL : string := String "000" "".

End SHA256.

(* ===================================================================== *)
(** ** JavaScript values and JSON *)
(* ===================================================================== *)

Module JSON.

(** The JavaScript values the two endpoints build: [undefined], [null],
    booleans, integers, strings and object literals (properties in
    insertion order). *)
#[warnings="-register-all"]
Inductive jsval : Type :=
  | JUndefined
  | JNull
  | JBool (b : bool)
  | JNum (n : Z)
  | JStr (s : string)
  | JObj (props : list (string * jsval)).

Definition dquote : ascii := "034"%char.
Definition backslash : ascii := "092"%char.

Definition hex_digit (n : N) : ascii :=
  match String.get (N.to_nat n) "0123456789abcdef" with
  | Some c => c
  | None => "0"%char
  end.

(** QuoteJSONString of ECMA-262, per character: the quote, the backslash
    and the control characters are escaped, all other characters are
    copied. *)
Definition escape_char (c : ascii) : string :=
  let n := N_of_ascii c in
  if (n =? 8)%N then String backslash "b"
  else if (n =? 9)%N then String backslash "t"
  else if (n =? 10)%N then String backslash "n"
  else if (n =? 12)%N then String backslash "f"
  else if (n =? 13)%N then String backslash "r"
  else if (n =? 34)%N then String backslash (String dquote "")
  else if (n =? 92)%N then String backslash (String backslash "")
  else if (n <? 32)%N then
    String backslash
      (String "u" (String "0" (String "0"
         (String (hex_digit (n / 16)) (String (hex_digit (n mod 16)) "")))))
  else String c "".

Fixpoint escape (s : string) : string :=
  match s with
  | "" => ""
  | String c r => escape_char c +:+ escape r
  end.

Definition quote (s : string) : string :=
  String dquote (escape s +:+ String dquote "").

(** Number::toString for an integer: decimal digits, with a leading minus
    sign for negative numbers. *)
Definition number_to_string (n : Z) : string :=
  NilZero.string_of_int (Z.to_int n).

(** The texts of the properties of an object, given the text of each
    value: a property whose value has no text is left out. *)
Definition members (text_of : jsval → option string)
  : list (string * jsval) → list string :=
  fix go (ps : list (string * jsval)) : list string :=
    match ps with
    | [] => []
    | (k, x) :: r =>
        match text_of x with
        | Some t => (quote k +:+ ":" +:+ t) :: go r
        | None => go r
        end
    end.

(** [JSON.stringify(v)]: [None] is the result [undefined]; a property whose
    value is [undefined] is left out of the text of its object. *)
Fixpoint stringify (v : jsval) : option string :=
  match v with
  | JUndefined => None
  | JNull => Some "null"
  | JBool true => Some "true"
  | JBool false => Some "false"
  | JNum n => Some (number_to_string n)
  | JStr s => Some (quote s)
  | JObj props =>
      Some ("{" +:+ String.concat "," (members stringify props) +:+ "}")
  end.

(** *** Decoding

    A decoder for the JSON texts above: objects, strings, integers,
    booleans and [null], without white space. It is the inverse the
    properties about decoded segments are stated with. *)

Definition hex_value (c : ascii) : option N :=
  let n := N_of_ascii c in
  if ((48 <=? n) && (n <=? 57))%N then Some (n - 48)%N
  else if ((97 <=? n) && (n <=? 102))%N then Some (n - 87)%N
  else if ((65 <=? n) && (n <=? 70))%N then Some (n - 55)%N
  else None.

Definition unescape (e : ascii) : option ascii :=
  let n := N_of_ascii e in
  if (n =? 98)%N then Some "008"%char
  else if (n =? 116)%N then Some "009"%char
  else if (n =? 110)%N then Some "010"%char
  else if (n =? 102)%N then Some "012"%char
  else if (n =? 114)%N then Some "013"%char
  else if (n =? 34)%N then Some dquote
  else if (n =? 92)%N then Some backslash
  else if (n =? 47)%N then Some "/"%char
  else None.

Definition cons_char (c : ascii) (r : option (string * string))
  : option (string * string) :=
  match r with
  | Some (s, rest) => Some (String c s, rest)
  | None => None
  end.

(** The characters after an opening quote, up to the closing quote: the
    string they denote and the text after the closing quote. Escapes
    [\uXXXX] are decoded for code points below 128 only. *)
Fixpoint parse_string_body (s : string) : option (string * string) :=
  match s with
  | "" => None
  | String c r =>
      if Ascii.eqb c dquote then Some ("", r)
      else if Ascii.eqb c backslash then
        match r with
        | "" => None
        | String e r1 =>
            if Ascii.eqb e "u" then
              match r1 with
              | String h1 (String h2 (String h3 (String h4 r2))) =>
                  match hex_value h1, hex_value h2, hex_value h3, hex_value h4 with
                  | Some a, Some b, Some c', Some d =>
                      let n := (((a * 16 + b) * 16 + c') * 16 + d)%N in
                      if (n <? 128)%N
                      then cons_char (ascii_of_N n) (parse_string_body r2)
                      else None
                  | _, _, _, _ => None
                  end
              | _ => None
              end
            else
              match unescape e with
              | Some c' => cons_char c' (parse_string_body r1)
              | None => None
              end
        end
      else if (N_of_ascii c <? 32)%N then None
      else cons_char c (parse_string_body r)
  end.

Definition is_number_char (c : ascii) : bool :=
  let n := N_of_ascii c in
  ((n =? 45) || ((48 <=? n) && (n <=? 57)))%N.

(** The longest prefix of number characters, and the rest. *)
Fixpoint span_number (s : string) : string * string :=
  match s with
  | "" => ("", "")
  | String c r =>
      if is_number_char c
      then let '(d, rest) := span_number r in (String c d, rest)
      else ("", s)
  end.

Definition parse_number (s : string) : option (Z * string) :=
  let '(d, rest) := span_number s in
  match NilZero.int_of_string d with
  | Some i => Some (Z.of_int i, rest)
  | None => None
  end.

(** The text after the prefix [p], when the text starts with it. *)
Fixpoint strip_prefix (p s : string) : option string :=
  match p with
  | "" => Some s
  | String a p' =>
      match s with
      | "" => None
      | String b s' => if Ascii.eqb a b then strip_prefix p' s' else None
      end
  end.

(** Recursive descent; [fuel] bounds the nesting and the number of
    properties, and is taken from the length of the text by [parse]. *)
Fixpoint parse_value (fuel : nat) (s : string) : option (jsval * string) :=
  match fuel with
  | O => None
  | S fuel' =>
      match s with
      | "" => None
      | String c r =>
          if Ascii.eqb c dquote then
            match parse_string_body r with
            | Some (str, rest) => Some (JStr str, rest)
            | None => None
            end
          else if Ascii.eqb c "{" then
            match r with
            | String c2 r2 =>
                if Ascii.eqb c2 "}" then Some (JObj [], r2)
                else match parse_members fuel' r with
                     | Some (ps, rest) => Some (JObj ps, rest)
                     | None => None
                     end
            | "" => None
            end
          else if Ascii.eqb c "t" then
            match strip_prefix "rue" r with
            | Some rest => Some (JBool true, rest) | None => None end
          else if Ascii.eqb c "f" then
            match strip_prefix "alse" r with
            | Some rest => Some (JBool false, rest) | None => None end
          else if Ascii.eqb c "n" then
            match strip_prefix "ull" r with
            | Some rest => Some (JNull, rest) | None => None end
          else
            match parse_number s with
            | Some (n, rest) => Some (JNum n, rest)
            | None => None
            end
      end
  end
with parse_members (fuel : nat) (s : string)
  : option (list (string * jsval) * string) :=
  match fuel with
  | O => None
  | S fuel' =>
      match s with
      | "" => None
      | String c r =>
          if Ascii.eqb c dquote then
            match parse_string_body r with
            | Some (k, String c1 r1) =>
                if Ascii.eqb c1 ":" then
                  match parse_value fuel' r1 with
                  | Some (x, String c2 r2) =>
                      if Ascii.eqb c2 "," then
                        match parse_members fuel' r2 with
                        | Some (ps, rest) => Some ((k, x) :: ps, rest)
                        | None => None
                        end
                      else if Ascii.eqb c2 "}" then Some ([(k, x)], r2)
                      else None
                  | _ => None
                  end
                else None
            | _ => None
            end
          else None
      end
  end.

(** [JSON.parse(text)] on that fragment: the whole text must be one
    value. *)
Definition parse (text : string) : option jsval :=
  match parse_value (S (String.length text)) text with
  | Some (v, "") => Some v
  | _ => None
  end.

(** Values without [undefined] in them: the values that JSON texts
    denote. *)
Fixpoint defined (v : jsval) : bool :=
  match v with
  | JUndefined => false
  | JObj props => forallb (λ kv, defined kv.2) props
  | _ => true
  end.

(** Fuel that [parse_value] needs for the text of a value. *)
Fixpoint need (v : jsval) : nat :=
  match v with
  | JObj props =>
      S ((fix go (ps : list (string * jsval)) : nat :=
            match ps with
            | [] => 0
            | (_, x) :: r => S (Nat.max (need x) (go r))
            end) props)
  | _ => 1
  end.

Definition need_props : list (string * jsval) → nat :=
  fix go (ps : list (string * jsval)) : nat :=
    match ps with
    | [] => 0
    | (_, x) :: r => S (Nat.max (need x) (go r))
    end.

(** Property lookup [o.k] on a decoded object: the last property of that
    name wins, as in an object literal. *)
Fixpoint lookup_prop (k : string) (props : list (string * jsval)) : option jsval :=
  match props with
  | [] => None
  | (k', x) :: r =>
      match lookup_prop k r with
      | Some y => Some y
      | None => if String.eqb k k' then Some x else None
      end
  end.

Definition get (k : string) (v : jsval) : jsval :=
  match v with
  | JObj props => default JUndefined (lookup_prop k props)
  | _ => JUndefined
  end.

(** *** Notions the round trip is stated with *)

Definition no_number_head (s : string) : bool :=
  match s with
  | "" => true
  | String c _ => negb (is_number_char c)
  end.

(** The statement of the round trip for one value. *)
Definition round_trip (v : jsval) : Prop :=
  ∀ text, stringify v = Some text → defined v = true →
  ∀ fuel rest, (need v ≤ fuel)%nat → no_number_head rest = true →
  parse_value fuel (text +:+ rest) = Some (v, rest).

End JSON.

(** Unpadded URL-safe base64, decoded: the inverse of [base64UrlEncode]
    used to state what a verifier reads out of a segment. *)
Module Base64Url.

Definition alphabet : string :=
  "ABCDEFGHIJKLMNOPQRSTUVWXYZabcdefghijklmnopqrstuvwxyz0123456789-_".

Fixpoint index_from (i : N) (c : ascii) (s : string) : option N :=
  match s with
  | "" => None
  | String c' r => if Ascii.eqb c c' then Some i else index_from (i + 1) c r
  end.

Definition value_of (c : ascii) : option N := index_from 0 c alphabet.

(** The characters of the alphabet: A-Z, a-z, 0-9, '-' and '_'. *)
Definition is_url_char (c : ascii) : bool :=
  let n := N_of_ascii c in
  (((65 <=? n) && (n <=? 90)) || ((97 <=? n) && (n <=? 122))
   || ((48 <=? n) && (n <=? 57)) || (n =? 45) || (n =? 95))%N.

(** The character of a 6-bit value. *)
Definition char_of (i : N) : ascii :=
  match String.get (N.to_nat i) alphabet with
  | Some c => c
  | None => "="%char
  end.

Definition byte (n : N) : ascii := ascii_of_N (n mod 256).

Fixpoint decode (s : string) : option string :=
  match s with
  | "" => Some ""
  | String _ "" => None
  | String c1 (String c2 "") =>
      match value_of c1, value_of c2 with
      | Some v1, Some v2 =>
          let n := (v1 * 262144 + v2 * 4096)%N in
          Some (String (byte (n / 65536)) "")
      | _, _ => None
      end
  | String c1 (String c2 (String c3 "")) =>
      match value_of c1, value_of c2, value_of c3 with
      | Some v1, Some v2, Some v3 =>
          let n := (v1 * 262144 + v2 * 4096 + v3 * 64)%N in
          Some (String (byte (n / 65536)) (String (byte (n / 256)) ""))
      | _, _, _ => None
      end
  | String c1 (String c2 (String c3 (String c4 r))) =>
      match value_of c1, value_of c2, value_of c3, value_of c4, decode r with
      | Some v1, Some v2, Some v3, Some v4, Some t =>
          let n := (v1 * 262144 + v2 * 4096 + v3 * 64 + v4)%N in
          Some (String (byte (n / 65536))
                  (String (byte (n / 256)) (String (byte n) t)))
      | _, _, _, _, _ => None
      end
  end.

End Base64Url.

(** Notions the facts about [base64UrlEncode] are stated with. *)
Module Base64Notions.

Import Str.

(** The characters of standard base64 text: A-Z, a-z, 0-9, plus, slash,
    and the padding character. *)
Definition is_std_or_pad (c : ascii) : bool :=
  Base64Url.is_url_char c && negb (Ascii.eqb c "-") && negb (Ascii.eqb c "_")
  || Ascii.eqb c "+" || Ascii.eqb c "/" || Ascii.eqb c "=".

(** The three replacements of [base64UrlEncode], as one function. *)
Definition replace3 (s : string) : string :=
  replace_g (is_char "=") ""
    (replace_g (is_char "/") "_" (replace_g (is_char "+") "-" s)).

(** What the replacements do to one character. *)
Definition url_map (c : ascii) : string :=
  if Ascii.eqb c "+" then "-"
  else if Ascii.eqb c "/" then "_"
  else if Ascii.eqb c "=" then ""
  else String c "".

End Base64Notions.

(* ===================================================================== *)
(** ** Results of calls that may throw *)
(* ===================================================================== *)

Inductive result (A : Type) : Type :=
  | Ok (a : A)
  | Throw (message : string).
Arguments Ok {A} a.
Arguments Throw {A} message.

#[export] Instance result_ret : MRet result := λ A a, Ok a.
#[export] Instance result_bind : MBind result := λ A B f r,
  match r with
  | Ok a => f a
  | Throw e => Throw e
  end.

(* ===================================================================== *)
(** ** The token endpoint *)
(* ===================================================================== *)

Module Token.

Import JSON.

(** What the function reads from its surroundings: two environment
    variables and the clock ([Date.now()], in milliseconds). *)
Record Env : Type := mkEnv {
  LIVEKIT_API_KEY : option string;
  LIVEKIT_API_SECRET : option string;
  Date_now : Z
}.

Definition of_env (v : option string) : jsval :=
  match v with
  | Some s => JStr s
  | None => JUndefined
  end.

Definition header : jsval :=
  JObj [("alg", JStr "HS256"); ("typ", JStr "JWT")].

Definition payload (key : option string) (identity roomName : string) (now : Z)
  : jsval :=
  let exp := (now + 24 * 60 * 60)%Z in
  JObj [("exp", JNum exp);
        ("iss", of_env key);
        ("name", JStr identity);
        ("nbf", JNum now);
        ("sub", JStr identity);
        ("video", JObj [("room", JStr roomName);
                        ("roomJoin", JBool true);
                        ("canPublish", JBool true);
                        ("canSubscribe", JBool true);
                        ("canPublishData", JBool true)])].

(** [base64UrlEncode(JSON.stringify(v))]; [Buffer.from(undefined)] throws. *)
Definition encode_json (v : jsval) : result string :=
  match stringify v with
  | Some text => Ok (base64UrlEncode text)
  | None => Throw "TypeError: The first argument must be of type string"
  end.

(** [crypto.createHmac('sha256', key).update(data).digest('base64')
      .replace(/\+/g, '-').replace(/\//g, '_').replace(/=/g, '')];
    [createHmac] throws when the key is [undefined]. *)
Definition sign (secret : option string) (data : string) : result string :=
  match secret with
  | Some key =>
      Ok (Str.replace_g (Str.is_char "=") ""
            (Str.replace_g (Str.is_char "/") "_"
               (Str.replace_g (Str.is_char "+") "-"
                  (Base64.toString_base64 (SHA256.hmac_sha256 key data)))))
  | None => Throw "TypeError: The key argument must be of type string"
  end.

Definition createToken (env : Env) (identity roomName : string) : result string :=
  let now := (Date_now env / 1000)%Z in
  headerEncoded ← encode_json header;
  payloadEncoded ←
    encode_json (payload (LIVEKIT_API_KEY env) identity roomName now);
  signature ← sign (LIVEKIT_API_SECRET env)
                (headerEncoded +:+ "." +:+ payloadEncoded);
  mret (headerEncoded +:+ "." +:+ payloadEncoded +:+ "." +:+ signature).

(** The request handler of the endpoint: the method and the two query
    parameters of the request, the status and the JSON body of the answer.
    The CORS headers it sets and the lines it writes to the console are
    left out; nothing below is about them. *)
Record Request : Type := mkRequest {
  method : string;
  q_identity : option string;
  q_room : option string
}.

Record Response : Type := mkResponse {
  status : nat;
  body : option jsval
}.

Definition handler (env : Env) (req : Request) : Response :=
  if String.eqb (method req) "OPTIONS" then mkResponse 200 None
  else if negb (Str.truthy (q_identity req)) || negb (Str.truthy (q_room req)) then
    mkResponse 400
      (Some (JObj [("error", JStr "Missing identity or room parameter")]))
  else if negb (Str.truthy (LIVEKIT_API_KEY env))
          || negb (Str.truthy (LIVEKIT_API_SECRET env)) then
    mkResponse 500
      (Some (JObj [("error", JStr "Server not configured. Missing LIVEKIT_API_KEY or LIVEKIT_API_SECRET environment variables.")]))
  else
    match createToken env (default "" (q_identity req)) (default "" (q_room req)) with
    | Ok token => mkResponse 200 (Some (JObj [("token", JStr token)]))
    | Throw _ =>
        mkResponse 500 (Some (JObj [("error", JStr "Failed to generate token")]))
    end.

(** The three dot-separated segments of a credential, for a verifier. *)
Definition segments (token : string) : list string := Str.split "." token.

Definition decode_segment (seg : string) : option jsval :=
  match Base64Url.decode seg with
  | Some text => JSON.parse text
  | None => None
  end.

(** The signature a verifier holding [secret] computes over the first two
    segments of a credential. *)
Definition recompute (secret : string) (seg1 seg2 : string) : result string :=
  sign (Some secret) (seg1 +:+ "." +:+ seg2).

(** *** The segments by name *)

(** The JSON text of an object literal. *)
Definition text_of (v : jsval) : string := default "" (stringify v).

(** The three segments of the credential, as [createToken] computes
    them. *)
Definition headerEncoded : string := base64UrlEncode (text_of header).

Definition payloadEncoded (key : option string) (identity roomName : string)
    (now : Z) : string :=
  base64UrlEncode (text_of (payload key identity roomName now)).

Definition signature (secret data : string) : string :=
  base64UrlEncode (SHA256.hmac_sha256 secret data).

End Token.

(* ===================================================================== *)
(** ** What the token endpoint asks of its surroundings *)
(* ===================================================================== *)

Module TokenProgram.

Import JSON Token.

(** A function body as the sequence of what it asks of its surroundings:
    [process.env.NAME], [Date.now()], and [console.log] or
    [console.error]; it ends by returning or by throwing. *)
Inductive Prog (A : Type) : Type :=
  | Ret (a : A)
  | Raise (message : string)
  | Env_get (name : string) (k : option string → Prog A)
  | Now (k : Z → Prog A)
  | Console_log (line : string) (k : Prog A).
Arguments Ret {A} a.
Arguments Raise {A} message.
Arguments Env_get {A} name k.
Arguments Now {A} k.
Arguments Console_log {A} line k.

Fixpoint bind {A B : Type} (p : Prog A) (f : A → Prog B) : Prog B :=
  match p with
  | Ret a => f a
  | Raise e => Raise e
  | Env_get name k => Env_get name (λ v, bind (k v) f)
  | Now k => Now (λ ms, bind (k ms) f)
  | Console_log line k => Console_log line (bind k f)
  end.

#[export] Instance Prog_ret : MRet Prog := λ A a, Ret a.
#[export] Instance Prog_bind : MBind Prog := λ A B f p, bind p f.

(** A call that returns or throws and asks nothing. *)
Definition lift {A : Type} (r : result A) : Prog A :=
  match r with
  | Ok a => Ret a
  | Throw e => Raise e
  end.

(** [try { p } catch (error) { h(error) }]. *)
Fixpoint try_catch {A : Type} (p : Prog A) (h : string → Prog A) : Prog A :=
  match p with
  | Ret a => Ret a
  | Raise e => h e
  | Env_get name k => Env_get name (λ v, try_catch (k v) h)
  | Now k => Now (λ ms, try_catch (k ms) h)
  | Console_log line k => Console_log line (try_catch k h)
  end.

(** [createToken], statement by statement: the two environment variables
    and the clock are read, in this order, and the rest is computed from
    them and the arguments. *)
Definition createToken_prog (identity roomName : string) : Prog string :=
  key ← Env_get "LIVEKIT_API_KEY" Ret;
  secret ← Env_get "LIVEKIT_API_SECRET" Ret;
  ms ← Now Ret;
  let now := (ms / 1000)%Z in
  headerEncoded ← lift (encode_json header);
  payloadEncoded ← lift (encode_json (payload key identity roomName now));
  signature ← lift (sign secret (headerEncoded +:+ "." +:+ payloadEncoded));
  mret (headerEncoded +:+ "." +:+ payloadEncoded +:+ "." +:+ signature).

(** The request handler with its console lines. The second variable of
    the configuration check is read only when the first is set. The CORS
    headers are part of the answer and are left out, as in
    [Token.handler]; of what [console.error] prints of the error, the
    message. *)
Definition handler_prog (req : Request) : Prog Response :=
  if String.eqb (method req) "OPTIONS" then Ret (mkResponse 200 None)
  else if negb (Str.truthy (q_identity req)) || negb (Str.truthy (q_room req)) then
    Ret (mkResponse 400
           (Some (JObj [("error", JStr "Missing identity or room parameter")])))
  else
    let unconfigured : Prog Response :=
      Ret (mkResponse 500
             (Some (JObj [("error", JStr "Server not configured. Missing LIVEKIT_API_KEY or LIVEKIT_API_SECRET environment variables.")]))) in
    let identity := default "" (q_identity req) in
    let room := default "" (q_room req) in
    key ← Env_get "LIVEKIT_API_KEY" Ret;
    if negb (Str.truthy key) then unconfigured
    else
      secret ← Env_get "LIVEKIT_API_SECRET" Ret;
      if negb (Str.truthy secret) then unconfigured
      else
        try_catch
          (token ← createToken_prog identity room;
           Console_log ("Token generated for user: " +:+ identity
                        +:+ ", room: " +:+ room)
             (Ret (mkResponse 200 (Some (JObj [("token", JStr token)])))))
          (λ error,
             Console_log ("Error generating token: " +:+ error)
               (Ret (mkResponse 500
                       (Some (JObj [("error", JStr "Failed to generate token")]))))).

(** What an observer of a call sees, in order. *)
Inductive Event : Type :=
  | Env_read (name : string) (value : option string)
  | Clock_read (ms : Z)
  | Console_line (line : string).

(** The events that leave the surroundings as they were. *)
Definition is_read (e : Event) : bool :=
  match e with
  | Env_read _ _ | Clock_read _ => true
  | Console_line _ => false
  end.

(** [runs p t r]: in some surroundings the body [p] makes the events [t]
    and ends with [r]. The surroundings choose what each read gives. *)
Inductive runs {A : Type} : Prog A → list Event → result A → Prop :=
  | runs_ret (a : A) : runs (Ret a) [] (Ok a)
  | runs_raise (e : string) : runs (Raise e) [] (Throw e)
  | runs_env (name : string) (k : option string → Prog A) (v : option string)
      (t : list Event) (r : result A) :
      runs (k v) t r → runs (Env_get name k) (Env_read name v :: t) r
  | runs_now (k : Z → Prog A) (ms : Z) (t : list Event) (r : result A) :
      runs (k ms) t r → runs (Now k) (Clock_read ms :: t) r
  | runs_log (line : string) (k : Prog A) (t : list Event) (r : result A) :
      runs k t r → runs (Console_log line k) (Console_line line :: t) r.

(** The events of a call of [createToken] in surroundings where the
    variables and the clock have the values of [env]. *)
Definition reads_of (env : Env) : list Event :=
  [Env_read "LIVEKIT_API_KEY" (LIVEKIT_API_KEY env);
   Env_read "LIVEKIT_API_SECRET" (LIVEKIT_API_SECRET env);
   Clock_read (Date_now env)].

End TokenProgram.

(* ===================================================================== *)
(** ** [Date#toISOString] (ECMA-262) *)
(* ===================================================================== *)

Module ISODate.

Local Open Scope Z_scope.

Definition digit (n : Z) : ascii := ascii_of_N (48 + Z.to_N (n mod 10)).

(** The last [width] decimal digits of [n], with leading zeros. *)
Fixpoint digits (width : nat) (n : Z) : string :=
  match width with
  | O => ""%string
  | S w => digits w (n / 10) +:+ String (digit n) ""
  end.

(** Year, month and day of a day number counted from 1970-01-01, in the
    proleptic Gregorian calendar. *)
Definition civil_from_days (days : Z) : Z * Z * Z :=
  let z := days + 719468 in
  let era := z / 146097 in
  let doe := z mod 146097 in
  let yoe := (doe - doe / 1460 + doe / 36524 - doe / 146096) / 365 in
  let doy := doe - (365 * yoe + yoe / 4 - yoe / 100) in
  let mp := (5 * doy + 2) / 153 in
  let d := doy - (153 * mp + 2) / 5 + 1 in
  let m := if mp <? 10 then mp + 3 else mp - 9 in
  let y := yoe + era * 400 + (if m <=? 2 then 1 else 0) in
  (y, m, d).

Definition year_string (y : Z) : string :=
  if (0 <=? y) && (y <=? 9999) then digits 4 y
  else if y <? 0 then "-" +:+ digits 6 (- y)
  else "+" +:+ digits 6 y.

(** [new Date(ms).toISOString()]: [YYYY-MM-DDTHH:mm:ss.sssZ] in UTC. *)
Definition toISOString (ms : Z) : string :=
  let '(y, m, d) := civil_from_days (ms / 86400000) in
  let t := ms mod 86400000 in
  year_string y +:+ "-" +:+ digits 2 m +:+ "-" +:+ digits 2 d +:+ "T"
    +:+ digits 2 (t / 3600000) +:+ ":" +:+ digits 2 (t / 60000 mod 60)
    +:+ ":" +:+ digits 2 (t / 1000 mod 60) +:+ "." +:+ digits 3 (t mod 1000)
    +:+ "Z".

End ISODate.

(* ===================================================================== *)
(** ** The recording endpoint *)
(* ===================================================================== *)

Module Recording.

Import JSON.

(** The value stored per room in [activeRecordings]. *)
Record RecordingInfo : Type := mkInfo {
  egressId : string;
  startedBy : string;
  startedAt : string;
  filepath : string
}.

(** The requests sent to the egress service. The storage credentials and
    the fixed encoding options that go with a start request are constants
    of the deployment and are not recorded here. *)
Inductive EgressCall : Type :=
  | StartRoomCompositeEgress (room : string) (filepath : string)
  | StopEgress (egressId : string).

(** Everything the endpoint can change: the map of active recordings, the
    requests made to the egress service so far, and the console. *)
Record World : Type := mkWorld {
  activeRecordings : gmap string RecordingInfo;
  egressCalls : list EgressCall;
  console : list string
}.

(** How the egress service answers the request a call makes, if it makes
    one: the promise resolves with an [EgressInfo], of which only the
    [egressId] is read, or it rejects with an error. *)
Inductive Reply : Type :=
  | Resolved (egressId : string)
  | Rejected (message : string).

(** What a call reads from outside: the clock before and after the
    request to the service ([new Date()], in milliseconds), and the
    service's reply. *)
Record Outside : Type := mkOutside {
  date_before : Z;
  date_after : Z;
  reply : Reply
}.

(** Computations over the world that return or throw. *)
Definition M (A : Type) : Type := World → result A * World.

#[export] Instance M_ret : MRet M := λ A a w, (Ok a, w).
#[export] Instance M_bind : MBind M := λ A B f m w,
  match m w with
  | (Ok a, w') => f a w'
  | (Throw e, w') => (Throw e, w')
  end.

(** Whether a lookup found a value; also [!!v] for a value that is an
    object or [undefined]. *)
Definition present {A : Type} (v : option A) : bool :=
  match v with
  | Some _ => true
  | None => false
  end.

Definition Map_has (room : string) : M bool :=
  λ w, (Ok (present (activeRecordings w !! room)), w).

Definition Map_get (room : string) : M (option RecordingInfo) :=
  λ w, (Ok (activeRecordings w !! room), w).

Definition Map_set (room : string) (info : RecordingInfo) : M unit :=
  λ w, (Ok (), mkWorld (<[room := info]> (activeRecordings w))
                      (egressCalls w) (console w)).

Definition Map_delete (room : string) : M unit :=
  λ w, (Ok (), mkWorld (delete room (activeRecordings w))
                      (egressCalls w) (console w)).

Definition console_log (line : string) : M unit :=
  λ w, (Ok (), mkWorld (activeRecordings w) (egressCalls w)
                      (console w ++ [line])).

(** [await] of a request to the egress service: the request is sent, and
    the reply is the value of the [await] or is thrown. *)
Definition await (call : EgressCall) (r : Reply) : M string :=
  λ w, (match r with
        | Resolved id => Ok id
        | Rejected e => Throw e
        end,
        mkWorld (activeRecordings w) (egressCalls w ++ [call]) (console w)).

Definition throw {A : Type} (e : string) : M A := λ w, (Throw e, w).

Record Response : Type := mkResponse {
  status : nat;
  body : jsval
}.

Definition is_colon_or_dot (c : ascii) : bool :=
  Ascii.eqb c ":" || Ascii.eqb c ".".

(** The timestamp of the file name:
    [new Date().toISOString().replace(/[:.]/g, '-')]. *)
Definition file_timestamp (ms : Z) : string :=
  Str.replace_g is_colon_or_dot "-" (ISODate.toISOString ms).

Definition startRecording (out : Outside) (room : string) (identity : option string)
  : M Response :=
  has ← Map_has room;
  if has : bool then
    existing ← Map_get room;
    match existing with
    | Some existing =>
        mret (mkResponse 409
                (JObj [("error", JStr "Recording already in progress");
                       ("startedBy", JStr (startedBy existing));
                       ("egressId", JStr (egressId existing))]))
    | None => throw "TypeError: Cannot read properties of undefined"
    end
  else
    let timestamp := file_timestamp (date_before out) in
    let filepath := "recordings/" +:+ room +:+ "/" +:+ timestamp +:+ ".ogg" in
    egressInfo_egressId ← await (StartRoomCompositeEgress room filepath) (reply out);
    Map_set room (mkInfo egressInfo_egressId
                         (Str.or_else identity "unknown")
                         (ISODate.toISOString (date_after out))
                         filepath);;
    console_log ("Recording started for room: " +:+ room +:+ ", egressId: "
                 +:+ egressInfo_egressId);;
    mret (mkResponse 200
            (JObj [("success", JBool true);
                   ("egressId", JStr egressInfo_egressId);
                   ("filepath", JStr filepath);
                   ("message", JStr "Recording started")])).

(** The first half of [stopRecording]: the session to stop and the record
    it was found in ([targetEgressId] and [recordingInfo]). *)
Definition resolve (room egressId_ : option string)
  : M (option string * option RecordingInfo) :=
  has ← (if Str.truthy room then Map_has (default "" room) else mret false);
  if has : bool then
    recordingInfo ← Map_get (default "" room);
    match recordingInfo with
    | Some info => mret (Some (egressId info), Some info)
    | None => throw "TypeError: Cannot read properties of undefined"
    end
  else mret (egressId_, None).

Definition stopRecording (out : Outside) (room egressId_ : option string)
  : M Response :=
  '(targetEgressId, recordingInfo) ← resolve room egressId_;
  if negb (Str.truthy targetEgressId) then
    mret (mkResponse 404
            (JObj [("error", JStr "No active recording found for this room")]))
  else
    let target := default "" targetEgressId in
    await (StopEgress target) (reply out);;
    (if Str.truthy room then Map_delete (default "" room) else mret ());;
    console_log ("Recording stopped for egressId: " +:+ target);;
    mret (mkResponse 200
            (JObj [("success", JBool true);
                   ("egressId", JStr target);
                   ("filepath",
                    match recordingInfo with
                    | Some info => JStr (filepath info)
                    | None => JUndefined
                    end);
                   ("message", JStr "Recording stopped")])).

Definition getRecordingStatus (room : string) : M Response :=
  recordingInfo ← Map_get room;
  mret (mkResponse 200
          (JObj (("isRecording", JBool (present recordingInfo))
                 :: match recordingInfo with
                    | Some info =>
                        [("egressId", JStr (egressId info));
                         ("startedBy", JStr (startedBy info));
                         ("startedAt", JStr (startedAt info))]
                    | None => []
                    end))).

(** The module-level configuration, read from the environment once. *)
Record Config : Type := mkConfig {
  LIVEKIT_API_KEY : option string;
  LIVEKIT_API_SECRET : option string;
  AZURE_ACCOUNT_NAME : option string;
  AZURE_ACCOUNT_KEY : option string;
  AZURE_CONTAINER_NAME : option string
}.

(** A request: its method and the merged query and body parameters. *)
Record Request : Type := mkRequest {
  method : string;
  action : option string;
  p_room : option string;
  p_egressId : option string;
  p_identity : option string
}.

(** What the handler sends: a status and, except for a preflight request,
    a JSON body. The CORS headers it sets are left out. *)
Record HttpResponse : Type := mkHttp {
  http_status : nat;
  http_body : option jsval
}.

Definition error_response (code : nat) (message : string) : HttpResponse :=
  mkHttp code (Some (JObj [("error", JStr message)])).

Definition respond (m : M Response) (w : World) : HttpResponse * World :=
  match m w with
  | (Ok r, w') => (mkHttp (status r) (Some (body r)), w')
  | (Throw message, w') =>
      (mkHttp 500 (Some (JObj [("error", JStr "Recording operation failed");
                               ("details", JStr message)])),
       mkWorld (activeRecordings w') (egressCalls w')
               (console w' ++ ["Recording error: " +:+ message]))
  end.

Definition handler (cfg : Config) (out : Outside) (req : Request) (w : World)
  : HttpResponse * World :=
  if String.eqb (method req) "OPTIONS" then (mkHttp 200 None, w)
  else if negb (Str.truthy (LIVEKIT_API_KEY cfg))
          || negb (Str.truthy (LIVEKIT_API_SECRET cfg)) then
    (error_response 500 "Server not configured. Missing LiveKit credentials.", w)
  else if negb (Str.truthy (AZURE_ACCOUNT_NAME cfg))
          || negb (Str.truthy (AZURE_ACCOUNT_KEY cfg))
          || negb (Str.truthy (AZURE_CONTAINER_NAME cfg)) then
    (error_response 500
       "Server not configured. Missing Azure Blob Storage credentials.", w)
  else
    let is_action (name : string) : bool :=
      match action req with
      | Some a => String.eqb a name
      | None => false
      end in
    if is_action "start" then
      if negb (Str.truthy (p_room req))
      then (error_response 400 "Missing room parameter", w)
      else respond (startRecording out (default "" (p_room req)) (p_identity req)) w
    else if is_action "stop" then
      if negb (Str.truthy (p_room req)) && negb (Str.truthy (p_egressId req))
      then (error_response 400 "Missing room or egressId parameter", w)
      else respond (stopRecording out (p_room req) (p_egressId req)) w
    else if is_action "status" then
      if negb (Str.truthy (p_room req))
      then (error_response 400 "Missing room parameter", w)
      else respond (getRecordingStatus (default "" (p_room req))) w
    else (error_response 400 "Invalid action. Use: start, stop, or status", w).

(** The state of a room in the tracker. *)
Inductive RoomState : Type := StIdle | StRecording.

Definition room_state (w : World) (room : string) : RoomState :=
  match activeRecordings w !! room with
  | Some _ => StRecording
  | None => StIdle
  end.

(** *** The answers and requests by name *)

Import Str.

Definition conflict_body (existing : RecordingInfo) : jsval :=
  JObj [("error", JStr "Recording already in progress");
        ("startedBy", JStr (startedBy existing));
        ("egressId", JStr (egressId existing))].

Definition output_path (room : string) (ms : Z) : string :=
  "recordings/" +:+ room +:+ "/" +:+ file_timestamp ms +:+ ".ogg".

Definition started_body (id path : string) : jsval :=
  JObj [("success", JBool true);
        ("egressId", JStr id);
        ("filepath", JStr path);
        ("message", JStr "Recording started")].

Definition stopped_body (id : string) (path : jsval) : jsval :=
  JObj [("success", JBool true);
        ("egressId", JStr id);
        ("filepath", path);
        ("message", JStr "Recording stopped")].

Definition not_found_body : jsval :=
  JObj [("error", JStr "No active recording found for this room")].

(** What [stopRecording] does once the session is resolved. *)
Definition stop_resolved (out : Outside) (room : option string)
    (target : option string) (recordingInfo : option RecordingInfo) (w : World)
  : result Response * World :=
  if negb (truthy target) then (Ok (mkResponse 404 not_found_body), w)
  else
    let id := default "" target in
    match reply out with
    | Resolved _ =>
        (Ok (mkResponse 200
               (stopped_body id
                  match recordingInfo with
                  | Some info => JStr (filepath info)
                  | None => JUndefined
                  end)),
         mkWorld (if truthy room
                  then delete (default "" room) (activeRecordings w)
                  else activeRecordings w)
                 (egressCalls w ++ [StopEgress id])
                 (console w ++ ["Recording stopped for egressId: " +:+ id]))
    | Rejected e =>
        (Throw e,
         mkWorld (activeRecordings w) (egressCalls w ++ [StopEgress id])
                 (console w))
    end.

(** All five credentials of the deployment are set. *)
Definition configured (cfg : Config) : bool :=
  truthy (LIVEKIT_API_KEY cfg) && truthy (LIVEKIT_API_SECRET cfg)
  && truthy (AZURE_ACCOUNT_NAME cfg) && truthy (AZURE_ACCOUNT_KEY cfg)
  && truthy (AZURE_CONTAINER_NAME cfg).

Definition failure_body (message : string) : jsval :=
  JObj [("error", JStr "Recording operation failed");
        ("details", JStr message)].

Definition start_request (room : string) (identity : option string) : Request :=
  mkRequest "POST" (Some "start") (Some room) None identity.

Definition stop_request (room egressId_ : option string) : Request :=
  mkRequest "POST" (Some "stop") room egressId_ None.

Definition status_request (room : string) : Request :=
  mkRequest "GET" (Some "status") (Some room) None None.

(** A world in which room-A is being recorded, and pieces to build
    examples from. *)
Definition info_A : RecordingInfo :=
  mkInfo "EG_1" "alice" "2023-11-14T22:13:20.456Z"
         "recordings/room-A/2023-11-14T22-13-20-123Z.ogg".

Definition idle : World := mkWorld ∅ [] [].

Definition recording_A : World := mkWorld {["room-A" := info_A]} [] [].

Definition answers (r : Reply) : Outside :=
  mkOutside 1700000000123 1700000000456 r.

Definition cfg_ok : Config :=
  mkConfig (Some "APIkey") (Some "secret") (Some "account") (Some "key")
           (Some "container").

Definition no_slash (c : ascii) : bool := negb (Ascii.eqb c "/").

End Recording.

(* ===================================================================== *)
(** ** What a reader of a JSON text gets back *)
(* ===================================================================== *)

Module JSONPrune.

Import JSON.

Definition prune_props (prune : jsval → jsval)
  : list (string * jsval) → list (string * jsval) :=
  fix go (ps : list (string * jsval)) : list (string * jsval) :=
    match ps with
    | [] => []
    | (k, x) :: r =>
        match x with
        | JUndefined => go r
        | _ => (k, prune x) :: go r
        end
    end.

(** The value without the properties whose value is [undefined], at every
    depth: what [JSON.stringify] keeps of it. *)
Fixpoint prune (v : jsval) : jsval :=
  match v with
  | JObj props => JObj (prune_props prune props)
  | _ => v
  end.

(** [res.json(body)]: the text sent for a body. *)
Definition wire (body : option jsval) : option string :=
  match body with
  | Some v => stringify v
  | None => None
  end.

End JSONPrune.

(* ===================================================================== *)
(** ** The standalone token server (token-server.js) *)
(* ===================================================================== *)

Module TokenServer.

Import JSON.

(** A request as the server reads it: the method, the path and the two
    query parameters. The answer is a status and, except for a preflight
    request, a JSON body; headers and console lines are left out. *)
Record Request : Type := mkRequest {
  method : string;
  pathname : string;
  q_identity : option string;
  q_room : option string
}.

Definition answer (code : nat) (message : string) : Token.Response :=
  Token.mkResponse code (Some (JObj [("error", JStr message)])).

Definition server (env : Token.Env) (req : Request) : Token.Response :=
  if String.eqb (method req) "OPTIONS" then Token.mkResponse 200 None
  else if String.eqb (pathname req) "/token" && String.eqb (method req) "GET" then
    if negb (Str.truthy (q_identity req)) || negb (Str.truthy (q_room req)) then
      answer 400 "Missing identity or room parameter"
    else if match Token.LIVEKIT_API_SECRET env with
            | Some secret => String.eqb secret "YOUR_API_SECRET_HERE"
            | None => false
            end then
      answer 500
        "Token server not configured. Please set LIVEKIT_API_SECRET in token-server.js"
    else
      match Token.createToken env (default "" (q_identity req))
              (default "" (q_room req)) with
      | Ok token => Token.mkResponse 200 (Some (JObj [("token", JStr token)]))
      | Throw _ => answer 500 "Failed to generate token"
      end
  else answer 404 "Not found".

End TokenServer.

(* ===================================================================== *)
(** ** The standalone token and recording server *)
(* ===================================================================== *)

Module Server.

Import JSON Recording.

(** What [parseBody] and the destructuring of its result give a route: the
    properties of the JSON body (an empty body is the empty object), or
    the error thrown on the way. *)
Inductive Body : Type :=
  | Parsed (room identity egressId : option string)
  | Malformed (message : string).

Record Request : Type := mkRequest {
  method : string;
  pathname : string;
  q_identity : option string;
  q_room : option string;
  body : Body
}.

Definition is_route (req : Request) (path verb : string) : bool :=
  String.eqb (pathname req) path && String.eqb (method req) verb.

(** The token route. *)
Definition token_route (env : Token.Env) (req : Request) (w : World)
  : HttpResponse * World :=
  if negb (Str.truthy (q_identity req)) || negb (Str.truthy (q_room req)) then
    (error_response 400 "Missing identity or room parameter", w)
  else
    let identity := default "" (q_identity req) in
    let room := default "" (q_room req) in
    match Token.createToken env identity room with
    | Ok token =>
        (mkHttp 200 (Some (JObj [("token", JStr token)])),
         mkWorld (activeRecordings w) (egressCalls w)
                 (console w ++ ["Token generated for user: " +:+ identity
                                +:+ ", room: " +:+ room]))
    | Throw e =>
        (error_response 500 "Failed to generate token",
         mkWorld (activeRecordings w) (egressCalls w)
                 (console w ++ ["Error generating token: " +:+ e]))
    end.

(** The body of the [try] of the start route. *)
Definition start_route (out : Outside) (b : Body) : M Response :=
  match b with
  | Malformed e => throw e
  | Parsed room identity _ =>
      if negb (Str.truthy room) then
        mret (mkResponse 400 (JObj [("error", JStr "Missing room parameter")]))
      else
        let room := default "" room in
        has ← Map_has room;
        if has : bool then
          existing ← Map_get room;
          match existing with
          | Some existing =>
              mret (mkResponse 409
                      (JObj [("error", JStr "Recording already in progress");
                             ("startedBy", JStr (startedBy existing));
                             ("egressId", JStr (egressId existing))]))
          | None => throw "TypeError: Cannot read properties of undefined"
          end
        else
          let timestamp := file_timestamp (date_before out) in
          let filepath :=
            "recordings/" +:+ room +:+ "/" +:+ timestamp +:+ ".ogg" in
          egressInfo_egressId ←
            await (StartRoomCompositeEgress room filepath) (reply out);
          Map_set room (mkInfo egressInfo_egressId
                               (Str.or_else identity "unknown")
                               (ISODate.toISOString (date_after out))
                               filepath);;
          console_log ("Recording started for room: " +:+ room
                       +:+ ", egressId: " +:+ egressInfo_egressId);;
          mret (mkResponse 200
                  (JObj [("success", JBool true);
                         ("egressId", JStr egressInfo_egressId);
                         ("filepath", JStr filepath);
                         ("message", JStr "Recording started")]))
  end.

(** The body of the [try] of the stop route. *)
Definition stop_route (out : Outside) (b : Body) : M Response :=
  match b with
  | Malformed e => throw e
  | Parsed room _ egressId_ =>
      if negb (Str.truthy room) && negb (Str.truthy egressId_) then
        mret (mkResponse 400
                (JObj [("error", JStr "Missing room or egressId parameter")]))
      else
        has ← (if Str.truthy room then Map_has (default "" room)
               else mret false);
        '(targetEgressId, recordingInfo) ←
          (if has : bool then
             recordingInfo ← Map_get (default "" room);
             match recordingInfo with
             | Some info => mret (Some (egressId info), Some info)
             | None => throw "TypeError: Cannot read properties of undefined"
             end
           else mret (egressId_, None));
        if negb (Str.truthy targetEgressId) then
          mret (mkResponse 404
                  (JObj [("error",
                          JStr "No active recording found for this room")]))
        else
          let target := default "" targetEgressId in
          await (StopEgress target) (reply out);;
          (if Str.truthy room then Map_delete (default "" room) else mret ());;
          console_log ("Recording stopped for egressId: " +:+ target);;
          mret (mkResponse 200
                  (JObj [("success", JBool true);
                         ("egressId", JStr target);
                         ("filepath",
                          match recordingInfo with
                          | Some info => JStr (filepath info)
                          | None => JUndefined
                          end);
                         ("message", JStr "Recording stopped")]))
  end.

(** The status route; it has no [try] and changes nothing. *)
Definition status_route (req : Request) (w : World) : HttpResponse * World :=
  if negb (Str.truthy (q_room req)) then
    (error_response 400 "Missing room parameter", w)
  else
    let recordingInfo := activeRecordings w !! default "" (q_room req) in
    (mkHttp 200
       (Some (JObj (("isRecording", JBool (present recordingInfo))
                    :: match recordingInfo with
                       | Some info =>
                           [("egressId", JStr (egressId info));
                            ("startedBy", JStr (startedBy info));
                            ("startedAt", JStr (startedAt info))]
                       | None => []
                       end))),
     w).

(** A route's [try] and [catch]: what is thrown becomes a 500 that names
    the route's failure and carries the error's message. *)
Definition guarded (failure log : string) (m : M Response) (w : World)
  : HttpResponse * World :=
  match m w with
  | (Ok r, w') => (mkHttp (status r) (Some (Recording.body r)), w')
  | (Throw message, w') =>
      (mkHttp 500 (Some (JObj [("error", JStr failure);
                               ("details", JStr message)])),
       mkWorld (activeRecordings w') (egressCalls w')
               (console w' ++ [log +:+ message]))
  end.

Definition server (env : Token.Env) (out : Outside) (req : Request) (w : World)
  : HttpResponse * World :=
  if String.eqb (method req) "OPTIONS" then (mkHttp 200 None, w)
  else if is_route req "/token" "GET" then token_route env req w
  else if is_route req "/start-recording" "POST" then
    guarded "Failed to start recording" "Error starting recording: "
      (start_route out (body req)) w
  else if is_route req "/stop-recording" "POST" then
    guarded "Failed to stop recording" "Error stopping recording: "
      (stop_route out (body req)) w
  else if is_route req "/recording-status" "GET" then status_route req w
  else (error_response 404 "Not found", w).

End Server.

(* ===================================================================== *)
(** ** Sequences of requests to the recording endpoint *)
(* ===================================================================== *)

Module RecordingRuns.

Import Recording.

(** The world after a sequence of requests, each with what it reads from
    outside. *)
Fixpoint run (cfg : Config) (requests : list (Outside * Request)) (w : World)
  : World :=
  match requests with
  | [] => w
  | (out, req) :: rest => run cfg rest (handler cfg out req w).2
  end.

(** What holds of every record the endpoint keeps: its room is not empty,
    it names who started it, its path is the output path of its room at
    some clock reading, and the egress service was asked to record that
    room to that path. *)
Definition well_formed (w : World) : Prop :=
  ∀ room info,
    activeRecordings w !! room = Some info →
    room ≠ ""
    ∧ startedBy info ≠ ""
    ∧ (∃ ms, filepath info = output_path room ms)
    ∧ In (StartRoomCompositeEgress room (filepath info)) (egressCalls w).

End RecordingRuns.

(* ===================================================================== *)
(** ** Ways to describe what the recording endpoint does *)
(* ===================================================================== *)

Module RecordingViews.

Import JSON JSONPrune Recording Str.

(** The three ways a request leaves the world: as it was but for the logs,
    with a record added for its room, or with the record of its room
    removed. *)
Inductive effect (out : Outside) (req : Request) (w w' : World) : Prop :=
  | effect_none :
      activeRecordings w' = activeRecordings w →
      (egressCalls w' = egressCalls w
       ∨ ∃ c, egressCalls w' = (egressCalls w ++ [c])%list) →
      effect out req w w'
  | effect_insert (room id : string) :
      p_room req = Some room → room ≠ "" →
      activeRecordings w !! room = None →
      reply out = Resolved id →
      activeRecordings w'
      = <[room := mkInfo id (or_else (p_identity req) "unknown")
                   (ISODate.toISOString (date_after out))
                   (output_path room (date_before out))]> (activeRecordings w) →
      egressCalls w'
      = (egressCalls w
         ++ [StartRoomCompositeEgress room (output_path room (date_before out))])%list →
      effect out req w w'
  | effect_delete (room id accepted : string) :
      p_room req = Some room → room ≠ "" →
      reply out = Resolved accepted →
      activeRecordings w' = delete room (activeRecordings w) →
      egressCalls w' = (egressCalls w ++ [StopEgress id])%list →
      effect out req w w'.

(** Two worlds with the same map. *)
Definition same_map (w1 w2 : World) : Prop :=
  activeRecordings w1 = activeRecordings w2.

(** The answer to a [stop] that found no record, as a client reads it. *)
Definition stopped_wire (id : string) : jsval :=
  JObj [("success", JBool true);
        ("egressId", JStr id);
        ("message", JStr "Recording stopped")].

(** The bodies the endpoint sends: objects of strings and booleans, with
    one property that may be undefined. *)
Inductive sendable : jsval → Prop :=
  | sendable_plain (props : list (string * jsval)) :
      prune (JObj props) = JObj props → sendable (JObj props)
  | sendable_stopped (id : string) : sendable (stopped_body id JUndefined).

End RecordingViews.

(* ===================================================================== *)
(** ** The standalone servers beside the serverless endpoints *)
(* ===================================================================== *)

Module ServerViews.

Import Recording.

(** The request to the serverless recording endpoint that asks what a
    request to a recording route of the standalone server asks. *)
Definition as_action (req : Server.Request) : option Request :=
  if Server.is_route req "/start-recording" "POST" then
    match Server.body req with
    | Server.Parsed room identity _ =>
        Some (mkRequest "POST" (Some "start") room None identity)
    | Server.Malformed _ => None
    end
  else if Server.is_route req "/stop-recording" "POST" then
    match Server.body req with
    | Server.Parsed room _ egressId_ =>
        Some (mkRequest "POST" (Some "stop") room egressId_ None)
    | Server.Malformed _ => None
    end
  else if Server.is_route req "/recording-status" "GET" then
    Some (mkRequest "GET" (Some "status") (Server.q_room req) None None)
  else None.

(** A request to the token route, as each of the three token endpoints
    reads it. *)
Definition token_request (identity room : option string) : Server.Request :=
  Server.mkRequest "GET" "/token" identity room (Server.Parsed None None None).

Definition token_server_request (identity room : option string)
  : TokenServer.Request :=
  TokenServer.mkRequest "GET" "/token" identity room.

Definition token_handler_request (identity room : option string)
  : Token.Request :=
  Token.mkRequest "GET" identity room.

Definition placeholder : string := "YOUR_API_SECRET_HERE".

(** A request that can reach the egress service or the map: a POST to
    one of the two recording routes with a body that parsed and names
    what the route needs. *)
Definition may_record (req : Server.Request) : Prop :=
  Server.method req = "POST"
  ∧ ∃ room identity egressId_,
      Server.body req = Server.Parsed room identity egressId_
      ∧ ((Server.pathname req = "/start-recording" ∧ Str.truthy room = true)
         ∨ (Server.pathname req = "/stop-recording"
            ∧ Str.truthy room || Str.truthy egressId_ = true)).

(** How two answers to the same operation compare. *)
Definition agree (a b : HttpResponse * World) : Prop :=
  http_status a.1 = http_status b.1
  ∧ activeRecordings a.2 = activeRecordings b.2
  ∧ egressCalls a.2 = egressCalls b.2
  ∧ (http_status a.1 ≠ 500 → a = b)
  ∧ (http_status a.1 = 500 →
     ∃ text e,
       http_body a.1 = Some (JSON.JObj [("error", JSON.JStr text); ("details", JSON.JStr e)])
       ∧ http_body b.1 = Some (failure_body e)).

End ServerViews.

(* ===================================================================== *)
(** ** Days of the calendar, for the timestamp of the file name *)
(* ===================================================================== *)

Module DayKey.

Import ISODate.

Local Open Scope Z_scope.

(** A date as one number that grows with the date. *)
Definition key_of (c : Z * Z * Z) : Z :=
  let '(y, m, d) := c in (y * 16 + m) * 32 + d.

(** The date of a day of the 400-year era that starts on 0000-03-01. *)
Definition civil_of_doe (doe : Z) : Z * Z * Z := civil_from_days (doe - 719468).

(** [p] holds of the [n] numbers from [z] on. *)
Fixpoint from (n : nat) (z : Z) (p : Z → bool) : bool :=
  match n with
  | O => true
  | S k => if p z then from k (z + 1) p else false
  end.

Definition in_calendar (c : Z * Z * Z) : bool :=
  let '(y, m, d) := c in
  (0 <=? y) && (y <=? 400) && (1 <=? m) && (m <=? 12) && (1 <=? d) && (d <=? 31).

(** A day of the era has a date of the calendar, and the next day a later
    one. *)
Definition day_ok (doe : Z) : bool :=
  let c := civil_of_doe doe in
  in_calendar c && (key_of c <? key_of (civil_of_doe (doe + 1))).

(** The clock readings a [Date] can hold (ECMA-262, 21.4.1.1). *)
Definition valid_date (ms : Z) : Prop :=
  -8640000000000000 ≤ ms ≤ 8640000000000000.

End DayKey.

(* ===================================================================== *)
(** * Properties *)
(* ===================================================================== *)

(** ** Facts about strings *)

Module StrFacts.

Import Str.

(** Case analysis over the 256 characters. *)
Ltac each_ascii c :=
  destruct c as [[|] [|] [|] [|] [|] [|] [|] [|]].

Lemma app_nil_l (s : string) : "" +:+ s = s.
Proof. reflexivity. Qed.

Lemma app_cons (c : ascii) (s t : string) :
  String c s +:+ t = String c (s +:+ t).
Proof. reflexivity. Qed.

Lemma app_nil_r (s : string) : s +:+ "" = s.
Proof. induction s as [|c s IH]; [reflexivity|]. rewrite app_cons, IH. reflexivity. Qed.

Lemma app_assoc (s t u : string) : (s +:+ t) +:+ u = s +:+ (t +:+ u).
Proof.
  induction s as [|c s IH]; [reflexivity|].
  rewrite !app_cons, IH. reflexivity.
Qed.

Lemma length_app (s t : string) :
  String.length (s +:+ t) = String.length s + String.length t.
Proof.
  induction s as [|c s IH]; [reflexivity|].
  rewrite app_cons. simpl. rewrite IH. reflexivity.
Qed.

Lemma all_app (p : ascii → bool) (s t : string) :
  all p (s +:+ t) = all p s && all p t.
Proof.
  induction s as [|c s IH]; [reflexivity|].
  rewrite app_cons. simpl. rewrite IH. apply andb_assoc.
Qed.

Lemma count_app (p : ascii → bool) (s t : string) :
  count p (s +:+ t) = count p s + count p t.
Proof.
  induction s as [|c s IH]; [reflexivity|].
  rewrite app_cons. simpl. rewrite IH. lia.
Qed.

Lemma all_weaken (p q : ascii → bool) (s : string) :
  (∀ c, p c = true → q c = true) → all p s = true → all q s = true.
Proof.
  intros Hpq. induction s as [|c s IH]; simpl; [done|].
  intros [Hc Hs]%andb_true_iff. rewrite (Hpq _ Hc), (IH Hs). reflexivity.
Qed.

Lemma count_none (p q : ascii → bool) (s : string) :
  (∀ c, p c = true → q c = false) → all p s = true → count q s = 0.
Proof.
  intros Hpq. induction s as [|c s IH]; simpl; [done|].
  intros [Hc Hs]%andb_true_iff. rewrite (Hpq _ Hc), (IH Hs). reflexivity.
Qed.

Lemma all_get (p : ascii → bool) (s : string) (n : nat) (c : ascii) :
  all p s = true → String.get n s = Some c → p c = true.
Proof.
  revert n. induction s as [|d s IH]; intros n; simpl; [discriminate|].
  intros [Hd Hs]%andb_true_iff. destruct n as [|n].
  - intros [= <-]. exact Hd.
  - apply IH, Hs.
Qed.

(** Replacement distributes over concatenation. *)
Lemma replace_g_app (p : ascii → bool) (by_ s t : string) :
  replace_g p by_ (s +:+ t) = replace_g p by_ s +:+ replace_g p by_ t.
Proof.
  induction s as [|c s IH]; [reflexivity|].
  rewrite app_cons. simpl. rewrite IH. destruct (p c).
  - rewrite app_assoc. reflexivity.
  - rewrite app_cons. reflexivity.
Qed.

Lemma replace_g_cons (p : ascii → bool) (by_ : string) (c : ascii) (r : string) :
  replace_g p by_ (String c r)
  = if p c then by_ +:+ replace_g p by_ r else String c (replace_g p by_ r).
Proof. reflexivity. Qed.

(** After the replacement, every character is one that was kept or one of
    the replacement text. *)
Lemma all_replace_g (a q p : ascii → bool) (by_ s : string) :
  (∀ c, a c = true → p c = false → q c = true) →
  all q by_ = true →
  all a s = true → all q (replace_g p by_ s) = true.
Proof.
  intros Hkeep Hby. induction s as [|c s IH]; simpl; [done|].
  intros [Hc Hs]%andb_true_iff. destruct (p c) eqn:Hp.
  - rewrite all_app, Hby, (IH Hs). reflexivity.
  - simpl. rewrite (Hkeep _ Hc Hp), (IH Hs). reflexivity.
Qed.

(** A replacement by a single character keeps the length and acts
    position by position. *)
Lemma replace_g_char_length (p : ascii → bool) (r : ascii) (s : string) :
  String.length (replace_g p (String r "") s) = String.length s.
Proof.
  induction s as [|c s IH]; simpl; [done|].
  destruct (p c); rewrite ?app_cons, ?app_nil_l; simpl; rewrite IH; reflexivity.
Qed.

Lemma replace_g_char_get (p : ascii → bool) (r : ascii) (s : string) (n : nat) :
  String.get n (replace_g p (String r "") s)
  = (λ c, if p c then r else c) <$> String.get n s.
Proof.
  revert n. induction s as [|c s IH]; intros n; simpl; [done|].
  destruct (p c) eqn:Hp; rewrite ?app_cons, ?app_nil_l; simpl;
    destruct n as [|n]; simpl; rewrite ?Hp, ?IH; reflexivity.
Qed.

(** Splitting at a separator. *)
Lemma split_no_sep (sep : ascii) (s : string) :
  all (λ c, negb (Ascii.eqb c sep)) s = true → split sep s = [s].
Proof.
  induction s as [|c s IH]; simpl; [done|].
  intros [Hc Hs]%andb_true_iff. apply negb_true_iff in Hc.
  rewrite Hc, (IH Hs). reflexivity.
Qed.

Lemma split_app_sep (sep : ascii) (s t : string) :
  all (λ c, negb (Ascii.eqb c sep)) s = true →
  split sep (s +:+ String sep t) = s :: split sep t.
Proof.
  induction s as [|c s IH]; simpl.
  - intros _. rewrite ?app_nil_l. simpl. rewrite Ascii.eqb_refl. reflexivity.
  - intros [Hc Hs]%andb_true_iff. apply negb_true_iff in Hc.
    rewrite ?app_cons. simpl. rewrite Hc, (IH Hs). reflexivity.
Qed.

Lemma split_nonempty (sep : ascii) (s : string) : split sep s ≠ [].
Proof.
  destruct s as [|c s]; simpl; [discriminate|].
  destruct (Ascii.eqb c sep); [discriminate|].
  destruct (split sep s); discriminate.
Qed.

(** Splitting a text with a separator in the middle: the pieces of the
    part before it, then the pieces of the part after it. *)
Lemma split_app (sep : ascii) (s t : string) :
  split sep (s +:+ String sep t) = (split sep s ++ split sep t)%list.
Proof.
  induction s as [|c s IH].
  - rewrite app_nil_l. simpl. rewrite Ascii.eqb_refl. reflexivity.
  - rewrite app_cons. simpl. rewrite IH.
    destruct (Ascii.eqb c sep); [reflexivity|].
    pose proof (split_nonempty sep s) as Hne.
    destruct (split sep s) as [|piece rest]; [congruence|reflexivity].
Qed.

(** Induction over a string three characters at a time. *)
Lemma by_triples (P : string → Prop) :
  P "" →
  (∀ a, P (String a "")) →
  (∀ a b, P (String a (String b ""))) →
  (∀ a b c r, P r → P (String a (String b (String c r)))) →
  ∀ s, P s.
Proof.
  intros H0 H1 H2 H3 s.
  enough (P s ∧ (∀ a, P (String a s)) ∧ (∀ a b, P (String a (String b s))))
    as [? _] by assumption.
  induction s as [|c s (IHa & IHb & IHc)].
  - auto.
  - split; [apply IHb|]. split; [intros a; apply IHc|].
    intros a b. apply H3, IHa.
Qed.

Lemma truthy_Some (s : string) : truthy (Some s) = true ↔ s ≠ "".
Proof.
  unfold truthy. destruct (String.eqb_spec s ""); simpl; split; congruence.
Qed.

End StrFacts.

(** ** Facts about the base64 encodings *)

Module Base64Facts.

Import Str StrFacts Base64Notions.

(** Every property of the 6-bit values follows from checking the 64 of
    them. *)
Lemma below_64 (P : N → Prop) :
  (∀ n : nat, n < 64 → P (N.of_nat n)) → ∀ i : N, (i < 64)%N → P i.
Proof.
  intros H i Hi. rewrite <- (N2Nat.id i). apply H. lia.
Qed.

Ltac each_below_64 :=
  let n := fresh "n" in
  let Hn := fresh "Hn" in
  apply below_64; intros n Hn;
  do 64 (destruct n as [|n]; [vm_compute; reflexivity|]); lia.

Lemma char_of_std (i : N) : is_std_or_pad (Base64.char_of i) = true.
Proof.
  unfold Base64.char_of.
  destruct (String.get (N.to_nat i) Base64.alphabet) as [c|] eqn:Hget;
    [|reflexivity].
  eapply all_get; [|exact Hget]. vm_compute. reflexivity.
Qed.

Lemma toString_base64_chars (buf : string) :
  all is_std_or_pad (Base64.toString_base64 buf) = true.
Proof.
  induction buf as [| a | a b | a b c r IH] using by_triples;
    simpl; rewrite ?char_of_std, ?IH; reflexivity.
Qed.

Lemma base64UrlEncode_replace3 (str : string) :
  base64UrlEncode str = replace3 (Base64.toString_base64 str).
Proof. reflexivity. Qed.

(** The output alphabet: only characters of the URL-safe alphabet are
    left, whatever standard base64 text goes in. *)
Lemma replace3_chars (s : string) :
  all is_std_or_pad s = true → all Base64Url.is_url_char (replace3 s) = true.
Proof.
  intros Hs. unfold replace3.
  apply (all_replace_g (λ c, Base64Url.is_url_char c || Ascii.eqb c "=")).
  { intros c. unfold is_char. each_ascii c; vm_compute; congruence. }
  { reflexivity. }
  apply (all_replace_g
           (λ c, Base64Url.is_url_char c || Ascii.eqb c "=" || Ascii.eqb c "/")).
  { intros c. unfold is_char. each_ascii c; vm_compute; congruence. }
  { reflexivity. }
  apply (all_replace_g is_std_or_pad).
  { intros c. unfold is_char. each_ascii c; vm_compute; congruence. }
  { reflexivity. }
  exact Hs.
Qed.

Lemma base64UrlEncode_chars (str : string) :
  all Base64Url.is_url_char (base64UrlEncode str) = true.
Proof.
  rewrite base64UrlEncode_replace3.
  apply replace3_chars, toString_base64_chars.
Qed.

Lemma replace3_cons (c : ascii) (r : string) :
  replace3 (String c r) = url_map c +:+ replace3 r.
Proof.
  unfold replace3, url_map, is_char.
  rewrite (Ascii.eqb_sym c "+"), (Ascii.eqb_sym c "/"), (Ascii.eqb_sym c "=").
  rewrite (replace_g_cons (Ascii.eqb "+")).
  destruct (Ascii.eqb "+" c) eqn:E1.
  { rewrite app_cons, app_nil_l, !replace_g_cons. reflexivity. }
  rewrite (replace_g_cons (Ascii.eqb "/")).
  destruct (Ascii.eqb "/" c) eqn:E2.
  { rewrite app_cons, app_nil_l, !replace_g_cons. reflexivity. }
  rewrite (replace_g_cons (Ascii.eqb "=")).
  destruct (Ascii.eqb "=" c) eqn:E3; reflexivity.
Qed.

Lemma replace3_nil : replace3 "" = "".
Proof. reflexivity. Qed.

Lemma url_map_char_of (i : N) :
  (i < 64)%N → url_map (Base64.char_of i) = String (Base64Url.char_of i) "".
Proof. revert i. each_below_64. Qed.

Lemma value_of_char_of (i : N) :
  (i < 64)%N → Base64Url.value_of (Base64Url.char_of i) = Some i.
Proof. revert i. each_below_64. Qed.

Lemma code_bound (a : ascii) : (Base64.code a < 256)%N.
Proof. apply N_ascii_bounded. Qed.

Lemma byte_code (a : ascii) (n : N) :
  (n mod 256 = Base64.code a)%N → Base64Url.byte n = a.
Proof.
  intros H. unfold Base64Url.byte. rewrite H. apply ascii_N_embedding.
Qed.

Ltac euclid := zify; Z.to_euclidean_division_equations; lia.

(** The encoding, group by group. *)
Lemma encode_3 (a b c : ascii) (r : string) :
  let n := (Base64.code a * 65536 + Base64.code b * 256 + Base64.code c)%N in
  base64UrlEncode (String a (String b (String c r)))
  = String (Base64Url.char_of (n / 262144))
      (String (Base64Url.char_of ((n / 4096) mod 64))
         (String (Base64Url.char_of ((n / 64) mod 64))
            (String (Base64Url.char_of (n mod 64)) (base64UrlEncode r)))).
Proof.
  intros n. rewrite !base64UrlEncode_replace3.
  change (Base64.toString_base64 (String a (String b (String c r))))
    with (String (Base64.char_of (n / 262144))
            (String (Base64.char_of ((n / 4096) mod 64))
               (String (Base64.char_of ((n / 64) mod 64))
                  (String (Base64.char_of (n mod 64))
                     (Base64.toString_base64 r))))).
  pose proof (code_bound a). pose proof (code_bound b).
  pose proof (code_bound c).
  rewrite !replace3_cons, !url_map_char_of; [reflexivity|..];
    try (apply N.mod_lt; discriminate).
  apply N.Div0.div_lt_upper_bound. subst n. lia.
Qed.

Lemma encode_2 (a b : ascii) :
  let n := (Base64.code a * 65536 + Base64.code b * 256)%N in
  base64UrlEncode (String a (String b ""))
  = String (Base64Url.char_of (n / 262144))
      (String (Base64Url.char_of ((n / 4096) mod 64))
         (String (Base64Url.char_of ((n / 64) mod 64)) "")).
Proof.
  intros n. rewrite !base64UrlEncode_replace3.
  change (Base64.toString_base64 (String a (String b "")))
    with (String (Base64.char_of (n / 262144))
            (String (Base64.char_of ((n / 4096) mod 64))
               (String (Base64.char_of ((n / 64) mod 64)) "="))).
  pose proof (code_bound a). pose proof (code_bound b).
  rewrite !replace3_cons, !url_map_char_of; [reflexivity|..];
    try (apply N.mod_lt; discriminate).
  apply N.Div0.div_lt_upper_bound. subst n. lia.
Qed.

Lemma encode_1 (a : ascii) :
  let n := (Base64.code a * 65536)%N in
  base64UrlEncode (String a "")
  = String (Base64Url.char_of (n / 262144))
      (String (Base64Url.char_of ((n / 4096) mod 64)) "").
Proof.
  intros n. rewrite !base64UrlEncode_replace3.
  change (Base64.toString_base64 (String a ""))
    with (String (Base64.char_of (n / 262144))
            (String (Base64.char_of ((n / 4096) mod 64)) "==")).
  pose proof (code_bound a).
  rewrite !replace3_cons, !url_map_char_of; [reflexivity|..];
    try (apply N.mod_lt; discriminate).
  apply N.Div0.div_lt_upper_bound. subst n. lia.
Qed.

Lemma base64UrlEncode_nonempty (str : string) :
  str ≠ "" → base64UrlEncode str ≠ "".
Proof.
  destruct str as [|a [|b [|c r]]]; [congruence|..]; intros _.
  - rewrite encode_1. discriminate.
  - rewrite encode_2. discriminate.
  - rewrite encode_3. discriminate.
Qed.

(** Decoding undoes the encoding. *)
Theorem decode_encode (str : string) :
  Base64Url.decode (base64UrlEncode str) = Some str.
Proof.
  induction str as [| a | a b | a b c r IH] using by_triples.
  - reflexivity.
  - rewrite encode_1. pose proof (code_bound a) as Ha.
    set (n := (Base64.code a * 65536)%N).
    assert (Hq : (n / 262144 < 64)%N)
      by (apply N.Div0.div_lt_upper_bound; subst n; lia).
    cbn [Base64Url.decode].
    rewrite !value_of_char_of by (assumption || (apply N.mod_lt; discriminate)).
    f_equal. f_equal. apply byte_code. subst n. euclid.
  - rewrite encode_2. pose proof (code_bound a) as Ha.
    pose proof (code_bound b) as Hb.
    set (n := (Base64.code a * 65536 + Base64.code b * 256)%N).
    assert (Hq : (n / 262144 < 64)%N)
      by (apply N.Div0.div_lt_upper_bound; subst n; lia).
    cbn [Base64Url.decode].
    rewrite !value_of_char_of by (assumption || (apply N.mod_lt; discriminate)).
    f_equal. f_equal; [|f_equal]; apply byte_code; subst n; euclid.
  - rewrite encode_3. pose proof (code_bound a) as Ha.
    pose proof (code_bound b) as Hb. pose proof (code_bound c) as Hc.
    set (n := (Base64.code a * 65536 + Base64.code b * 256 + Base64.code c)%N).
    assert (Hq : (n / 262144 < 64)%N)
      by (apply N.Div0.div_lt_upper_bound; subst n; lia).
    cbn [Base64Url.decode].
    rewrite !value_of_char_of by (assumption || (apply N.mod_lt; discriminate)).
    rewrite IH.
    f_equal. f_equal; [|f_equal; [|f_equal]]; apply byte_code; subst n; euclid.
Qed.

Corollary base64UrlEncode_inj (s t : string) :
  base64UrlEncode s = base64UrlEncode t → s = t.
Proof.
  intros H. apply (f_equal Base64Url.decode) in H.
  rewrite !decode_encode in H. congruence.
Qed.

End Base64Facts.

(** ** Facts about JSON texts: decoding undoes [JSON.stringify] *)

Module JSONFacts.

Import JSON Str StrFacts.

(** An induction principle that reaches the values inside objects. *)
Lemma jsval_induction (P : jsval → Prop) :
  P JUndefined → P JNull → (∀ b, P (JBool b)) → (∀ n, P (JNum n)) →
  (∀ s, P (JStr s)) →
  (∀ props, Forall (λ kv, P kv.2) props → P (JObj props)) →
  ∀ v, P v.
Proof.
  intros Hundefined Hnull Hbool Hnum Hstr Hobj.
  fix IH 1.
  intros [| | b | n | s | props];
    [exact Hundefined | exact Hnull | apply Hbool | apply Hnum | apply Hstr |].
  apply Hobj. induction props as [|[k x] r IHr]; constructor.
  - apply IH.
  - exact IHr.
Qed.

(** *** Strings *)

Lemma parse_escape_char (c : ascii) (r : string) :
  parse_string_body (escape_char c +:+ r) = cons_char c (parse_string_body r).
Proof. each_ascii c; reflexivity. Qed.

Lemma parse_escape (s rest : string) :
  parse_string_body (escape s +:+ String dquote rest) = Some (s, rest).
Proof.
  induction s as [|c s IH].
  - reflexivity.
  - cbn [escape]. rewrite app_assoc, parse_escape_char, IH. reflexivity.
Qed.

Lemma quote_cons (s : string) : quote s = String dquote (escape s +:+ String dquote "").
Proof. reflexivity. Qed.

Lemma quote_app (s rest : string) :
  quote s +:+ rest = String dquote (escape s +:+ String dquote rest).
Proof.
  unfold quote. rewrite app_cons, app_assoc, app_cons, app_nil_l. reflexivity.
Qed.

(** *** Numbers *)

Lemma span_number_app (d rest : string) :
  all is_number_char d = true → no_number_head rest = true →
  span_number (d +:+ rest) = (d, rest).
Proof.
  intros Hd Hrest. induction d as [|c d IH].
  - rewrite app_nil_l. destruct rest as [|c r]; [reflexivity|].
    simpl in *. apply negb_true_iff in Hrest. rewrite Hrest. reflexivity.
  - simpl in Hd. apply andb_true_iff in Hd as [Hc Hd].
    rewrite app_cons. cbn [span_number]. rewrite Hc, (IH Hd). reflexivity.
Qed.

Lemma string_of_uint_chars (d : Decimal.uint) :
  all is_number_char (NilEmpty.string_of_uint d) = true.
Proof. induction d; simpl; auto. Qed.

Lemma number_to_string_chars (n : Z) :
  all is_number_char (number_to_string n) = true.
Proof.
  unfold number_to_string. destruct n as [|p|p]; simpl.
  - reflexivity.
  - destruct (Pos.to_uint p); apply string_of_uint_chars || reflexivity.
  - destruct (Pos.to_uint p); apply string_of_uint_chars || reflexivity.
Qed.

Lemma number_to_string_cons (n : Z) :
  ∃ c r, number_to_string n = String c r ∧ is_number_char c = true.
Proof.
  pose proof (number_to_string_chars n) as Hall.
  unfold number_to_string in *. destruct n as [|p|p]; simpl in *.
  - eauto.
  - pose proof (DecimalPos.Unsigned.to_uint_nonnil p) as Hnil.
    destruct (Pos.to_uint p); try congruence; simpl in *; eauto.
  - eauto.
Qed.

Lemma parse_number_to_string (n : Z) (rest : string) :
  no_number_head rest = true →
  parse_number (number_to_string n +:+ rest) = Some (n, rest).
Proof.
  intros Hrest. unfold parse_number.
  rewrite span_number_app by (apply number_to_string_chars || assumption).
  unfold number_to_string. rewrite NilZero.isi.
  - rewrite DecimalZ.of_to. reflexivity.
  - destruct n as [|p|p]; simpl; try discriminate.
    intros [= H]. exact (DecimalPos.Unsigned.to_uint_nonnil p H).
  - destruct n as [|p|p]; simpl; try discriminate.
    intros [= H]. exact (DecimalPos.Unsigned.to_uint_nonnil p H).
Qed.

Lemma parse_value_number_char (fuel : nat) (c : ascii) (r : string) :
  is_number_char c = true →
  parse_value (S fuel) (String c r)
  = match parse_number (String c r) with
    | Some (n, rest) => Some (JNum n, rest)
    | None => None
    end.
Proof.
  intros Hc. each_ascii c; try discriminate Hc; reflexivity.
Qed.

(** *** Objects *)

Lemma stringify_defined (v : jsval) :
  defined v = true → ∃ text, stringify v = Some text.
Proof. destruct v as [| |[|]| | |]; simpl; try discriminate; eauto. Qed.

Lemma members_cons (k : string) (x : jsval) (t : string)
    (r : list (string * jsval)) :
  stringify x = Some t →
  members stringify ((k, x) :: r) = (quote k +:+ ":" +:+ t) :: members stringify r.
Proof. intros H. cbn [members]. rewrite H. reflexivity. Qed.

Lemma members_nonempty (ps : list (string * jsval)) :
  forallb (λ kv, defined kv.2) ps = true → ps ≠ [] →
  ∃ m ms, members stringify ps = m :: ms.
Proof.
  destruct ps as [|[k x] r]; [congruence|]. intros Hdef _.
  simpl in Hdef. apply andb_true_iff in Hdef as [Hx _].
  destruct (stringify_defined x Hx) as [t Ht].
  rewrite (members_cons k x t r Ht). eauto.
Qed.

Lemma concat_cons2 (sep x y : string) (l : list string) :
  String.concat sep (x :: y :: l) = x +:+ sep +:+ String.concat sep (y :: l).
Proof. reflexivity. Qed.

Lemma parse_members_step (fuel : nat) (k r1 : string) :
  parse_members (S fuel) (quote k +:+ String ":" r1)
  = match parse_value fuel r1 with
    | Some (x, String c2 r2) =>
        if Ascii.eqb c2 "," then
          match parse_members fuel r2 with
          | Some (ps, rest) => Some ((k, x) :: ps, rest)
          | None => None
          end
        else if Ascii.eqb c2 "}" then Some ([(k, x)], r2)
        else None
    | _ => None
    end.
Proof.
  rewrite quote_app. cbn [parse_members].
  change (Ascii.eqb dquote dquote) with true. cbv iota.
  rewrite parse_escape. reflexivity.
Qed.

Lemma concat_members_head (ps : list (string * jsval)) :
  forallb (λ kv, defined kv.2) ps = true → ps ≠ [] →
  ∃ u, String.concat "," (members stringify ps) = String dquote u.
Proof.
  destruct ps as [|[k x] r]; [congruence|]. intros Hdef _.
  cbn [forallb snd] in Hdef. apply andb_true_iff in Hdef as [Hx _].
  destruct (stringify_defined x Hx) as [t Ht].
  rewrite (members_cons k x t r Ht).
  destruct (members stringify r) as [|m ms].
  - cbn [String.concat]. rewrite quote_app. eauto.
  - rewrite concat_cons2, app_assoc, quote_app. eauto.
Qed.

Lemma parse_value_object (fuel : nat) (u : string) :
  parse_value (S fuel) (String "{" (String dquote u))
  = match parse_members fuel (String dquote u) with
    | Some (ps, rest) => Some (JObj ps, rest)
    | None => None
    end.
Proof. reflexivity. Qed.

Lemma parse_members_stringify (ps : list (string * jsval)) :
  Forall (λ kv, round_trip kv.2) ps →
  forallb (λ kv, defined kv.2) ps = true → ps ≠ [] →
  ∀ fuel rest, (need_props ps ≤ fuel)%nat →
  parse_members fuel
    (String.concat "," (members stringify ps) +:+ String "}" rest)
  = Some (ps, rest).
Proof.
  induction 1 as [|[k x] r Hx Hr IH]; [congruence|].
  intros Hdef _ fuel rest Hfuel. cbn [snd] in Hx.
  cbn [forallb snd] in Hdef. apply andb_true_iff in Hdef as [Hdx Hdr].
  destruct (stringify_defined x Hdx) as [t Ht].
  rewrite (members_cons k x t r Ht).
  destruct fuel as [|fuel]; [simpl in Hfuel; lia|].
  cbn [need_props] in Hfuel. fold need_props in Hfuel.
  destruct r as [|kv r'].
  - cbn [members String.concat].
    rewrite !app_assoc. change (":" +:+ ?u) with (String ":" u).
    rewrite parse_members_step.
    rewrite (Hx t Ht Hdx fuel (String "}" rest)) by (reflexivity || lia).
    reflexivity.
  - destruct (members_nonempty (kv :: r') Hdr) as (m & ms & Hm); [congruence|].
    rewrite Hm, concat_cons2, <- Hm.
    rewrite !app_assoc. change (":" +:+ ?u) with (String ":" u).
    rewrite parse_members_step.
    change ("," +:+ ?u) with (String "," u).
    rewrite (Hx t Ht Hdx fuel) by (reflexivity || lia).
    change (Ascii.eqb "," ",") with true. cbv iota.
    rewrite IH by (assumption || congruence || lia). reflexivity.
Qed.

Theorem parse_value_stringify (v : jsval) : round_trip v.
Proof.
  induction v as [| | b | n | s | props IH] using jsval_induction;
    intros text Htext Hdef fuel rest Hfuel Hrest;
    (destruct fuel as [|fuel]; [simpl in Hfuel; lia|]).
  - discriminate.
  - injection Htext as <-. reflexivity.
  - destruct b; injection Htext as <-; reflexivity.
  - injection Htext as <-.
    destruct (number_to_string_cons n) as (c & r & Heq & Hc).
    rewrite Heq, app_cons, (parse_value_number_char _ _ _ Hc).
    rewrite <- app_cons, <- Heq, parse_number_to_string by assumption.
    reflexivity.
  - injection Htext as <-. rewrite quote_app. cbn [parse_value].
    change (Ascii.eqb dquote dquote) with true. cbv iota.
    rewrite parse_escape. reflexivity.
  - injection Htext as <-. cbn [defined] in Hdef.
    change (need (JObj props)) with (S (need_props props)) in Hfuel.
    destruct props as [|kv props'].
    + reflexivity.
    + destruct (concat_members_head (kv :: props') Hdef) as [u Hu];
        [congruence|].
      pose proof (parse_members_stringify (kv :: props') IH Hdef) as Hps.
      specialize (Hps ltac:(congruence) fuel rest ltac:(lia)).
      rewrite !app_assoc. change ("}" +:+ rest) with (String "}" rest).
      change ("{" +:+ ?t) with (String "{" t).
      revert Hps. rewrite Hu, app_cons. intros Hps.
      rewrite parse_value_object, Hps. reflexivity.
Qed.

Ltac lens := repeat progress (rewrite ?length_app, ?app_nil_l; simpl).

(** The length of a text is fuel enough. *)
Lemma need_props_le (ps : list (string * jsval)) :
  Forall (λ kv, ∀ text, stringify kv.2 = Some text → defined kv.2 = true →
                (need kv.2 ≤ S (String.length text))%nat) ps →
  forallb (λ kv, defined kv.2) ps = true →
  (need_props ps ≤ String.length (String.concat "," (members stringify ps)))%nat.
Proof.
  induction 1 as [|[k x] r Hx Hr IH]; [simpl; lia|].
  intros Hdef. cbn [snd] in Hx.
  cbn [forallb snd] in Hdef. apply andb_true_iff in Hdef as [Hdx Hdr].
  destruct (stringify_defined x Hdx) as [t Ht].
  rewrite (members_cons k x t r Ht).
  specialize (Hx t Ht Hdx). specialize (IH Hdr).
  cbn [need_props]. fold need_props.
  destruct (members stringify r) as [|m ms].
  - cbn [String.concat] in *. rewrite quote_app. simpl in IH.
    lens. lia.
  - rewrite concat_cons2, quote_app.
    set (C := String.concat "," (m :: ms)) in *. clearbody C. lens. lia.
Qed.

Lemma need_le (v : jsval) (text : string) :
  stringify v = Some text → defined v = true →
  (need v ≤ S (String.length text))%nat.
Proof.
  revert text.
  induction v as [| | b | n | s | props IH] using jsval_induction;
    intros text Htext Hdef; try (simpl; lia).
  injection Htext as <-. cbn [defined] in Hdef.
  change (need (JObj props)) with (S (need_props props)).
  pose proof (need_props_le props IH Hdef).
  lens. lia.
Qed.

(** [JSON.parse(JSON.stringify(v))] is [v], for a value without
    [undefined] in it. *)
Theorem parse_stringify (v : jsval) (text : string) :
  stringify v = Some text → defined v = true → parse text = Some v.
Proof.
  intros Htext Hdef. unfold parse.
  pose proof (parse_value_stringify v text Htext Hdef
                (S (String.length text)) "" (need_le v text Htext Hdef) eq_refl) as H.
  rewrite app_nil_r in H. rewrite H. reflexivity.
Qed.

End JSONFacts.

(** ** Facts about SHA-256 and HMAC *)

Module SHA256Facts.

Import SHA256.

Example sha256_abc :
  sha256 (bytes_of_string "abc")
  = [186; 120; 22; 191; 143; 1; 207; 234; 65; 65; 64; 222; 93; 174; 34; 35;
     176; 3; 97; 163; 150; 23; 122; 156; 180; 16; 255; 97; 242; 0; 21; 173]%Z.
Proof. vm_compute. reflexivity. Qed.

(** Test case 2 of RFC 4231. *)
Example hmac_rfc4231_2 :
  hmac (bytes_of_string "Jefe") (bytes_of_string "what do ya want for nothing?")
  = [91; 220; 193; 70; 191; 96; 117; 78; 106; 4; 36; 38; 8; 149; 117; 199;
     90; 0; 63; 8; 157; 39; 57; 131; 157; 236; 88; 185; 100; 236; 56; 67]%Z.
Proof. vm_compute. reflexivity. Qed.

Example round_constants :
  nth 0 K 0%Z = 1116352408%Z ∧ nth 63 K 0%Z = 3329325298%Z
  ∧ nth 0 H0 0%Z = 1779033703%Z ∧ length K = 64 ∧ length H0 = 8.
Proof. repeat split. Qed.

Lemma sha256_length (msg : list Z) : length (sha256 msg) = 32.
Proof. reflexivity. Qed.

Lemma string_of_bytes_length (bs : list Z) :
  String.length (string_of_bytes bs) = length bs.
Proof.
  unfold string_of_bytes. induction bs as [|b bs IH]; simpl; [done|].
  rewrite IH. reflexivity.
Qed.

Lemma hmac_sha256_length (key data : string) :
  String.length (hmac_sha256 key data) = 32.
Proof.
  unfold hmac_sha256, hmac. rewrite string_of_bytes_length.
  apply sha256_length.
Qed.

Lemma hmac_sha256_nonempty (key data : string) : hmac_sha256 key data ≠ "".
Proof.
  intros H. pose proof (hmac_sha256_length key data) as Hlen.
  rewrite H in Hlen. discriminate Hlen.
Qed.

(** The key enters HMAC only through its 64-byte block. *)
Lemma hmac_key_block (k1 k2 msg : list Z) :
  key_block k1 = key_block k2 → hmac k1 msg = hmac k2 msg.
Proof. intros H. unfold hmac. rewrite H. reflexivity. Qed.

Lemma bytes_of_string_app (s t : string) :
  bytes_of_string (s +:+ t) = (bytes_of_string s ++ bytes_of_string t)%list.
Proof.
  unfold bytes_of_string. induction s as [|c s IH]; [reflexivity|].
  rewrite StrFacts.app_cons. simpl. rewrite IH. reflexivity.
Qed.

Lemma bytes_of_string_length (s : string) :
  length (bytes_of_string s) = String.length s.
Proof.
  unfold bytes_of_string. induction s as [|c s IH]; simpl; [done|].
  rewrite IH. reflexivity.
Qed.

(** A key shorter than the block and the same key followed by a zero byte
    have the same block, hence the same HMAC on every message. *)
Lemma key_block_zero (key : list Z) :
  length key < 64 → key_block (key ++ [0%Z])%list = key_block key.
Proof.
  intros Hlen. unfold key_block.
  rewrite length_app. simpl length.
  destruct (Z.ltb_spec 64 (Z.of_nat (length key + 1))) as [?|_]; [lia|].
  destruct (Z.ltb_spec 64 (Z.of_nat (length key))) as [?|_]; [lia|].
  rewrite <- app_assoc. f_equal. rewrite ?length_app. simpl length.
  replace (64 - length key) with (S (64 - (length key + 1))) by lia.
  reflexivity.
Qed.

Theorem hmac_sha256_trailing_zero (key data : string) :
  String.length key < 64 →
  hmac_sha256 (key +:+ NUL) data = hmac_sha256 key data.
Proof.
  intros Hlen. unfold hmac_sha256. f_equal.
  apply hmac_key_block. rewrite bytes_of_string_app.
  apply key_block_zero. rewrite bytes_of_string_length. exact Hlen.
Qed.

End SHA256Facts.

(** ** The token endpoint *)

Module TokenFacts.

Import JSON Token Str StrFacts Base64Notions Base64Facts JSONFacts SHA256Facts.

Lemma sign_Some (secret data : string) :
  sign (Some secret) data = Ok (signature secret data).
Proof. reflexivity. Qed.

Lemma createToken_Some (key : option string) (secret identity roomName : string)
    (ms : Z) :
  let s1 := headerEncoded in
  let s2 := payloadEncoded key identity roomName (ms / 1000) in
  createToken (mkEnv key (Some secret) ms) identity roomName
  = Ok (s1 +:+ "." +:+ s2 +:+ "." +:+ signature secret (s1 +:+ "." +:+ s2)).
Proof. reflexivity. Qed.

Lemma url_char_not_dot (c : ascii) :
  Base64Url.is_url_char c = true → negb (Ascii.eqb c ".") = true.
Proof. each_ascii c; vm_compute; congruence. Qed.

Lemma url_char_not_is_dot (c : ascii) :
  Base64Url.is_url_char c = true → is_char "." c = false.
Proof. unfold is_char. each_ascii c; vm_compute; congruence. Qed.

(** Three dot-free pieces joined by dots split back into the pieces. *)
Lemma segments_join (s1 s2 s3 : string) :
  all Base64Url.is_url_char s1 = true →
  all Base64Url.is_url_char s2 = true →
  all Base64Url.is_url_char s3 = true →
  segments (s1 +:+ "." +:+ s2 +:+ "." +:+ s3) = [s1; s2; s3]
  ∧ count (is_char ".") (s1 +:+ "." +:+ s2 +:+ "." +:+ s3) = 2.
Proof.
  intros H1 H2 H3. split.
  - unfold segments.
    change (s1 +:+ "." +:+ s2 +:+ "." +:+ s3)
      with (s1 +:+ String "." (s2 +:+ String "." s3)).
    rewrite (split_app_sep "." s1), (split_app_sep "." s2),
      (split_no_sep "." s3); eauto using all_weaken, url_char_not_dot.
  - rewrite !count_app.
    rewrite (count_none _ _ s1 url_char_not_is_dot H1),
      (count_none _ _ s2 url_char_not_is_dot H2),
      (count_none _ _ s3 url_char_not_is_dot H3).
    reflexivity.
Qed.

Lemma signature_chars (secret data : string) :
  all Base64Url.is_url_char (signature secret data) = true.
Proof. apply base64UrlEncode_chars. Qed.

Lemma signature_nonempty (secret data : string) : signature secret data ≠ "".
Proof. apply base64UrlEncode_nonempty, hmac_sha256_nonempty. Qed.

Lemma text_of_obj (props : list (string * jsval)) :
  stringify (JObj props) = Some (text_of (JObj props)).
Proof. reflexivity. Qed.

Lemma text_of_obj_nonempty (props : list (string * jsval)) :
  text_of (JObj props) ≠ "".
Proof. discriminate. Qed.

Lemma decode_segment_encode (v : jsval) (text : string) :
  stringify v = Some text → defined v = true →
  decode_segment (base64UrlEncode text) = Some v.
Proof.
  intros Htext Hdef. unfold decode_segment.
  rewrite decode_encode. apply parse_stringify; assumption.
Qed.

(** The credential of a concrete request, as an independent
    implementation of JSON Web Tokens computes it. *)
Example createToken_alice :
  createToken (mkEnv (Some "APIkey") (Some "secret") 1700000000123)
    "alice" "room-A"
  = Ok ("eyJhbGciOiJIUzI1NiIsInR5cCI6IkpXVCJ9"
        +:+ ".eyJleHAiOjE3MDAwODY0MDAsImlzcyI6IkFQSWtleSIsIm5hbWUiOiJhbGljZSIs"
        +:+ "Im5iZiI6MTcwMDAwMDAwMCwic3ViIjoiYWxpY2UiLCJ2aWRlbyI6eyJyb29tIjoi"
        +:+ "cm9vbS1BIiwicm9vbUpvaW4iOnRydWUsImNhblB1Ymxpc2giOnRydWUsImNhblN1"
        +:+ "YnNjcmliZSI6dHJ1ZSwiY2FuUHVibGlzaERhdGEiOnRydWV9fQ"
        +:+ ".OqGCFQNVoRRFIgqVBf7nO44gtVCmByGCNjIvbPMpOuY").
Proof. vm_compute. reflexivity. Qed.

(** The handler refuses a request without identity or room, and a
    deployment without credentials, before any credential is made. *)
Lemma handler_validation (env : Env) (req : Request) :
  method req ≠ "OPTIONS" →
  (truthy (q_identity req) && truthy (q_room req) = false →
   status (handler env req) = 400)
  ∧ (truthy (q_identity req) && truthy (q_room req) = true →
     truthy (LIVEKIT_API_KEY env) && truthy (LIVEKIT_API_SECRET env) = false →
     status (handler env req) = 500).
Proof.
  intros Hm%String.eqb_neq. unfold handler. rewrite Hm.
  destruct (truthy (q_identity req)), (truthy (q_room req)); simpl;
    split; try discriminate; try reflexivity.
  destruct (truthy (LIVEKIT_API_KEY env)), (truthy (LIVEKIT_API_SECRET env));
    simpl; try discriminate; reflexivity.
Qed.

(** C1, as amended. The third dot-separated segment of the credential is
    the unpadded URL-safe base64 encoding of the HMAC-SHA256 digest, keyed
    by the signing secret, of the first segment, a dot and the second
    segment, so recomputing it with the signing secret reproduces it; and
    recomputing it with any secret reproduces it exactly when that secret
    gives the same digest of those two segments, which holds in particular
    for every secret with the same 64-byte HMAC key block, such as a
    signing secret shorter than 64 bytes followed by a zero byte. *)
Theorem signature_segment (identity roomName key secret : string) (ms : Z) :
  ∃ s1 s2 s3,
    createToken (mkEnv (Some key) (Some secret) ms) identity roomName
    = Ok (s1 +:+ "." +:+ s2 +:+ "." +:+ s3)
    ∧ segments (s1 +:+ "." +:+ s2 +:+ "." +:+ s3) = [s1; s2; s3]
    ∧ s3 = base64UrlEncode (SHA256.hmac_sha256 secret (s1 +:+ "." +:+ s2))
    ∧ recompute secret s1 s2 = Ok s3
    ∧ (∀ other,
         recompute other s1 s2 = Ok s3
         ↔ SHA256.hmac_sha256 other (s1 +:+ "." +:+ s2)
           = SHA256.hmac_sha256 secret (s1 +:+ "." +:+ s2))
    ∧ (∀ other,
         SHA256.key_block (SHA256.bytes_of_string other)
         = SHA256.key_block (SHA256.bytes_of_string secret) →
         recompute other s1 s2 = Ok s3)
    ∧ (String.length secret < 64 →
       recompute (secret +:+ SHA256.NUL) s1 s2 = Ok s3).
Proof.
  set (s1 := headerEncoded).
  set (s2 := payloadEncoded (Some key) identity roomName (ms / 1000)).
  exists s1, s2, (signature secret (s1 +:+ "." +:+ s2)).
  split; [apply createToken_Some|].
  split; [apply segments_join;
          apply base64UrlEncode_chars || apply signature_chars|].
  split; [reflexivity|]. split; [apply sign_Some|]. split.
  { intros other. unfold recompute. rewrite sign_Some. split.
    + intros [= H]. apply base64UrlEncode_inj, H.
    + intros H. unfold signature. rewrite H. reflexivity. }
  split.
  - intros other Hblock. unfold recompute. rewrite sign_Some.
    unfold signature, SHA256.hmac_sha256.
    rewrite (SHA256Facts.hmac_key_block _ _ _ Hblock). reflexivity.
  - intros Hlen. unfold recompute. rewrite sign_Some. unfold signature.
    rewrite hmac_sha256_trailing_zero by exact Hlen. reflexivity.
Qed.

(** C1 as stated fails: the credential issued for identity alice and room
    room-A under the one-character secret k has the third segment below,
    and a different secret, k followed by a zero byte, reproduces it. *)
Lemma other_secret_reproduces_signature :
  ∃ s1 s2,
    createToken (mkEnv (Some "APIkey") (Some "k") 1700000000123) "alice" "room-A"
    = Ok (s1 +:+ "." +:+ s2 +:+ "." +:+ "9a6aTM0XkW6lj1xIvS1IDINcLAzQfAya87YN0gQduiE")
    ∧ segments (s1 +:+ "." +:+ s2 +:+ "."
                +:+ "9a6aTM0XkW6lj1xIvS1IDINcLAzQfAya87YN0gQduiE")
      = [s1; s2; "9a6aTM0XkW6lj1xIvS1IDINcLAzQfAya87YN0gQduiE"]
    ∧ "k" +:+ SHA256.NUL ≠ "k"
    ∧ recompute ("k" +:+ SHA256.NUL) s1 s2
      = Ok "9a6aTM0XkW6lj1xIvS1IDINcLAzQfAya87YN0gQduiE".
Proof.
  exists headerEncoded,
    (payloadEncoded (Some "APIkey") "alice" "room-A" (1700000000123 / 1000)).
  split; [vm_compute; reflexivity|].
  split; [vm_compute; reflexivity|].
  split; [discriminate|].
  vm_compute. reflexivity.
Qed.

(** C2. Whatever the identity, the room, the issuer key, the signing
    secret and the clock, with [now] the clock in whole seconds: the first
    segment of the issued credential decodes to a header whose algorithm is
    HS256 (HMAC-SHA256), and the second decodes to a claim set whose expiry
    minus not-before is exactly 86400, whose not-before is [now], and whose
    room grant names exactly the input room with roomJoin, canPublish,
    canSubscribe and canPublishData all true. *)
Theorem decoded_segments (identity roomName key secret : string) (ms : Z) :
  ∃ s1 s2 s3 hdr claims exp nbf,
    createToken (mkEnv (Some key) (Some secret) ms) identity roomName
    = Ok (s1 +:+ "." +:+ s2 +:+ "." +:+ s3)
    ∧ segments (s1 +:+ "." +:+ s2 +:+ "." +:+ s3) = [s1; s2; s3]
    ∧ decode_segment s1 = Some hdr
    ∧ get "alg" hdr = JStr "HS256"
    ∧ decode_segment s2 = Some claims
    ∧ get "exp" claims = JNum exp
    ∧ get "nbf" claims = JNum nbf
    ∧ (exp - nbf = 86400)%Z
    ∧ nbf = (ms / 1000)%Z
    ∧ get "video" claims
      = JObj [("room", JStr roomName);
              ("roomJoin", JBool true);
              ("canPublish", JBool true);
              ("canSubscribe", JBool true);
              ("canPublishData", JBool true)].
Proof.
  set (now := (ms / 1000)%Z).
  set (s1 := headerEncoded).
  set (s2 := payloadEncoded (Some key) identity roomName now).
  exists s1, s2, (signature secret (s1 +:+ "." +:+ s2)).
  exists header, (payload (Some key) identity roomName now).
  exists (now + 24 * 60 * 60)%Z, now.
  split; [apply createToken_Some|].
  split; [apply segments_join;
          apply base64UrlEncode_chars || apply signature_chars|].
  split; [apply decode_segment_encode; reflexivity|].
  split; [reflexivity|].
  split; [apply decode_segment_encode; reflexivity|].
  repeat split; try reflexivity. lia.
Qed.

(** C3. For every identity and room (in particular for the valid,
    non-empty ones) the issued credential contains exactly two dots and
    splits at them into three segments, each non-empty and made only of
    characters of the unpadded URL-safe base64 alphabet: A-Z, a-z, 0-9,
    minus and underscore, with no padding character. *)
Theorem three_url_safe_segments (identity roomName key secret : string) (ms : Z) :
  ∃ token s1 s2 s3,
    createToken (mkEnv (Some key) (Some secret) ms) identity roomName = Ok token
    ∧ count (is_char ".") token = 2
    ∧ segments token = [s1; s2; s3]
    ∧ s1 ≠ "" ∧ s2 ≠ "" ∧ s3 ≠ ""
    ∧ all Base64Url.is_url_char s1 = true
    ∧ all Base64Url.is_url_char s2 = true
    ∧ all Base64Url.is_url_char s3 = true.
Proof.
  set (s1 := headerEncoded).
  set (s2 := payloadEncoded (Some key) identity roomName (ms / 1000)).
  set (s3 := signature secret (s1 +:+ "." +:+ s2)).
  assert (H1 : all Base64Url.is_url_char s1 = true)
    by apply base64UrlEncode_chars.
  assert (H2 : all Base64Url.is_url_char s2 = true)
    by apply base64UrlEncode_chars.
  assert (H3 : all Base64Url.is_url_char s3 = true)
    by apply signature_chars.
  destruct (segments_join s1 s2 s3 H1 H2 H3) as [Hsplit Hcount].
  exists (s1 +:+ "." +:+ s2 +:+ "." +:+ s3), s1, s2, s3.
  split; [apply createToken_Some|].
  repeat split; try assumption.
  - apply base64UrlEncode_nonempty, text_of_obj_nonempty.
  - apply base64UrlEncode_nonempty, text_of_obj_nonempty.
  - apply signature_nonempty.
Qed.

End TokenFacts.

(** ** What [createToken] asks of its surroundings *)

Module TokenProgramFacts.

Import JSON Token TokenProgram TokenFacts.

Lemma runs_lift {A : Type} (r : result A) : runs (lift r) [] r.
Proof. destruct r; constructor. Qed.

Lemma runs_lift_inv {A : Type} (r res : result A) (t : list Event) :
  runs (lift r) t res → t = [] ∧ res = r.
Proof. destruct r; intros H; inversion H; subst; auto. Qed.

(** Once the three reads are made, the rest of [createToken] is the
    computation of the credential from what was read. *)
Lemma createToken_rest (key secret : option string) (ms : Z)
    (identity roomName : string) :
  (headerEncoded ← lift (encode_json header);
   payloadEncoded ←
     lift (encode_json (payload key identity roomName (ms / 1000)));
   signature ← lift (sign secret (headerEncoded +:+ "." +:+ payloadEncoded));
   mret (headerEncoded +:+ "." +:+ payloadEncoded +:+ "." +:+ signature))
  = lift (createToken (mkEnv key secret ms) identity roomName).
Proof.
  unfold createToken. cbn [LIVEKIT_API_KEY LIVEKIT_API_SECRET Token.Date_now].
  destruct (encode_json header) as [h|e]; [|reflexivity].
  cbn [lift mbind Prog_bind result_bind bind].
  destruct (encode_json (payload key identity roomName (ms / 1000))) as [p|e];
    [|reflexivity].
  cbn [lift mbind Prog_bind result_bind bind].
  destruct (sign secret (h +:+ "." +:+ p)) as [s|e]; reflexivity.
Qed.

Lemma createToken_runs (env : Env) (identity roomName : string) :
  runs (createToken_prog identity roomName) (reads_of env)
    (createToken env identity roomName).
Proof.
  destruct env as [key secret ms]. unfold createToken_prog, reads_of.
  cbn [LIVEKIT_API_KEY LIVEKIT_API_SECRET Token.Date_now].
  apply runs_env, runs_env, runs_now. cbv zeta.
  rewrite createToken_rest. apply runs_lift.
Qed.

Lemma createToken_runs_inv (identity roomName : string) (t : list Event)
    (r : result string) :
  runs (createToken_prog identity roomName) t r →
  ∃ env, t = reads_of env ∧ r = createToken env identity roomName.
Proof.
  unfold createToken_prog. intros H.
  inversion H as [| |? ? key t1 ? H1| |]; subst; clear H.
  inversion H1 as [| |? ? secret t2 ? H2| |]; subst; clear H1.
  inversion H2 as [| | |? ms t3 ? H3|]; subst; clear H2.
  cbv beta zeta in H3. cbn [mbind Prog_bind bind] in H3.
  change (runs (lift (encode_json header)
                ≫= λ headerEncoded,
                   lift (encode_json
                           (payload key identity roomName (ms / 1000)))
                   ≫= λ payloadEncoded,
                      lift (sign secret
                              (headerEncoded +:+ "." +:+ payloadEncoded))
                      ≫= λ signature,
                         mret (headerEncoded +:+ "." +:+ payloadEncoded
                               +:+ "." +:+ signature)) t3 r) in H3.
  rewrite createToken_rest in H3.
  apply runs_lift_inv in H3 as [-> ->].
  exists (mkEnv key secret ms). split; reflexivity.
Qed.

Lemma reads_of_inj (env1 env2 : Env) : reads_of env1 = reads_of env2 → env1 = env2.
Proof.
  destruct env1, env2. unfold reads_of.
  cbn [LIVEKIT_API_KEY LIVEKIT_API_SECRET Token.Date_now]. congruence.
Qed.

Lemma createToken_same_second (env1 env2 : Env) (identity roomName : string) :
  LIVEKIT_API_KEY env1 = LIVEKIT_API_KEY env2 →
  LIVEKIT_API_SECRET env1 = LIVEKIT_API_SECRET env2 →
  (Token.Date_now env1 / 1000 = Token.Date_now env2 / 1000)%Z →
  createToken env1 identity roomName = createToken env2 identity roomName.
Proof.
  intros Hkey Hsecret Hnow. unfold createToken.
  rewrite Hkey, Hsecret, Hnow. reflexivity.
Qed.

(** By contrast the handler does write: a request that is granted a
    credential leaves a line on the console, after reading the two
    variables twice, once for its own check and once in [createToken]. *)
Lemma handler_prog_grants (env : Env) (req : Request) :
  method req ≠ "OPTIONS" →
  Str.truthy (q_identity req) = true → Str.truthy (q_room req) = true →
  Str.truthy (LIVEKIT_API_KEY env) = true →
  Str.truthy (LIVEKIT_API_SECRET env) = true →
  runs (handler_prog req)
    ([Env_read "LIVEKIT_API_KEY" (LIVEKIT_API_KEY env);
      Env_read "LIVEKIT_API_SECRET" (LIVEKIT_API_SECRET env)]
     ++ reads_of env
     ++ [Console_line ("Token generated for user: "
                       +:+ default "" (q_identity req)
                       +:+ ", room: " +:+ default "" (q_room req))])%list
    (Ok (handler env req)).
Proof.
  intros Hm%String.eqb_neq Hid Hroom Hkey Hsecret.
  unfold handler_prog, handler. rewrite Hm, Hid, Hroom, Hkey, Hsecret.
  cbn [negb orb]. cbv zeta.
  destruct env as [key [secret|] ms]; [|discriminate Hsecret].
  cbn [LIVEKIT_API_KEY LIVEKIT_API_SECRET reads_of Token.Date_now app] in *.
  apply runs_env. cbv beta. cbn [mbind Prog_bind bind]. rewrite Hkey. cbn [negb].
  apply runs_env. cbv beta. cbn [mbind Prog_bind bind]. rewrite Hsecret. cbn [negb].
  unfold createToken_prog. cbn [mbind Prog_bind bind try_catch].
  apply runs_env, runs_env, runs_now.
  rewrite createToken_Some. cbv zeta.
  change (JStr (?a +:+ "." +:+ ?b +:+ "." +:+ ?c)) with (JStr (a +:+ "." +:+ b +:+ "." +:+ c)).
  apply runs_log, runs_ret.
Qed.

(** C9. [createToken] has no external side effects and is deterministic.
    In every run, whatever the surroundings answer, it reads the two
    environment variables and the clock, once each and in this order, and
    does nothing else: no event of a run is a write. Its result is the
    credential computed from the arguments and the three values read, so
    two invocations with the same arguments that read the same key, the
    same secret and clock values in the same second end with the same
    result; and for every choice of the three values there is such a
    run. *)
Theorem createToken_deterministic (identity roomName : string) :
  (∀ env,
     runs (createToken_prog identity roomName) (reads_of env)
       (createToken env identity roomName))
  ∧ (∀ t r,
       runs (createToken_prog identity roomName) t r →
       Forall (λ e, is_read e = true) t
       ∧ ∃ env, t = reads_of env ∧ r = createToken env identity roomName)
  ∧ (∀ t1 r1 t2 r2 env1 env2,
       runs (createToken_prog identity roomName) t1 r1 →
       runs (createToken_prog identity roomName) t2 r2 →
       t1 = reads_of env1 → t2 = reads_of env2 →
       LIVEKIT_API_KEY env1 = LIVEKIT_API_KEY env2 →
       LIVEKIT_API_SECRET env1 = LIVEKIT_API_SECRET env2 →
       (Token.Date_now env1 / 1000 = Token.Date_now env2 / 1000)%Z →
       r1 = r2).
Proof.
  split; [|split].
  - intros env. apply createToken_runs.
  - intros t r H. apply createToken_runs_inv in H as (env & -> & ->).
    split; [|eauto]. unfold reads_of. repeat constructor.
  - intros t1 r1 t2 r2 env1 env2 H1 H2 -> -> Hkey Hsecret Hnow.
    apply createToken_runs_inv in H1 as (e1 & E1 & ->).
    apply createToken_runs_inv in H2 as (e2 & E2 & ->).
    apply reads_of_inj in E1, E2. subst e1 e2.
    apply createToken_same_second; assumption.
Qed.

(** C9 at work: two runs that read the same variables and two clock
    values of the same second end with the same credential. *)
Lemma createToken_deterministic_witness :
  ∃ r,
    runs (createToken_prog "alice" "room-A")
      (reads_of (mkEnv (Some "APIkey") (Some "secret") 1700000000123)) r
    ∧ runs (createToken_prog "alice" "room-A")
        (reads_of (mkEnv (Some "APIkey") (Some "secret") 1700000000999)) r.
Proof.
  destruct (createToken_deterministic "alice" "room-A") as (H1 & _ & H3).
  exists (createToken (mkEnv (Some "APIkey") (Some "secret") 1700000000123)
            "alice" "room-A").
  split; [apply H1|].
  rewrite (H3 _ _ _ _ _ _
             (H1 (mkEnv (Some "APIkey") (Some "secret") 1700000000123))
             (H1 (mkEnv (Some "APIkey") (Some "secret") 1700000000999))
             eq_refl eq_refl eq_refl eq_refl eq_refl).
  apply H1.
Defined.

End TokenProgramFacts.


(** ** The recording endpoint *)

Module RecordingFacts.

Import JSON Recording Str StrFacts.

(** *** What each call computes, case by case *)

Lemma start_when_recording (out : Outside) (room : string)
    (identity : option string) (w : World) (existing : RecordingInfo) :
  activeRecordings w !! room = Some existing →
  startRecording out room identity w
  = (Ok (mkResponse 409 (conflict_body existing)), w).
Proof.
  intros H. unfold startRecording, mbind, M_bind, Map_has, Map_get.
  rewrite H. cbn [present]. cbv beta. rewrite H. reflexivity.
Qed.

Lemma start_when_idle (out : Outside) (room : string)
    (identity : option string) (w : World) :
  activeRecordings w !! room = None →
  startRecording out room identity w
  = match reply out with
    | Resolved id =>
        (Ok (mkResponse 200 (started_body id (output_path room (date_before out)))),
         mkWorld (<[room := mkInfo id (or_else identity "unknown")
                              (ISODate.toISOString (date_after out))
                              (output_path room (date_before out))]>
                    (activeRecordings w))
                 (egressCalls w
                  ++ [StartRoomCompositeEgress room
                        (output_path room (date_before out))])
                 (console w
                  ++ ["Recording started for room: " +:+ room
                      +:+ ", egressId: " +:+ id]))
    | Rejected e =>
        (Throw e,
         mkWorld (activeRecordings w)
                 (egressCalls w
                  ++ [StartRoomCompositeEgress room
                        (output_path room (date_before out))])
                 (console w))
    end.
Proof.
  intros H. unfold startRecording, mbind, M_bind, Map_has, Map_get.
  rewrite H. simpl. unfold await. destruct (reply out); reflexivity.
Qed.

Lemma resolve_record (room egressId_ : option string) (w : World)
    (r : string) (info : RecordingInfo) :
  room = Some r → r ≠ "" → activeRecordings w !! r = Some info →
  resolve room egressId_ w = (Ok (Some (egressId info), Some info), w).
Proof.
  intros -> Hr H. unfold resolve, mbind, M_bind, Map_has, Map_get.
  apply truthy_Some in Hr. rewrite Hr. simpl. rewrite H.
  cbn [present]. cbv beta. rewrite H. reflexivity.
Qed.

Lemma resolve_no_record (room egressId_ : option string) (w : World) :
  truthy room = false ∨ activeRecordings w !! default "" room = None →
  resolve room egressId_ w = (Ok (egressId_, None), w).
Proof.
  intros H. unfold resolve, mbind, M_bind, Map_has, Map_get.
  destruct (truthy room) eqn:Ht.
  - destruct H as [?|H]; [congruence|]. simpl. rewrite H. reflexivity.
  - reflexivity.
Qed.

Lemma stop_after_resolve (out : Outside) (room egressId_ : option string)
    (w : World) (target : option string) (recordingInfo : option RecordingInfo) :
  resolve room egressId_ w = (Ok (target, recordingInfo), w) →
  stopRecording out room egressId_ w
  = stop_resolved out room target recordingInfo w.
Proof.
  intros H. unfold stopRecording, stop_resolved.
  unfold mbind at 1. unfold M_bind at 1. rewrite H.
  destruct (truthy target); simpl; [|reflexivity].
  unfold mbind, M_bind, await. destruct (reply out); [|reflexivity].
  destruct (truthy room); reflexivity.
Qed.

Lemma status_lookup (room : string) (w : World) :
  getRecordingStatus room w
  = (Ok (mkResponse 200
           (JObj (("isRecording",
                   JBool (present (activeRecordings w !! room)))
                  :: match activeRecordings w !! room with
                     | Some info =>
                         [("egressId", JStr (egressId info));
                          ("startedBy", JStr (startedBy info));
                          ("startedAt", JStr (startedAt info))]
                     | None => []
                     end))),
     w).
Proof. reflexivity. Qed.

Lemma configured_checks (cfg : Config) :
  configured cfg = true →
  negb (truthy (LIVEKIT_API_KEY cfg)) || negb (truthy (LIVEKIT_API_SECRET cfg))
  = false
  ∧ negb (truthy (AZURE_ACCOUNT_NAME cfg)) || negb (truthy (AZURE_ACCOUNT_KEY cfg))
    || negb (truthy (AZURE_CONTAINER_NAME cfg)) = false.
Proof.
  unfold configured.
  destruct (truthy (LIVEKIT_API_KEY cfg)), (truthy (LIVEKIT_API_SECRET cfg)),
    (truthy (AZURE_ACCOUNT_NAME cfg)), (truthy (AZURE_ACCOUNT_KEY cfg)),
    (truthy (AZURE_CONTAINER_NAME cfg)); simpl; intros; split; congruence.
Qed.

Lemma handler_start (cfg : Config) (out : Outside) (room : string)
    (identity : option string) (w : World) :
  configured cfg = true → room ≠ "" →
  handler cfg out (start_request room identity) w
  = respond (startRecording out room identity) w.
Proof.
  intros [H1 H2]%configured_checks Hroom%truthy_Some.
  unfold handler, start_request. cbn [method action p_room p_identity].
  change (String.eqb "POST" "OPTIONS") with false. cbv iota.
  rewrite H1, H2, Hroom. reflexivity.
Qed.

Lemma handler_stop (cfg : Config) (out : Outside) (room egressId_ : option string)
    (w : World) :
  configured cfg = true → truthy room || truthy egressId_ = true →
  handler cfg out (stop_request room egressId_) w
  = respond (stopRecording out room egressId_) w.
Proof.
  intros [H1 H2]%configured_checks Hsome.
  unfold handler, stop_request. cbn [method action p_room p_egressId].
  change (String.eqb "POST" "OPTIONS") with false. cbv iota.
  rewrite H1, H2.
  destruct (truthy room), (truthy egressId_); try discriminate; reflexivity.
Qed.

Lemma handler_status (cfg : Config) (out : Outside) (room : string) (w : World) :
  configured cfg = true → room ≠ "" →
  handler cfg out (status_request room) w
  = respond (getRecordingStatus room) w.
Proof.
  intros [H1 H2]%configured_checks Hroom%truthy_Some.
  unfold handler, status_request. cbn [method action p_room].
  change (String.eqb "GET" "OPTIONS") with false. cbv iota.
  rewrite H1, H2, Hroom. reflexivity.
Qed.

Lemma recording_A_lookup : activeRecordings recording_A !! "room-A" = Some info_A.
Proof. apply lookup_singleton_eq. Qed.

Lemma idle_lookup (room : string) : activeRecordings idle !! room = None.
Proof. apply lookup_empty. Qed.

(** C4. When room [room] has an active record, [start] answers 409 with
    the identity that started the existing recording and its session id,
    and leaves the world as it was: no request is sent to the egress
    service, the map is unchanged, and so is the session tracked for the
    room. In particular, after a [start] for the room that returned (with
    200 or 409), a second [start] for it answers 409 with the tracked
    session id, the one the first [start] returned, and changes nothing. *)
Theorem start_conflict (out : Outside) (room : string)
    (identity : option string) (w : World) :
  (∀ existing,
     activeRecordings w !! room = Some existing →
     startRecording out room identity w
     = (Ok (mkResponse 409 (conflict_body existing)), w))
  ∧ (∀ out1 identity1 resp1 w1,
       startRecording out1 room identity1 w = (Ok resp1, w1) →
       ∃ tracked,
         activeRecordings w1 !! room = Some tracked
         ∧ JSON.get "egressId" (body resp1) = JStr (egressId tracked)
         ∧ startRecording out room identity w1
           = (Ok (mkResponse 409 (conflict_body tracked)), w1)).
Proof.
  split.
  - intros existing H. apply start_when_recording, H.
  - intros out1 identity1 resp1 w1 E.
    destruct (activeRecordings w !! room) as [existing|] eqn:H.
    + rewrite (start_when_recording _ _ _ _ _ H) in E.
      injection E as <- <-. exists existing.
      split; [exact H|]. split; [reflexivity|].
      apply start_when_recording, H.
    + rewrite (start_when_idle _ _ _ _ H) in E.
      destruct (reply out1) as [id|e]; [|discriminate E].
      injection E as <- <-. eexists.
      split; [apply lookup_insert_eq|]. split; [reflexivity|].
      apply start_when_recording. apply lookup_insert_eq.
Qed.

Lemma start_conflict_witness :
  activeRecordings recording_A !! "room-A" = Some info_A
  ∧ startRecording (answers (Resolved "EG_2")) "room-A" (Some "bob") recording_A
    = (Ok (mkResponse 409 (conflict_body info_A)), recording_A).
Proof.
  split; [exact recording_A_lookup|].
  exact (proj1 (start_conflict (answers (Resolved "EG_2")) "room-A"
                  (Some "bob") recording_A)
           info_A recording_A_lookup).
Defined.

Lemma resolve_total (room egressId_ : option string) (w : World) :
  ∃ target info,
    resolve room egressId_ w = (Ok (target, info), w)
    ∧ (info = None → target = egressId_).
Proof.
  destruct (truthy room) eqn:Ht.
  - destruct room as [r|]; [|discriminate Ht].
    apply truthy_Some in Ht.
    destruct (activeRecordings w !! r) as [rec|] eqn:H.
    + exists (Some (egressId rec)), (Some rec).
      split; [eapply resolve_record; eauto|discriminate].
    + exists egressId_, None.
      split; [apply resolve_no_record; right; exact H|reflexivity].
  - exists egressId_, None.
    split; [apply resolve_no_record; left; exact Ht|reflexivity].
Qed.

Lemma truthy_default (v : option string) :
  truthy v = true → ∃ s, v = Some s ∧ s ≠ "" ∧ default "" v = s.
Proof.
  destruct v as [s|]; [|discriminate]. intros H%truthy_Some. eauto.
Qed.

Lemma stop_empty_id (out : Outside) (room : string) (egressId_ : option string)
    (w : World) (info : RecordingInfo) :
  room ≠ "" → activeRecordings w !! room = Some info → egressId info = "" →
  stopRecording out (Some room) egressId_ w
  = (Ok (mkResponse 404 not_found_body), w).
Proof.
  intros Hroom Hrec Hid.
  rewrite (stop_after_resolve _ _ _ _ _ _
             (resolve_record _ egressId_ _ _ _ eq_refl Hroom Hrec)).
  unfold stop_resolved. rewrite Hid. reflexivity.
Qed.

Lemma stop_nothing_to_stop (out : Outside) (room egressId_ : option string)
    (w : World) :
  truthy room = false ∨ activeRecordings w !! default "" room = None →
  truthy egressId_ = false →
  stopRecording out room egressId_ w = (Ok (mkResponse 404 not_found_body), w).
Proof.
  intros Hno Hnone.
  rewrite (stop_after_resolve _ _ _ _ _ _ (resolve_no_record _ _ _ Hno)).
  unfold stop_resolved. rewrite Hnone. reflexivity.
Qed.

(** C5. [stop] resolves the session as follows. If the room is supplied
    and has an active record, the session id and the output path are those
    of the record and the session id supplied by the caller is not used:
    when the id of the record is not empty the request to the egress
    service names it and the answer carries it and the output path of the
    record, and when it is empty the answer is 404 and nothing is sent,
    whatever the caller supplied. Otherwise the session id supplied by the
    caller is used and the answer has no output path; without one the
    answer is 404. When [stop] answers 200, the map is the old map without
    the entry of the room if the room was supplied, and is the old map,
    with nothing removed, if only a session id was. *)
Theorem stop_resolution (out : Outside) (room egressId_ : option string)
    (w : World) :
  (∀ r info,
     room = Some r → r ≠ "" → activeRecordings w !! r = Some info →
     (egressId info ≠ "" →
      ∃ w',
        stopRecording out room egressId_ w
        = (match reply out with
           | Resolved _ =>
               Ok (mkResponse 200
                     (stopped_body (egressId info) (JStr (filepath info))))
           | Rejected e => Throw e
           end, w')
        ∧ egressCalls w' = (egressCalls w ++ [StopEgress (egressId info)])%list)
     ∧ (egressId info = "" →
        stopRecording out room egressId_ w
        = (Ok (mkResponse 404 not_found_body), w)))
  ∧ (truthy room = false ∨ activeRecordings w !! default "" room = None →
     (∀ id, egressId_ = Some id → id ≠ "" →
      ∃ w',
        stopRecording out room egressId_ w
        = (match reply out with
           | Resolved _ => Ok (mkResponse 200 (stopped_body id JUndefined))
           | Rejected e => Throw e
           end, w')
        ∧ egressCalls w' = (egressCalls w ++ [StopEgress id])%list)
     ∧ (truthy egressId_ = false →
        stopRecording out room egressId_ w
        = (Ok (mkResponse 404 not_found_body), w)))
  ∧ (∀ resp w',
       stopRecording out room egressId_ w = (Ok resp, w') →
       status resp = 200 →
       activeRecordings w'
       = if truthy room
         then delete (default "" room) (activeRecordings w)
         else activeRecordings w)
  ∧ (truthy room = false →
     ∀ resp w',
       stopRecording out room egressId_ w = (Ok resp, w') →
       activeRecordings w' = activeRecordings w).
Proof.
  split; [|split; [|split]].
  - intros r info Hroom Hr Hrec. split.
    + intros Hid.
      rewrite (stop_after_resolve _ _ _ _ _ _
                 (resolve_record _ egressId_ _ _ _ Hroom Hr Hrec)).
      unfold stop_resolved. apply truthy_Some in Hid. rewrite Hid.
      cbn [negb default]. destruct (reply out); eexists; split; reflexivity.
    + intros Hid. subst room. apply (stop_empty_id _ _ _ _ info); assumption.
  - intros Hno. split.
    + intros id -> Hid.
      rewrite (stop_after_resolve _ _ _ _ _ _ (resolve_no_record _ _ _ Hno)).
      unfold stop_resolved. apply truthy_Some in Hid. rewrite Hid.
      cbn [negb default]. destruct (reply out); eexists; split; reflexivity.
    + apply stop_nothing_to_stop, Hno.
  - intros resp w' E Hstatus.
    destruct (resolve_total room egressId_ w) as (target & info & Hres & _).
    rewrite (stop_after_resolve _ _ _ _ _ _ Hres) in E.
    unfold stop_resolved in E. destruct (truthy target).
    + destruct (reply out); [|discriminate E].
      injection E as <- <-. reflexivity.
    + injection E as <- <-. discriminate Hstatus.
  - intros Hroom resp w' E.
    destruct (resolve_total room egressId_ w) as (target & info & Hres & _).
    rewrite (stop_after_resolve _ _ _ _ _ _ Hres) in E.
    unfold stop_resolved in E. rewrite Hroom in E. destruct (truthy target).
    + destruct (reply out); [|discriminate E].
      injection E as <- <-. reflexivity.
    + injection E as <- <-. reflexivity.
Qed.

(** C5 at work: with room-A being recorded as session EG_1, a stop for
    room-A that also names session EG_9 stops EG_1. *)
Lemma stop_resolution_witness :
  ∃ w',
    stopRecording (answers (Resolved "EG_1")) (Some "room-A") (Some "EG_9")
      recording_A
    = (Ok (mkResponse 200
             (stopped_body "EG_1"
                (JStr "recordings/room-A/2023-11-14T22-13-20-123Z.ogg"))), w')
    ∧ egressCalls w' = [StopEgress "EG_1"].
Proof.
  exact (proj1 (proj1 (stop_resolution (answers (Resolved "EG_1"))
                         (Some "room-A") (Some "EG_9") recording_A)
                  "room-A" info_A eq_refl ltac:(discriminate)
                  recording_A_lookup)
           ltac:(discriminate)).
Defined.

(** [start] with an empty room is refused whatever else the request
    says, and [stop] with neither a room nor a session id. *)
Lemma handler_validation_start (cfg : Config) (out : Outside) (req : Request)
    (w : World) :
  configured cfg = true → method req ≠ "OPTIONS" →
  action req = Some "start" → truthy (p_room req) = false →
  handler cfg out req w = (error_response 400 "Missing room parameter", w).
Proof.
  intros [H1 H2]%configured_checks Hm%String.eqb_neq Ha Hroom.
  unfold handler. rewrite Hm, H1, H2, Ha, Hroom. reflexivity.
Qed.

Lemma handler_validation_stop (cfg : Config) (out : Outside) (req : Request)
    (w : World) :
  configured cfg = true → method req ≠ "OPTIONS" →
  action req = Some "stop" →
  truthy (p_room req) = false → truthy (p_egressId req) = false →
  handler cfg out req w
  = (error_response 400 "Missing room or egressId parameter", w).
Proof.
  intros [H1 H2]%configured_checks Hm%String.eqb_neq Ha Hroom Hid.
  unfold handler. rewrite Hm, H1, H2, Ha, Hroom, Hid. reflexivity.
Qed.

(** *** Failure of the egress service *)

Lemma respond_map (m : M Response) (w : World) :
  activeRecordings (respond m w).2 = activeRecordings (m w).2.
Proof. unfold respond. destruct (m w) as [[r|e] w']; reflexivity. Qed.

Lemma start_rejected_map (out : Outside) (room : string)
    (identity : option string) (w : World) (message : string) :
  reply out = Rejected message →
  activeRecordings (startRecording out room identity w).2 = activeRecordings w.
Proof.
  intros Hrej. destruct (activeRecordings w !! room) as [existing|] eqn:H.
  - rewrite (start_when_recording _ _ _ _ _ H). reflexivity.
  - rewrite (start_when_idle _ _ _ _ H), Hrej. reflexivity.
Qed.

Lemma stop_rejected_map (out : Outside) (room egressId_ : option string)
    (w : World) (message : string) :
  reply out = Rejected message →
  activeRecordings (stopRecording out room egressId_ w).2 = activeRecordings w.
Proof.
  intros Hrej.
  destruct (resolve_total room egressId_ w) as (target & info & Hres & _).
  rewrite (stop_after_resolve _ _ _ _ _ _ Hres). unfold stop_resolved.
  rewrite Hrej. destruct (truthy target); reflexivity.
Qed.

(** C6. When the egress service rejects the request, no request to the
    endpoint changes the map: [start] inserts no record and [stop] leaves
    the record of the room in place. Where the request to the service is
    made ([start] on a room without a record, [stop] with a session that
    resolves), the call throws the service's error and the endpoint
    answers 500 with that error as detail. *)
Theorem external_failure_atomic (cfg : Config) (out : Outside)
    (message : string) (w : World) :
  reply out = Rejected message →
  (∀ req, activeRecordings (handler cfg out req w).2 = activeRecordings w)
  ∧ (∀ room identity,
       activeRecordings w !! room = None →
       (startRecording out room identity w).1 = Throw message
       ∧ activeRecordings (startRecording out room identity w).2
         = activeRecordings w
       ∧ (configured cfg = true → room ≠ "" →
          (handler cfg out (start_request room identity) w).1
          = mkHttp 500 (Some (failure_body message))))
  ∧ (∀ room egressId_ target info,
       resolve room egressId_ w = (Ok (target, info), w) →
       truthy target = true →
       (stopRecording out room egressId_ w).1 = Throw message
       ∧ activeRecordings (stopRecording out room egressId_ w).2
         = activeRecordings w
       ∧ (configured cfg = true → truthy room || truthy egressId_ = true →
          (handler cfg out (stop_request room egressId_) w).1
          = mkHttp 500 (Some (failure_body message)))).
Proof.
  intros Hrej. split; [|split].
  - intros req. unfold handler.
    destruct (String.eqb (method req) "OPTIONS"); [reflexivity|].
    destruct (_ || _); [reflexivity|].
    destruct (_ || _); [reflexivity|].
    cbv zeta.
    repeat match goal with
           | |- context [if ?b then _ else _] =>
               destruct b; try reflexivity
           end;
      rewrite respond_map;
      eauto using start_rejected_map, stop_rejected_map.
  - intros room identity Hnone.
    pose proof (start_when_idle out room identity w Hnone) as E.
    rewrite Hrej in E. split; [rewrite E; reflexivity|].
    split; [rewrite E; reflexivity|].
    intros Hcfg Hroom. rewrite (handler_start _ _ _ _ _ Hcfg Hroom).
    unfold respond. rewrite E. reflexivity.
  - intros room egressId_ target info Hres Htarget.
    pose proof (stop_after_resolve out _ _ _ _ _ Hres) as E.
    unfold stop_resolved in E. rewrite Htarget, Hrej in E. cbn [negb] in E.
    split; [rewrite E; reflexivity|]. split; [rewrite E; reflexivity|].
    intros Hcfg Hsome. rewrite (handler_stop _ _ _ _ _ Hcfg Hsome).
    unfold respond. rewrite E. reflexivity.
Qed.

Lemma external_failure_atomic_witness :
  reply (answers (Rejected "egress unavailable")) = Rejected "egress unavailable"
  ∧ (handler cfg_ok (answers (Rejected "egress unavailable"))
       (start_request "room-A" (Some "alice")) idle).1
    = mkHttp 500 (Some (failure_body "egress unavailable"))
  ∧ activeRecordings
      (handler cfg_ok (answers (Rejected "egress unavailable"))
         (stop_request (Some "room-A") None) recording_A).2
    = activeRecordings recording_A.
Proof.
  split; [reflexivity|]. split.
  - exact (proj2 (proj2 (proj1 (proj2
             (external_failure_atomic cfg_ok
                (answers (Rejected "egress unavailable"))
                "egress unavailable" idle eq_refl))
             "room-A" (Some "alice") (idle_lookup "room-A")))
             eq_refl ltac:(discriminate)).
  - exact (proj1 (external_failure_atomic cfg_ok
                    (answers (Rejected "egress unavailable"))
                    "egress unavailable" recording_A eq_refl)
             (stop_request (Some "room-A") None)).
Defined.

(** *** The state machine of a room *)

Lemma room_state_idle (w : World) (room : string) :
  room_state w room = StIdle ↔ activeRecordings w !! room = None.
Proof.
  unfold room_state. destruct (activeRecordings w !! room); split; congruence.
Qed.

Lemma room_state_recording (w : World) (room : string) :
  room_state w room = StRecording ↔ ∃ info, activeRecordings w !! room = Some info.
Proof.
  unfold room_state. destruct (activeRecordings w !! room); split;
    try congruence; eauto. intros [? ?]. congruence.
Qed.

Lemma start_succeeds (out : Outside) (room : string) (identity : option string)
    (w : World) (id : string) :
  activeRecordings w !! room = None → reply out = Resolved id →
  ∃ w',
    startRecording out room identity w
    = (Ok (mkResponse 200 (started_body id (output_path room (date_before out)))),
       w')
    ∧ activeRecordings w'
      = <[room := mkInfo id (or_else identity "unknown")
                   (ISODate.toISOString (date_after out))
                   (output_path room (date_before out))]> (activeRecordings w)
    ∧ egressCalls w'
      = (egressCalls w
         ++ [StartRoomCompositeEgress room (output_path room (date_before out))])%list.
Proof.
  intros Hnone Hreply. rewrite (start_when_idle _ _ _ _ Hnone), Hreply.
  eexists. repeat split.
Qed.

Lemma stop_succeeds (out : Outside) (room : string) (egressId_ : option string)
    (w : World) (info : RecordingInfo) (id : string) :
  room ≠ "" → activeRecordings w !! room = Some info → egressId info ≠ "" →
  reply out = Resolved id →
  ∃ w',
    stopRecording out (Some room) egressId_ w
    = (Ok (mkResponse 200
             (stopped_body (egressId info) (JStr (filepath info)))), w')
    ∧ activeRecordings w' = delete room (activeRecordings w).
Proof.
  intros Hroom Hrec Hid Hreply.
  rewrite (stop_after_resolve _ _ _ _ _ _
             (resolve_record _ egressId_ _ _ _ eq_refl Hroom Hrec)).
  unfold stop_resolved. apply truthy_Some in Hid, Hroom.
  rewrite Hid, Hreply, Hroom. eexists. split; reflexivity.
Qed.

(** A [start] that was issued an empty session id leaves a record that no
    [stop] of the room can remove. *)
Lemma start_with_empty_id (out out2 : Outside) (room : string)
    (identity egressId_ : option string) (w : World) :
  room ≠ "" → activeRecordings w !! room = None → reply out = Resolved "" →
  ∃ w1,
    startRecording out room identity w
    = (Ok (mkResponse 200 (started_body "" (output_path room (date_before out)))),
       w1)
    ∧ stopRecording out2 (Some room) egressId_ w1
      = (Ok (mkResponse 404 not_found_body), w1)
    ∧ room_state w1 room = StRecording
    ∧ getRecordingStatus room w1
      = (Ok (mkResponse 200
               (JObj [("isRecording", JBool true);
                      ("egressId", JStr "");
                      ("startedBy", JStr (or_else identity "unknown"));
                      ("startedAt",
                       JStr (ISODate.toISOString (date_after out)))])), w1).
Proof.
  intros Hroom Hnone Hreply.
  destruct (start_succeeds out room identity w "" Hnone Hreply)
    as (w1 & E1 & Hmap1 & _).
  assert (Hrec : activeRecordings w1 !! room
                 = Some (mkInfo "" (or_else identity "unknown")
                           (ISODate.toISOString (date_after out))
                           (output_path room (date_before out))))
    by (rewrite Hmap1; apply lookup_insert_eq).
  exists w1. split; [exact E1|].
  split; [apply (stop_empty_id _ _ _ _ _ Hroom Hrec); reflexivity|].
  split; [apply room_state_recording; eauto|].
  rewrite status_lookup, Hrec. reflexivity.
Qed.

(** C7. Per room the tracker is a two-state machine. A [start] that
    answers 200 was made in Idle and leads to Recording, and from Idle a
    [start] that the egress service accepts does answer 200. In Recording,
    [start] answers 409 and changes nothing. A [stop] for the room that
    answers 200 leads to Idle; from Recording a [stop] that the service
    accepts answers 200 when the recorded session id is not empty, and
    answers 404 and changes nothing when it is empty. In Idle, a [stop]
    for the room with no session id answers 404 and changes nothing. An
    accepted [start] of an idle room that was issued a session id that is
    not empty, followed by an accepted [stop] of the room, answers 200
    twice and leaves the room Idle, where [status] reports isRecording
    false and nothing else; when the session id issued is empty, the
    [stop] answers 404 and the room stays in Recording. *)
Theorem room_state_machine (out : Outside) (room : string) (w : World) :
  room ≠ "" →
  (∀ identity resp w',
     startRecording out room identity w = (Ok resp, w') → status resp = 200 →
     room_state w room = StIdle ∧ room_state w' room = StRecording)
  ∧ (room_state w room = StIdle →
     ∀ identity id, reply out = Resolved id →
     ∃ resp w',
       startRecording out room identity w = (Ok resp, w')
       ∧ status resp = 200)
  ∧ (room_state w room = StRecording →
     ∀ identity,
     ∃ resp,
       startRecording out room identity w = (Ok resp, w)
       ∧ status resp = 409)
  ∧ (∀ egressId_ resp w',
       stopRecording out (Some room) egressId_ w = (Ok resp, w') →
       status resp = 200 →
       room_state w' room = StIdle)
  ∧ (∀ info, activeRecordings w !! room = Some info →
     ∀ egressId_,
     (egressId info ≠ "" →
      ∀ id, reply out = Resolved id →
      ∃ resp w',
        stopRecording out (Some room) egressId_ w = (Ok resp, w')
        ∧ status resp = 200)
     ∧ (egressId info = "" →
        ∃ resp,
          stopRecording out (Some room) egressId_ w = (Ok resp, w)
          ∧ status resp = 404))
  ∧ (room_state w room = StIdle →
     ∀ egressId_, truthy egressId_ = false →
     ∃ resp,
       stopRecording out (Some room) egressId_ w = (Ok resp, w)
       ∧ status resp = 404)
  ∧ (room_state w room = StIdle →
     ∀ identity id out2 egressId_ id2,
     reply out = Resolved id → reply out2 = Resolved id2 →
     (id ≠ "" →
      ∃ resp1 w1 resp2 w2 resp3,
        startRecording out room identity w = (Ok resp1, w1)
        ∧ status resp1 = 200
        ∧ stopRecording out2 (Some room) egressId_ w1 = (Ok resp2, w2)
        ∧ status resp2 = 200
        ∧ room_state w2 room = StIdle
        ∧ getRecordingStatus room w2 = (Ok resp3, w2)
        ∧ status resp3 = 200
        ∧ body resp3 = JObj [("isRecording", JBool false)])
     ∧ (id = "" →
        ∃ resp1 w1 resp2 resp3,
          startRecording out room identity w = (Ok resp1, w1)
          ∧ status resp1 = 200
          ∧ stopRecording out2 (Some room) egressId_ w1 = (Ok resp2, w1)
          ∧ status resp2 = 404
          ∧ room_state w1 room = StRecording
          ∧ getRecordingStatus room w1 = (Ok resp3, w1)
          ∧ JSON.get "isRecording" (body resp3) = JBool true)).
Proof.
  intros Hroom.
  assert (Hstop200 : ∀ egressId_ resp w0 w',
            stopRecording out (Some room) egressId_ w0 = (Ok resp, w') →
            status resp = 200 → room_state w' room = StIdle).
  { intros egressId_ resp w0 w' E Hstatus.
    destruct (resolve_total (Some room) egressId_ w0)
      as (target & info & Hres & _).
    rewrite (stop_after_resolve _ _ _ _ _ _ Hres) in E.
    unfold stop_resolved in E. apply truthy_Some in Hroom. rewrite Hroom in E.
    destruct (truthy target); cbn [negb] in E.
    - destruct (reply out); [|discriminate E]. injection E as <- <-.
      apply room_state_idle. apply lookup_delete_eq.
    - injection E as <- <-. discriminate Hstatus. }
  split; [|split; [|split; [|split; [|split; [|split]]]]].
  - intros identity resp w' E Hstatus.
    destruct (activeRecordings w !! room) as [existing|] eqn:H.
    + rewrite (start_when_recording _ _ _ _ _ H) in E.
      injection E as <- <-. discriminate Hstatus.
    + split; [apply room_state_idle, H|].
      rewrite (start_when_idle _ _ _ _ H) in E.
      destruct (reply out); [|discriminate E]. injection E as <- <-.
      apply room_state_recording. eexists. apply lookup_insert_eq.
  - intros Hidle%room_state_idle identity id Hreply.
    destruct (start_succeeds out room identity w id Hidle Hreply)
      as (w' & E & _).
    eexists _, w'. split; [exact E|reflexivity].
  - intros [info Hrec]%room_state_recording identity.
    eexists. split; [apply start_when_recording, Hrec|reflexivity].
  - intros egressId_ resp w'. apply Hstop200.
  - intros info Hrec egressId_. split.
    + intros Hid id Hreply.
      destruct (stop_succeeds out room egressId_ w info id Hroom Hrec Hid Hreply)
        as (w' & E & _).
      eexists _, w'. split; [exact E|reflexivity].
    + intros Hid. eexists.
      split; [apply (stop_empty_id _ _ _ _ info); assumption|reflexivity].
  - intros Hidle%room_state_idle egressId_ Hnone.
    rewrite (stop_after_resolve out (Some room) egressId_ w egressId_ None)
      by (apply resolve_no_record; right; exact Hidle).
    unfold stop_resolved. rewrite Hnone. eexists. split; reflexivity.
  - intros Hidle%room_state_idle identity id out2 egressId_ id2 Hreply Hreply2.
    split.
    + intros Hid.
      destruct (start_succeeds out room identity w id Hidle Hreply)
        as (w1 & E1 & Hmap1 & _).
      assert (Hrec : activeRecordings w1 !! room
                     = Some (mkInfo id (or_else identity "unknown")
                               (ISODate.toISOString (date_after out))
                               (output_path room (date_before out))))
        by (rewrite Hmap1; apply lookup_insert_eq).
      destruct (stop_succeeds out2 room egressId_ w1 _ id2 Hroom Hrec Hid Hreply2)
        as (w2 & E2 & Hmap2).
      assert (Hgone : activeRecordings w2 !! room = None)
        by (rewrite Hmap2; apply lookup_delete_eq).
      eexists _, w1, _, w2, _.
      split; [exact E1|]. split; [reflexivity|].
      split; [exact E2|]. split; [reflexivity|].
      split; [apply room_state_idle, Hgone|].
      rewrite status_lookup, Hgone. repeat split.
    + intros ->.
      destruct (start_with_empty_id out out2 room identity egressId_ w
                  Hroom Hidle Hreply) as (w1 & E1 & E2 & Hstate & E3).
      eexists _, w1, _, _.
      split; [exact E1|]. split; [reflexivity|].
      split; [exact E2|]. split; [reflexivity|].
      split; [exact Hstate|]. split; [exact E3|reflexivity].
Qed.

Lemma room_state_machine_witness :
  ∃ resp1 w1 resp2 w2 resp3,
    startRecording (answers (Resolved "EG_1")) "room-A" (Some "alice") idle
    = (Ok resp1, w1)
    ∧ status resp1 = 200
    ∧ stopRecording (answers (Resolved "EG_1")) (Some "room-A") None w1
      = (Ok resp2, w2)
    ∧ status resp2 = 200
    ∧ room_state w2 "room-A" = StIdle
    ∧ getRecordingStatus "room-A" w2 = (Ok resp3, w2)
    ∧ status resp3 = 200
    ∧ body resp3 = JObj [("isRecording", JBool false)].
Proof.
  exact (proj1 (proj2 (proj2 (proj2 (proj2 (proj2 (proj2
           (room_state_machine (answers (Resolved "EG_1")) "room-A" idle
              ltac:(discriminate)))))))
           eq_refl (Some "alice") "EG_1" (answers (Resolved "EG_1")) None "EG_1"
           eq_refl eq_refl) ltac:(discriminate)).
Defined.

(** C7 as stated fails: the egress service accepts the start of room-A
    and issues the empty session id; the start answers 200, the stop of
    room-A that follows answers 404, and the room is still recorded. *)
Lemma start_then_stop_answers_404 :
  ∃ w1,
    startRecording (answers (Resolved "")) "room-A" (Some "alice") idle
    = (Ok (mkResponse 200
             (started_body "" "recordings/room-A/2023-11-14T22-13-20-123Z.ogg")),
       w1)
    ∧ stopRecording (answers (Resolved "EG_1")) (Some "room-A") None w1
      = (Ok (mkResponse 404 not_found_body), w1)
    ∧ room_state w1 "room-A" = StRecording
    ∧ (getRecordingStatus "room-A" w1).1
      = Ok (mkResponse 200
              (JObj [("isRecording", JBool true);
                     ("egressId", JStr "");
                     ("startedBy", JStr "alice");
                     ("startedAt", JStr "2023-11-14T22:13:20.456Z")])).
Proof.
  destruct (start_with_empty_id (answers (Resolved "")) (answers (Resolved "EG_1"))
              "room-A" (Some "alice") None idle ltac:(discriminate)
              (idle_lookup "room-A") eq_refl) as (w1 & E1 & E2 & Hstate & E3).
  exists w1. split; [exact E1|]. split; [exact E2|]. split; [exact Hstate|].
  rewrite E3. reflexivity.
Qed.


(** C8. [status] changes nothing: the world after it is the world before
    it. Without a record for the room the answer is exactly isRecording
    false; with a record it is isRecording true with the stored session
    id, startedBy and startedAt. After a [start] that answered 200, the
    session id it reports is the one that [start] returned. *)
Theorem status_is_a_lookup (room : string) (w : World) :
  (∃ resp,
     getRecordingStatus room w = (Ok resp, w)
     ∧ status resp = 200
     ∧ body resp
       = match activeRecordings w !! room with
         | None => JObj [("isRecording", JBool false)]
         | Some info =>
             JObj [("isRecording", JBool true);
                   ("egressId", JStr (egressId info));
                   ("startedBy", JStr (startedBy info));
                   ("startedAt", JStr (startedAt info))]
         end)
  ∧ (∀ out identity w0 started,
       startRecording out room identity w0 = (Ok started, w) →
       status started = 200 →
       ∃ resp,
         getRecordingStatus room w = (Ok resp, w)
         ∧ JSON.get "isRecording" (body resp) = JBool true
         ∧ JSON.get "egressId" (body resp) = JSON.get "egressId" (body started)
         ∧ ∃ id, JSON.get "egressId" (body started) = JStr id).
Proof.
  split.
  - rewrite status_lookup. eexists. split; [reflexivity|]. split; [reflexivity|].
    cbn [body]. destruct (activeRecordings w !! room); reflexivity.
  - intros out identity w0 started E Hstatus.
    destruct (activeRecordings w0 !! room) as [existing|] eqn:H.
    + rewrite (start_when_recording _ _ _ _ _ H) in E.
      injection E as <- <-. discriminate Hstatus.
    + rewrite (start_when_idle _ _ _ _ H) in E.
      destruct (reply out) as [id|e]; [|discriminate E].
      injection E as <- <-. rewrite status_lookup. cbn [activeRecordings].
      rewrite lookup_insert_eq. eexists. repeat split. eauto.
Qed.

Lemma status_is_a_lookup_witness :
  ∃ resp,
    getRecordingStatus "room-A" recording_A = (Ok resp, recording_A)
    ∧ status resp = 200
    ∧ body resp
      = JObj [("isRecording", JBool true);
              ("egressId", JStr "EG_1");
              ("startedBy", JStr "alice");
              ("startedAt", JStr "2023-11-14T22:13:20.456Z")].
Proof.
  destruct (proj1 (status_is_a_lookup "room-A" recording_A))
    as (resp & E & Hstatus & Hbody).
  exists resp. split; [exact E|]. split; [exact Hstatus|].
  rewrite Hbody, recording_A_lookup. reflexivity.
Defined.

(** *** The output path *)

Example toISOString_examples :
  ISODate.toISOString 0 = "1970-01-01T00:00:00.000Z"
  ∧ ISODate.toISOString 1700000000123 = "2023-11-14T22:13:20.123Z"
  ∧ ISODate.toISOString (-1) = "1969-12-31T23:59:59.999Z"
  ∧ ISODate.toISOString 1709251199999 = "2024-02-29T23:59:59.999Z"
  ∧ file_timestamp 1700000000123 = "2023-11-14T22-13-20-123Z".
Proof. repeat split. Qed.

Lemma digit_no_slash (n : Z) : no_slash (ISODate.digit n) = true.
Proof.
  unfold no_slash, ISODate.digit. apply negb_true_iff, Ascii.eqb_neq.
  intros H. apply (f_equal N_of_ascii) in H.
  rewrite N_ascii_embedding in H by (pose proof (Z.mod_pos_bound n 10); lia).
  change (N_of_ascii "/") with 47%N in H. lia.
Qed.

Lemma digits_no_slash (width : nat) (n : Z) :
  all no_slash (ISODate.digits width n) = true.
Proof.
  revert n. induction width as [|width IH]; intros n; [reflexivity|].
  cbn [ISODate.digits]. rewrite all_app, IH. simpl.
  rewrite digit_no_slash. reflexivity.
Qed.

Lemma toISOString_no_slash (ms : Z) :
  all no_slash (ISODate.toISOString ms) = true.
Proof.
  unfold ISODate.toISOString, ISODate.year_string.
  destruct (ISODate.civil_from_days _) as [[y m] d].
  repeat match goal with
         | |- context [if ?b then _ else _] => destruct b
         end;
    rewrite !all_app, !digits_no_slash; reflexivity.
Qed.

Lemma file_timestamp_no_slash (ms : Z) :
  all no_slash (file_timestamp ms) = true.
Proof.
  unfold file_timestamp.
  apply (all_replace_g no_slash); auto using toISOString_no_slash.
Qed.

Lemma no_slash_count (s : string) :
  all no_slash s = true → count (is_char "/") s = 0.
Proof.
  apply count_none. intros c. unfold no_slash, is_char.
  rewrite Ascii.eqb_sym. apply negb_true_iff.
Qed.

Lemma no_slash_split (s : string) :
  all no_slash s = true → split "/" s = [s].
Proof. apply split_no_sep. Qed.

(** C10. For a [start] that succeeds (the room has no record and the
    egress service accepts the request) at clock reading [date_before],
    the output path, in the answer, in the request to the service and in
    the stored record, is exactly recordings/ followed by the room, a
    slash, [s] and .ogg, where [s] is the ISO-8601 rendering of the clock
    reading with every colon and dot replaced by a minus sign (same
    length, position by position). The room is copied as it is: split at
    the slashes, the path is the segment recordings, then the segments of
    the room, then the file name, so every slash of the room adds a
    directory level. *)
Theorem output_path_of_start (out : Outside) (room : string)
    (identity : option string) (w : World) (id : string) :
  activeRecordings w !! room = None → reply out = Resolved id →
  let iso := ISODate.toISOString (date_before out) in
  let s := replace_g is_colon_or_dot "-" iso in
  let path := "recordings/" +:+ room +:+ "/" +:+ s +:+ ".ogg" in
  (∃ w',
     startRecording out room identity w
     = (Ok (mkResponse 200 (started_body id path)), w')
     ∧ filepath <$> activeRecordings w' !! room = Some path
     ∧ last (egressCalls w') = Some (StartRoomCompositeEgress room path))
  ∧ String.length s = String.length iso
  ∧ (∀ n, String.get n s
          = (λ c, if is_colon_or_dot c then "-"%char else c)
              <$> String.get n iso)
  ∧ split "/" path = ("recordings" :: split "/" room ++ [s +:+ ".ogg"])%list
  ∧ count (is_char "/") path = 2 + count (is_char "/") room.
Proof.
  intros Hnone Hreply iso s path.
  assert (Hs : all no_slash (s +:+ ".ogg") = true).
  { rewrite all_app. change s with (file_timestamp (date_before out)).
    rewrite file_timestamp_no_slash. reflexivity. }
  split; [|split; [|split; [|split]]].
  - destruct (start_succeeds out room identity w id Hnone Hreply)
      as (w' & E & Hmap & Hcalls).
    exists w'. split; [exact E|]. split.
    + rewrite Hmap, lookup_insert_eq. reflexivity.
    + rewrite Hcalls. apply last_snoc.
  - apply replace_g_char_length.
  - intros n. apply replace_g_char_get.
  - change path
      with ("recordings" +:+ String "/" (room +:+ String "/" (s +:+ ".ogg"))).
    rewrite !split_app, (no_slash_split _ Hs). reflexivity.
  - change path
      with ("recordings" +:+ String "/" (room +:+ String "/" (s +:+ ".ogg"))).
    rewrite count_app. cbn [count]. rewrite count_app. cbn [count].
    rewrite (no_slash_count _ Hs). simpl. lia.
Qed.

(** C10 at work: a room named with dots and a slash moves the file to
    another directory. *)
Lemma output_path_of_start_witness :
  ∃ w',
    startRecording (answers (Resolved "EG_1")) "../x" None idle
    = (Ok (mkResponse 200
             (started_body "EG_1"
                "recordings/../x/2023-11-14T22-13-20-123Z.ogg")), w')
    ∧ split "/" "recordings/../x/2023-11-14T22-13-20-123Z.ogg"
      = ["recordings"; ".."; "x"; "2023-11-14T22-13-20-123Z.ogg"].
Proof.
  destruct (output_path_of_start (answers (Resolved "EG_1")) "../x" None idle
              "EG_1" (idle_lookup "../x") eq_refl)
    as [(w' & E & _) (_ & _ & Hsplit & _)].
  exists w'. split; [exact E|exact Hsplit].
Defined.

End RecordingFacts.

(** ** More about JSON texts *)

Module JSONPruneFacts.

Import JSON JSONPrune Str StrFacts JSONFacts.

Lemma stringify_None (v : jsval) : stringify v = None → v = JUndefined.
Proof. destruct v as [| |[|]| | |]; simpl; congruence. Qed.

Lemma prune_props_cons (k : string) (x : jsval) (r : list (string * jsval)) :
  x ≠ JUndefined →
  prune_props prune ((k, x) :: r) = (k, prune x) :: prune_props prune r.
Proof. destruct x; try reflexivity. congruence. Qed.

Lemma members_prune (ps : list (string * jsval)) :
  Forall (λ kv, stringify (prune kv.2) = stringify kv.2) ps →
  members stringify (prune_props prune ps) = members stringify ps.
Proof.
  induction 1 as [|[k x] r Hx Hr IH]; [reflexivity|]. cbn [snd] in Hx.
  destruct (stringify x) as [t|] eqn:Ht.
  - assert (x ≠ JUndefined) as Hne by (intros ->; discriminate Ht).
    rewrite (prune_props_cons k x r Hne).
    rewrite (members_cons k (prune x) t) by congruence.
    rewrite (members_cons k x t r Ht), IH. reflexivity.
  - apply stringify_None in Ht as ->. cbn [prune_props members stringify].
    exact IH.
Qed.

Lemma stringify_prune (v : jsval) : stringify (prune v) = stringify v.
Proof.
  induction v as [| | b | n | s | props IH] using jsval_induction;
    try reflexivity.
  cbn [prune stringify]. rewrite (members_prune props IH). reflexivity.
Qed.

Lemma defined_prune (v : jsval) : v ≠ JUndefined → defined (prune v) = true.
Proof.
  induction v as [| | b | n | s | props IH] using jsval_induction;
    intros Hne; try reflexivity; [congruence|].
  cbn [prune defined]. clear Hne.
  induction IH as [|[k x] r Hx Hr IHr]; [reflexivity|]. cbn [snd] in Hx.
  destruct (stringify x) as [t|] eqn:Ht.
  - assert (x ≠ JUndefined) as Hne by (intros ->; discriminate Ht).
    rewrite (prune_props_cons k x r Hne). cbn [forallb snd].
    rewrite (Hx Hne), IHr. reflexivity.
  - apply stringify_None in Ht as ->. exact IHr.
Qed.

(** Reading back the text of a value gives the value without its
    undefined properties. *)
Lemma parse_stringify_prune (v : jsval) (text : string) :
  stringify v = Some text → parse text = Some (prune v).
Proof.
  intros Htext. apply parse_stringify.
  - rewrite stringify_prune. exact Htext.
  - apply defined_prune. intros ->. discriminate Htext.
Qed.

End JSONPruneFacts.

(** ** More about the token endpoint *)

Module TokenMore.

Import JSON JSONPrune Token Str StrFacts Base64Notions Base64Facts JSONFacts
  JSONPruneFacts SHA256Facts TokenFacts.



Lemma encode_length (s : string) :
  String.length (base64UrlEncode s) = (4 * String.length s + 2) / 3.
Proof.
  induction s as [| a | a b | a b c r IH] using by_triples.
  - reflexivity.
  - rewrite encode_1. reflexivity.
  - rewrite encode_2. reflexivity.
  - rewrite encode_3. cbn [String.length]. rewrite IH.
    replace (4 * S (S (S (String.length r))) + 2)
      with (4 * String.length r + 2 + 4 * 3) by lia.
    rewrite Nat.div_add by lia. lia.
Qed.

(** X2. The encoding of [n] bytes has the 4n/3 characters of base64,
    rounded up, none of them padding, a plus sign or a slash: the empty
    input gives the empty text, and only it does. *)
Theorem base64UrlEncode_length (s : string) :
  String.length (base64UrlEncode s) = (4 * String.length s + 2) / 3
  ∧ all Base64Url.is_url_char (base64UrlEncode s) = true
  ∧ (base64UrlEncode s = "" ↔ s = "").
Proof.
  split; [|split].
  - apply encode_length.
  - apply base64UrlEncode_chars.
  - split.
    + intros H. destruct s as [|c s]; [reflexivity|].
      exfalso. revert H. apply base64UrlEncode_nonempty. discriminate.
    + intros ->. reflexivity.
Qed.

Lemma createToken_None (key : option string) (identity roomName : string)
    (ms : Z) :
  createToken (mkEnv key None ms) identity roomName
  = Throw "TypeError: The key argument must be of type string".
Proof. reflexivity. Qed.

(** X3. [createToken] throws exactly when the signing secret is not set;
    a missing API key does not make it throw. *)
Theorem createToken_throws_iff (env : Env) (identity roomName : string) :
  ((∃ e, createToken env identity roomName = Throw e)
   ↔ LIVEKIT_API_SECRET env = None)
  ∧ ((∃ token, createToken env identity roomName = Ok token)
     ↔ ∃ secret, LIVEKIT_API_SECRET env = Some secret).
Proof.
  destruct env as [key [secret|] ms]; cbn [LIVEKIT_API_SECRET].
  - rewrite createToken_Some. split; split.
    + intros [e H]. discriminate H.
    + discriminate.
    + eauto.
    + eauto.
  - rewrite createToken_None. split; split.
    + reflexivity.
    + eauto.
    + intros [t H]. discriminate H.
    + intros [s H]. discriminate H.
Qed.

Lemma payload_text (key : option string) (identity roomName : string) (now : Z) :
  stringify (payload key identity roomName now)
  = Some (text_of (payload key identity roomName now)).
Proof. reflexivity. Qed.

Lemma prune_payload_Some (key identity roomName : string) (now : Z) :
  prune (payload (Some key) identity roomName now)
  = payload (Some key) identity roomName now.
Proof. reflexivity. Qed.

Lemma prune_payload_None (identity roomName : string) (now : Z) :
  prune (payload None identity roomName now)
  = JObj [("exp", JNum (now + 24 * 60 * 60));
          ("name", JStr identity);
          ("nbf", JNum now);
          ("sub", JStr identity);
          ("video", JObj [("room", JStr roomName);
                          ("roomJoin", JBool true);
                          ("canPublish", JBool true);
                          ("canSubscribe", JBool true);
                          ("canPublishData", JBool true)])].
Proof. reflexivity. Qed.

Lemma decode_payloadEncoded (key : option string) (identity roomName : string)
    (now : Z) :
  decode_segment (payloadEncoded key identity roomName now)
  = Some (prune (payload key identity roomName now)).
Proof.
  unfold decode_segment, payloadEncoded. rewrite decode_encode.
  apply parse_stringify_prune, payload_text.
Qed.

Lemma payload_inj (key1 key2 : option string) (i1 r1 i2 r2 : string) (n1 n2 : Z) :
  prune (payload key1 i1 r1 n1) = prune (payload key2 i2 r2 n2) →
  i1 = i2 ∧ r1 = r2 ∧ key1 = key2 ∧ n1 = n2.
Proof.
  destruct key1 as [k1|], key2 as [k2|];
    rewrite ?prune_payload_Some, ?prune_payload_None; unfold payload, of_env;
    intros H; injection H; intros; subst; try discriminate; auto.
Qed.

Lemma token_segments_inj (a1 a2 a3 b1 b2 b3 : string) :
  all Base64Url.is_url_char a1 = true → all Base64Url.is_url_char a2 = true →
  all Base64Url.is_url_char a3 = true → all Base64Url.is_url_char b1 = true →
  all Base64Url.is_url_char b2 = true → all Base64Url.is_url_char b3 = true →
  a1 +:+ "." +:+ a2 +:+ "." +:+ a3 = b1 +:+ "." +:+ b2 +:+ "." +:+ b3 →
  a1 = b1 ∧ a2 = b2 ∧ a3 = b3.
Proof.
  intros Ha1 Ha2 Ha3 Hb1 Hb2 Hb3 H.
  destruct (segments_join a1 a2 a3 Ha1 Ha2 Ha3) as [Ea _].
  destruct (segments_join b1 b2 b3 Hb1 Hb2 Hb3) as [Eb _].
  rewrite H, Eb in Ea. injection Ea. auto.
Qed.

Lemma Ok_inj {A : Type} (a b : A) : Ok a = Ok b → a = b.
Proof. congruence. Qed.

(** X4. Two calls that return the same credential were made for the same
    identity, the same room, the same API key and the same second: the
    credentials of different participants, rooms or seconds never
    coincide. *)
Theorem createToken_injective (env1 env2 : Env) (i1 r1 i2 r2 token : string) :
  createToken env1 i1 r1 = Ok token →
  createToken env2 i2 r2 = Ok token →
  i1 = i2 ∧ r1 = r2
  ∧ LIVEKIT_API_KEY env1 = LIVEKIT_API_KEY env2
  ∧ (Date_now env1 / 1000 = Date_now env2 / 1000)%Z.
Proof.
  destruct env1 as [key1 [secret1|] ms1], env2 as [key2 [secret2|] ms2];
    rewrite ?createToken_None, ?createToken_Some; try discriminate.
  intros E1 E2. rewrite <- E2 in E1. apply Ok_inj in E1 as H.
  cbn [LIVEKIT_API_KEY Date_now].
  apply token_segments_inj in H;
    try apply base64UrlEncode_chars; try apply signature_chars.
  destruct H as (_ & H & _). apply (f_equal decode_segment) in H.
  rewrite !decode_payloadEncoded in H. apply (inj Some) in H.
  apply payload_inj in H. destruct H as (-> & -> & -> & ->). auto.
Qed.

Lemma createToken_injective_witness :
  "alice" = "alice" ∧ "room-A" = "room-A"
  ∧ Some "APIkey" = Some "APIkey"
  ∧ (1700000000999 / 1000 = 1700000000123 / 1000)%Z.
Proof.
  refine (createToken_injective
            (mkEnv (Some "APIkey") (Some "secret") 1700000000999)
            (mkEnv (Some "APIkey") (Some "secret") 1700000000123)
            "alice" "room-A" "alice" "room-A" _ eq_refl _).
  - vm_compute. reflexivity.
Defined.

(** X5. The claim set read out of the second segment names the
    participant and the issuer: its sub and its name are the identity, as
    given, and its iss is the API key, or is absent when the key is not
    set. *)
Theorem claims_name_participant (key : option string)
    (secret identity roomName : string) (ms : Z) :
  ∃ s1 s2 s3 claims,
    createToken (mkEnv key (Some secret) ms) identity roomName
    = Ok (s1 +:+ "." +:+ s2 +:+ "." +:+ s3)
    ∧ segments (s1 +:+ "." +:+ s2 +:+ "." +:+ s3) = [s1; s2; s3]
    ∧ decode_segment s2 = Some claims
    ∧ get "sub" claims = JStr identity
    ∧ get "name" claims = JStr identity
    ∧ get "iss" claims = of_env key.
Proof.
  set (s1 := headerEncoded).
  set (s2 := payloadEncoded key identity roomName (ms / 1000)).
  exists s1, s2, (signature secret (s1 +:+ "." +:+ s2)).
  exists (prune (payload key identity roomName (ms / 1000))).
  split; [apply createToken_Some|].
  split; [apply segments_join;
          apply base64UrlEncode_chars || apply signature_chars|].
  split; [apply decode_payloadEncoded|].
  destruct key as [k|]; repeat split.
Qed.

(** X6. The handler of the token endpoint answers a request other than a
    preflight with 200 exactly when identity, room, API key and signing
    secret are all present and not empty, and then with the credential of
    [createToken]; a missing identity or room is answered 400 with the
    missing-parameter error whatever the credentials, missing credentials
    500 with the configuration error; and the failure answer of its catch
    clause is never sent. *)
Theorem handler_answers (env : Env) (req : Request) :
  method req ≠ "OPTIONS" →
  (status (handler env req) = 200
   ↔ truthy (q_identity req) && truthy (q_room req)
     && truthy (LIVEKIT_API_KEY env) && truthy (LIVEKIT_API_SECRET env) = true)
  ∧ (status (handler env req) = 200 →
     ∃ token,
       createToken env (default "" (q_identity req)) (default "" (q_room req))
       = Ok token
       ∧ body (handler env req) = Some (JObj [("token", JStr token)]))
  ∧ (status (handler env req) = 400
     ↔ truthy (q_identity req) && truthy (q_room req) = false)
  ∧ (status (handler env req) = 200 ∨ status (handler env req) = 400
     ∨ status (handler env req) = 500)
  ∧ body (handler env req)
    ≠ Some (JObj [("error", JStr "Failed to generate token")])
  ∧ (status (handler env req) = 400 →
     body (handler env req)
     = Some (JObj [("error", JStr "Missing identity or room parameter")]))
  ∧ (status (handler env req) = 500 →
     body (handler env req)
     = Some (JObj [("error", JStr "Server not configured. Missing LIVEKIT_API_KEY or LIVEKIT_API_SECRET environment variables.")])).
Proof.
  intros Hm%String.eqb_neq. unfold handler. rewrite Hm.
  destruct (truthy (q_identity req)), (truthy (q_room req));
    cbn [negb orb andb status body];
    try (repeat split; intros; try discriminate; try congruence; auto; fail).
  destruct (LIVEKIT_API_SECRET env) as [secret|] eqn:Hsecret;
    [|cbn [truthy negb]; rewrite orb_true_r, andb_false_r;
      cbn [status body];
      repeat split; intros; try discriminate; try congruence; auto].
  destruct (truthy (LIVEKIT_API_KEY env)), (truthy (Some secret));
    cbn [negb orb andb status body];
    try (repeat split; intros; try discriminate; try congruence; auto; fail).
  replace env with (mkEnv (LIVEKIT_API_KEY env) (Some secret) (Date_now env))
    by (destruct env; cbn in *; congruence).
  rewrite createToken_Some. cbn [status body].
  repeat split; intros; try discriminate; try congruence; eauto.
Qed.

Lemma handler_answers_witness :
  ∃ token,
    createToken (mkEnv (Some "APIkey") (Some "secret") 1700000000123)
      "alice" "room-A" = Ok token
    ∧ body (handler (mkEnv (Some "APIkey") (Some "secret") 1700000000123)
              (mkRequest "GET" (Some "alice") (Some "room-A")))
      = Some (JObj [("token", JStr token)]).
Proof.
  exact (proj1 (proj2
           (handler_answers (mkEnv (Some "APIkey") (Some "secret") 1700000000123)
              (mkRequest "GET" (Some "alice") (Some "room-A"))
              ltac:(discriminate)))
           eq_refl).
Defined.

(** X21. Every credential starts with the same 36 characters, the
    encoding of the fixed header, and ends with a signature of exactly 43
    characters, whatever the identity, the room, the credentials and the
    clock; only the middle segment varies in length. *)
Theorem token_layout (key : option string) (secret identity roomName : string)
    (ms : Z) :
  ∃ s2 s3,
    createToken (mkEnv key (Some secret) ms) identity roomName
    = Ok ("eyJhbGciOiJIUzI1NiIsInR5cCI6IkpXVCJ9" +:+ "." +:+ s2 +:+ "." +:+ s3)
    ∧ s2 = payloadEncoded key identity roomName (ms / 1000)
    ∧ String.length s3 = 43
    ∧ all Base64Url.is_url_char s3 = true.
Proof.
  exists (payloadEncoded key identity roomName (ms / 1000)).
  eexists. split; [apply createToken_Some|]. split; [reflexivity|].
  split; [|apply signature_chars].
  unfold signature. rewrite encode_length, hmac_sha256_length. reflexivity.
Qed.

End TokenMore.

(** ** [Buffer.from] on JavaScript strings *)

Module Utf16Facts.

Import Utf16 Str StrFacts Base64Facts.

Local Open Scope Z_scope.

Lemma byte_inj (a b : Z) : 0 ≤ a < 256 → 0 ≤ b < 256 → byte a = byte b → a = b.
Proof.
  unfold byte. intros Ha Hb H. apply (f_equal N_of_ascii) in H.
  rewrite !N_ascii_embedding in H by lia. lia.
Qed.

Lemma String_inj (c d : ascii) (s t : string) :
  String c s = String d t → c = d ∧ s = t.
Proof. intros H. injection H as H1 H2. auto. Qed.

Ltac bytes H :=
  repeat match type of H with
         | String _ _ = String _ _ =>
             let E := fresh "E" in
             apply String_inj in H as [E H];
             apply byte_inj in E;
             [|Z.to_euclidean_division_equations; lia
              |Z.to_euclidean_division_equations; lia]
         end.

(** UTF-8 is a prefix code on the code points. *)
Lemma utf8_prefix_free (c d : Z) (x y : string) :
  0 ≤ c < 1114112 → 0 ≤ d < 1114112 →
  utf8 c +:+ x = utf8 d +:+ y → c = d ∧ x = y.
Proof.
  intros Hc Hd. unfold utf8.
  destruct (Z.ltb_spec c 128), (Z.ltb_spec c 2048), (Z.ltb_spec c 65536);
    try lia;
    destruct (Z.ltb_spec d 128), (Z.ltb_spec d 2048), (Z.ltb_spec d 65536);
    try lia;
    rewrite ?app_cons, ?app_nil_l; intros Heq; bytes Heq;
    try (exfalso; Z.to_euclidean_division_equations; lia);
    (split; [Z.to_euclidean_division_equations; lia|exact Heq]).
Qed.

Lemma utf8_nonempty (c : Z) : utf8 c ≠ ""%string.
Proof. unfold utf8. repeat destruct (_ <? _); discriminate. Qed.

(** The first code point of a well-formed string, the bytes it gives and
    the units it was written with. *)
Lemma well_formed_head (str : list Z) :
  well_formed str = true → str ≠ [] →
  ∃ c rest,
    0 ≤ c < 1114112
    ∧ Buffer_from str = (utf8 c +:+ Buffer_from rest)%string
    ∧ well_formed rest = true
    ∧ (length rest < length str)%nat
    ∧ str = ((if c <? 65536 then [c]
              else [55296 + (c - 65536) / 1024; 56320 + (c - 65536) mod 1024])
             ++ rest)%list.
Proof.
  destruct str as [|u rest]; [congruence|]. intros H _.
  cbn [well_formed Buffer_from] in *.
  apply andb_true_iff in H as [Hu H]. unfold is_unit in Hu.
  destruct (is_high u) eqn:Hhigh.
  - destruct rest as [|v rest']; [discriminate H|].
    apply andb_true_iff in H as [Hlow H]. rewrite Hlow.
    unfold is_high, is_low, code_point in *.
    exists (65536 + (u - 55296) * 1024 + (v - 56320)), rest'.
    split; [lia|]. split; [reflexivity|]. split; [exact H|].
    split; [cbn; lia|].
    destruct (Z.ltb_spec (65536 + (u - 55296) * 1024 + (v - 56320)) 65536);
      [lia|].
    cbn [app]. f_equal; [|f_equal]; Z.to_euclidean_division_equations; lia.
  - apply andb_true_iff in H as [Hlow H]. apply negb_true_iff in Hlow.
    rewrite Hlow. exists u, rest.
    split; [lia|]. split; [reflexivity|]. split; [exact H|].
    split; [cbn; lia|].
    destruct (Z.ltb_spec u 65536); [reflexivity|lia].
Qed.

Lemma Buffer_from_empty (str : list Z) :
  well_formed str = true → Buffer_from str = ""%string → str = [].
Proof.
  intros Hwf H. destruct str as [|u rest]; [reflexivity|]. exfalso.
  destruct (well_formed_head _ Hwf ltac:(discriminate))
    as (c & r & _ & E & _). rewrite E in H.
  pose proof (utf8_nonempty c) as Hne.
  destruct (utf8 c); [congruence|discriminate H].
Qed.

(** On strings without lone surrogates [Buffer.from] loses nothing. *)
Lemma Buffer_from_inj (s t : list Z) :
  well_formed s = true → well_formed t = true →
  Buffer_from s = Buffer_from t → s = t.
Proof.
  remember (length s) as n eqn:Hn. revert s t Hn.
  induction n as [n IH] using lt_wf_ind. intros s t -> Hs Ht H.
  destruct s as [|u s'].
  { symmetry. apply Buffer_from_empty; [exact Ht|]. rewrite <- H. reflexivity. }
  destruct t as [|v t'].
  { apply Buffer_from_empty; [exact Hs|exact H]. }
  destruct (well_formed_head _ Hs ltac:(discriminate))
    as (c & rs & Hc & Es & Hrs & Hlen & Us).
  destruct (well_formed_head _ Ht ltac:(discriminate))
    as (d & rt & Hd & Et & Hrt & _ & Ut).
  rewrite Es, Et in H. apply utf8_prefix_free in H as [<- H]; [|lia|lia].
  rewrite Us, Ut. f_equal. exact (IH _ Hlen rs rt eq_refl Hrs Hrt H).
Qed.

(** X1. [base64UrlEncode] loses none of the bytes it encodes: the
    URL-safe decoder gives back the UTF-8 bytes that [Buffer.from] made of
    the input, so two strings without lone surrogates never have the same
    encoding. Lone surrogates are the exception: [Buffer.from] turns each
    into U+FFFD, so the one-unit strings D800, DC00 and FFFD all have the
    encoding 77-9. *)
Theorem base64UrlEncode_reversible :
  (∀ bytes, Base64Url.decode (base64UrlEncode bytes) = Some bytes)
  ∧ (∀ str,
       Base64Url.decode (base64UrlEncode_str str) = Some (Buffer_from str))
  ∧ (∀ s t,
       well_formed s = true → well_formed t = true →
       base64UrlEncode_str s = base64UrlEncode_str t → s = t)
  ∧ base64UrlEncode_str [55296] = "77-9"%string
  ∧ base64UrlEncode_str [56320] = "77-9"%string
  ∧ base64UrlEncode_str [65533] = "77-9"%string.
Proof.
  split; [apply decode_encode|]. split; [intros str; apply decode_encode|].
  split; [|repeat split].
  intros s t Hs Ht H. apply Buffer_from_inj; [exact Hs|exact Ht|].
  unfold base64UrlEncode_str in H.
  apply (f_equal Base64Url.decode) in H. rewrite !decode_encode in H.
  congruence.
Qed.

End Utf16Facts.

(** ** More about the recording endpoint *)

Module RecordingMore.

Import JSON JSONPrune Recording RecordingRuns RecordingViews Str StrFacts
  JSONFacts JSONPruneFacts RecordingFacts.

(** *** What a request can do to the world *)

Lemma respond_calls (m : M Response) (w : World) :
  egressCalls (respond m w).2 = egressCalls (m w).2.
Proof. unfold respond. destruct (m w) as [[r|e] w']; reflexivity. Qed.

Lemma truthy_Some_inv (v : option string) :
  truthy v = true → ∃ s, v = Some s ∧ s ≠ "".
Proof.
  destruct v as [s|]; [|discriminate]. intros H%truthy_Some. eauto.
Qed.

Lemma start_effect (out : Outside) (req : Request) (room : string) (w : World) :
  p_room req = Some room → room ≠ "" →
  effect out req w (startRecording out room (p_identity req) w).2.
Proof.
  intros Hreq Hroom. destruct (activeRecordings w !! room) as [existing|] eqn:H.
  - rewrite (start_when_recording _ _ _ _ _ H). apply effect_none; auto.
  - rewrite (start_when_idle _ _ _ _ H).
    destruct (reply out) as [id|e] eqn:Hreply.
    + eapply effect_insert; eauto.
    + apply effect_none; [reflexivity|]. right. eexists. reflexivity.
Qed.

Lemma stop_effect (out : Outside) (req : Request) (w : World) :
  effect out req w (stopRecording out (p_room req) (p_egressId req) w).2.
Proof.
  destruct (resolve_total (p_room req) (p_egressId req) w)
    as (target & info & Hres & _).
  rewrite (stop_after_resolve _ _ _ _ _ _ Hres). unfold stop_resolved.
  destruct (truthy target); cbn [negb]; [|apply effect_none; auto].
  destruct (reply out) as [id|e] eqn:Hreply.
  - destruct (truthy (p_room req)) eqn:Hroom.
    + destruct (truthy_Some_inv _ Hroom) as (room & Hp & Hne).
      eapply effect_delete; eauto. cbn [snd activeRecordings].
      rewrite Hp. reflexivity.
    + apply effect_none; [reflexivity|]. right. eexists. reflexivity.
  - apply effect_none; [reflexivity|]. right. eexists. reflexivity.
Qed.

Lemma respond_effect (out : Outside) (req : Request) (m : M Response) (w : World) :
  effect out req w (m w).2 → effect out req w (respond m w).2.
Proof.
  intros [Hm Hc|room id ? ? ? ? Hm Hc|room id acc ? ? ? Hm Hc].
  - apply effect_none; rewrite ?respond_map, ?respond_calls; assumption.
  - eapply effect_insert; rewrite ?respond_map, ?respond_calls; eauto.
  - eapply effect_delete; rewrite ?respond_map, ?respond_calls; eauto.
Qed.

Lemma handler_effect (cfg : Config) (out : Outside) (req : Request) (w : World) :
  effect out req w (handler cfg out req w).2.
Proof.
  assert (Hnone : effect out req w w) by (apply effect_none; auto).
  unfold handler.
  destruct (String.eqb (method req) "OPTIONS"); [exact Hnone|].
  destruct (_ || _); [exact Hnone|].
  destruct (_ || _); [exact Hnone|].
  cbv zeta.
  destruct (match action req with Some a => String.eqb a "start" | None => false end).
  { destruct (truthy (p_room req)) eqn:Hroom; [|exact Hnone].
    destruct (truthy_Some_inv _ Hroom) as (room & Hp & Hne).
    cbn [negb]. rewrite Hp. cbn [default].
    apply respond_effect, start_effect; assumption. }
  destruct (match action req with Some a => String.eqb a "stop" | None => false end).
  { destruct (negb (truthy (p_room req)) && negb (truthy (p_egressId req)));
      [exact Hnone|].
    apply respond_effect, stop_effect. }
  destruct (match action req with Some a => String.eqb a "status" | None => false end).
  { destruct (negb (truthy (p_room req))); exact Hnone. }
  exact Hnone.
Qed.

(** X7. A request never touches the record of a room other than the one
    it names: whatever the request and the reply of the egress service,
    every other room has the record, or none, that it had. *)
Theorem other_rooms_untouched (cfg : Config) (out : Outside) (req : Request)
    (w : World) (other : string) :
  p_room req ≠ Some other →
  activeRecordings (handler cfg out req w).2 !! other
  = activeRecordings w !! other.
Proof.
  intros Hother.
  destruct (handler_effect cfg out req w)
    as [Hm _|room id Hp _ _ _ Hm _|room id acc Hp _ _ Hm _]; rewrite Hm.
  - reflexivity.
  - apply lookup_insert_ne. congruence.
  - apply lookup_delete_ne. congruence.
Qed.

Lemma other_rooms_untouched_witness :
  activeRecordings
    (handler cfg_ok (answers (Resolved "EG_1"))
       (stop_request (Some "room-B") (Some "EG_1")) recording_A).2 !! "room-A"
  = activeRecordings recording_A !! "room-A".
Proof.
  apply (other_rooms_untouched cfg_ok (answers (Resolved "EG_1"))
           (stop_request (Some "room-B") (Some "EG_1")) recording_A "room-A").
  discriminate.
Defined.

(** *** An invariant of the map *)

Lemma or_else_nonempty (v : option string) (d : string) :
  d ≠ "" → or_else v d ≠ "".
Proof.
  intros Hd. unfold or_else. destruct v as [s|]; [|exact Hd].
  destruct (String.eqb_spec s ""); assumption.
Qed.

Lemma handler_well_formed (cfg : Config) (out : Outside) (req : Request)
    (w : World) :
  well_formed w → well_formed (handler cfg out req w).2.
Proof.
  intros Hw room info.
  destruct (handler_effect cfg out req w)
    as [Hm Hc|r id Hp Hne Hnone Hreply Hm Hc|r id acc Hp Hne _ Hm Hc];
    rewrite Hm.
  - intros H. destruct (Hw room info H) as (? & ? & ? & Hin).
    repeat split; try assumption.
    destruct Hc as [->|[c ->]]; [assumption|]. apply in_or_app. auto.
  - destruct (decide (r = room)) as [->|Hdiff].
    + rewrite lookup_insert_eq. intros [= <-]. cbn [startedBy filepath].
      split; [assumption|]. split; [apply or_else_nonempty; discriminate|].
      split; [eauto|]. rewrite Hc. apply in_or_app. right. left. reflexivity.
    + rewrite lookup_insert_ne by assumption. intros H.
      destruct (Hw room info H) as (? & ? & ? & Hin).
      repeat split; try assumption. rewrite Hc. apply in_or_app. auto.
  - intros H. apply lookup_delete_Some in H as [_ H].
    destruct (Hw room info H) as (? & ? & ? & Hin).
    repeat split; try assumption. rewrite Hc. apply in_or_app. auto.
Qed.

(** X8. Whatever requests are made, in whatever order and with whatever
    replies of the egress service, every record in the map has a room name
    that is not empty, a starter that is not empty, the output path of its
    room at some clock reading, and a request to the egress service, made
    earlier, to record that room to that path. *)
Theorem records_stay_well_formed (cfg : Config)
    (requests : list (Outside * Request)) :
  well_formed (run cfg requests idle)
  ∧ (∀ w, well_formed w → well_formed (run cfg requests w)).
Proof.
  assert (Hstep : ∀ w, well_formed w → well_formed (run cfg requests w)).
  { induction requests as [|[out req] rest IH]; intros w Hw; [exact Hw|].
    cbn [run]. apply IH, handler_well_formed, Hw. }
  split; [|exact Hstep].
  apply Hstep. intros room info H. cbn in H.
  rewrite lookup_empty in H. discriminate H.
Qed.

(** *** What a request costs *)

Lemma respond_console (m : M Response) (w : World) :
  (∃ lines, console (m w).2 = (console w ++ lines)%list) →
  ∃ lines, console (respond m w).2 = (console w ++ lines)%list.
Proof.
  unfold respond. intros [lines H].
  destruct (m w) as [[r|e] w']; cbn [snd console] in *.
  - eauto.
  - rewrite H, <- List.app_assoc. eauto.
Qed.

Lemma start_answers (out : Outside) (room : string) (identity : option string)
    (w : World) :
  let r := startRecording out room identity w in
  (∃ existing, activeRecordings w !! room = Some existing
               ∧ r = (Ok (mkResponse 409 (conflict_body existing)), w))
  ∨ (activeRecordings w !! room = None
     ∧ ((∃ id, reply out = Resolved id
               ∧ r.1 = Ok (mkResponse 200
                             (started_body id (output_path room (date_before out))))
               ∧ console r.2
                 = (console w ++ ["Recording started for room: " +:+ room
                                  +:+ ", egressId: " +:+ id])%list)
        ∨ (∃ e, reply out = Rejected e ∧ r.1 = Throw e
                ∧ console r.2 = console w))).
Proof.
  intros r. subst r. destruct (activeRecordings w !! room) as [existing|] eqn:H.
  - left. exists existing. split; [reflexivity|].
    apply start_when_recording, H.
  - right. split; [reflexivity|]. rewrite (start_when_idle _ _ _ _ H).
    destruct (reply out) as [id|e]; [left|right]; eexists; repeat split.
Qed.

Lemma stop_answers (out : Outside) (room egressId_ : option string) (w : World) :
  let r := stopRecording out room egressId_ w in
  r = (Ok (mkResponse 404 not_found_body), w)
  ∨ (∃ id path, r.1 = Ok (mkResponse 200 (stopped_body id path))
                ∧ (path = JUndefined ∨ ∃ p, path = JStr p)
                ∧ console r.2
                  = (console w ++ ["Recording stopped for egressId: " +:+ id])%list)
  ∨ (∃ e, reply out = Rejected e ∧ r.1 = Throw e ∧ console r.2 = console w).
Proof.
  intros r. subst r.
  destruct (resolve_total room egressId_ w) as (target & info & Hres & _).
  rewrite (stop_after_resolve _ _ _ _ _ _ Hres). unfold stop_resolved.
  destruct (truthy target); cbn [negb]; [|left; reflexivity].
  right. destruct (reply out) as [id|e]; [left|right].
  - eexists _, _. split; [reflexivity|]. split; [|reflexivity].
    destruct info; eauto.
  - eexists. repeat split.
Qed.

(** X9. A request sends at most one request to the egress service and
    only adds lines to the console; its answer is one of 200, 400, 404,
    409 and 500; and when the answer is 400, 404 or 409 nothing at all has
    changed: no request was sent, no line written, no record touched. *)
Theorem request_accounting (cfg : Config) (out : Outside) (req : Request)
    (w : World) :
  let r := handler cfg out req w in
  (egressCalls r.2 = egressCalls w
   ∨ ∃ c, egressCalls r.2 = (egressCalls w ++ [c])%list)
  ∧ (∃ lines, console r.2 = (console w ++ lines)%list)
  ∧ (http_status r.1 = 200 ∨ http_status r.1 = 400 ∨ http_status r.1 = 404
     ∨ http_status r.1 = 409 ∨ http_status r.1 = 500)
  ∧ (http_status r.1 = 400 ∨ http_status r.1 = 404 ∨ http_status r.1 = 409 →
     r.2 = w).
Proof.
  intros r. subst r. split.
  { destruct (handler_effect cfg out req w)
      as [_ Hc|? ? _ _ _ _ _ Hc|? ? ? _ _ _ _ Hc]; eauto. }
  assert (Hsame : ∀ code message,
            (code = 400 ∨ code = 500) →
            let r := (error_response code message, w) in
            (∃ lines, console r.2 = (console w ++ lines)%list)
            ∧ (http_status r.1 = 200 ∨ http_status r.1 = 400
               ∨ http_status r.1 = 404 ∨ http_status r.1 = 409
               ∨ http_status r.1 = 500)
            ∧ (http_status r.1 = 400 ∨ http_status r.1 = 404
               ∨ http_status r.1 = 409 → r.2 = w)).
  { intros code message Hcode. cbn. split; [exists []; symmetry; apply List.app_nil_r|].
    split; [destruct Hcode as [->| ->]; auto|reflexivity]. }
  unfold handler.
  destruct (String.eqb (method req) "OPTIONS").
  { cbn. split; [exists []; symmetry; apply List.app_nil_r|]. split; auto. }
  destruct (_ || _); [apply Hsame; auto|].
  destruct (_ || _); [apply Hsame; auto|].
  cbv zeta.
  destruct (match action req with Some a => String.eqb a "start" | None => false end).
  { destruct (negb (truthy (p_room req))); [apply Hsame; auto|].
    unfold respond.
    destruct (start_answers out (default "" (p_room req)) (p_identity req) w)
      as [(existing & _ & ->)|(_ & [(id & _ & E & Hcon)|(e & _ & E & Hcon)])].
    - cbn. split; [exists []; symmetry; apply List.app_nil_r|]. split; auto 6.
    - destruct (startRecording _ _ _ w) as [res w']. cbn [fst snd] in *.
      subst res. cbn. split; [eauto|]. split; [auto|].
      intros [H|[H|H]]; discriminate H.
    - destruct (startRecording _ _ _ w) as [res w']. cbn [fst snd] in *.
      subst res. cbn. split; [rewrite Hcon; eauto|]. split; [auto 6|].
      intros [H|[H|H]]; discriminate H. }
  destruct (match action req with Some a => String.eqb a "stop" | None => false end).
  { destruct (negb (truthy (p_room req)) && negb (truthy (p_egressId req)));
      [apply Hsame; auto|].
    unfold respond.
    destruct (stop_answers out (p_room req) (p_egressId req) w)
      as [->|[(id & path & E & _ & Hcon)|(e & _ & E & Hcon)]].
    - cbn. split; [exists []; symmetry; apply List.app_nil_r|]. split; auto 6.
    - destruct (stopRecording _ _ _ w) as [res w']. cbn [fst snd] in *.
      subst res. cbn. split; [eauto|]. split; [auto|].
      intros [H|[H|H]]; discriminate H.
    - destruct (stopRecording _ _ _ w) as [res w']. cbn [fst snd] in *.
      subst res. cbn. split; [rewrite Hcon; eauto|]. split; [auto 6|].
      intros [H|[H|H]]; discriminate H. }
  destruct (match action req with Some a => String.eqb a "status" | None => false end).
  { destruct (negb (truthy (p_room req))); [apply Hsame; auto|].
    unfold respond. rewrite status_lookup. cbn.
    split; [exists []; symmetry; apply List.app_nil_r|]. split; [auto|].
    intros [H|[H|H]]; discriminate H. }
  apply Hsame; auto.
Qed.

(** X10. Without all five credentials of the deployment the endpoint does
    nothing: every request other than a preflight is answered 500 with a
    configuration error, sends nothing to the egress service and leaves
    the map, and the rest of the world, as it was. *)
Theorem unconfigured_does_nothing (cfg : Config) (out : Outside) (req : Request)
    (w : World) :
  configured cfg = false → method req ≠ "OPTIONS" →
  (handler cfg out req w).2 = w
  ∧ ∃ message,
      (handler cfg out req w).1 = error_response 500 message
      ∧ (message = "Server not configured. Missing LiveKit credentials."
         ∨ message
           = "Server not configured. Missing Azure Blob Storage credentials.").
Proof.
  intros Hcfg Hm%String.eqb_neq. unfold handler, configured in *. rewrite Hm.
  destruct (truthy (LIVEKIT_API_KEY cfg)), (truthy (LIVEKIT_API_SECRET cfg));
    cbn [negb orb andb] in *; eauto.
  destruct (truthy (AZURE_ACCOUNT_NAME cfg)), (truthy (AZURE_ACCOUNT_KEY cfg)),
    (truthy (AZURE_CONTAINER_NAME cfg));
    cbn [negb orb andb] in *; eauto; discriminate Hcfg.
Qed.

Lemma unconfigured_does_nothing_witness :
  (handler (mkConfig (Some "APIkey") (Some "secret") (Some "account") None
              (Some "container"))
     (answers (Resolved "EG_1")) (start_request "room-A" None) idle).2 = idle.
Proof.
  exact (proj1 (unconfigured_does_nothing
                  (mkConfig (Some "APIkey") (Some "secret") (Some "account")
                     None (Some "container"))
                  (answers (Resolved "EG_1")) (start_request "room-A" None)
                  idle eq_refl ltac:(discriminate))).
Defined.

(** *** What a request sees of the world *)

Lemma start_same_map (out : Outside) (room : string) (identity : option string)
    (w1 w2 : World) :
  same_map w1 w2 →
  (startRecording out room identity w1).1 = (startRecording out room identity w2).1
  ∧ same_map (startRecording out room identity w1).2
             (startRecording out room identity w2).2.
Proof.
  unfold same_map. intros Hsame.
  destruct (activeRecordings w1 !! room) as [existing|] eqn:H1.
  - assert (H2 : activeRecordings w2 !! room = Some existing) by congruence.
    rewrite (start_when_recording _ _ _ _ _ H1),
      (start_when_recording _ _ _ _ _ H2). auto.
  - assert (H2 : activeRecordings w2 !! room = None) by congruence.
    rewrite (start_when_idle _ _ _ _ H1), (start_when_idle _ _ _ _ H2).
    destruct (reply out); cbn; rewrite ?Hsame; auto.
Qed.

Lemma resolve_same_map (room egressId_ : option string) (w1 w2 : World) :
  same_map w1 w2 →
  ∃ target info,
    resolve room egressId_ w1 = (Ok (target, info), w1)
    ∧ resolve room egressId_ w2 = (Ok (target, info), w2).
Proof.
  unfold same_map. intros Hsame. destruct (truthy room) eqn:Ht.
  - destruct room as [r|]; [|discriminate Ht]. apply truthy_Some in Ht.
    destruct (activeRecordings w1 !! r) as [rec|] eqn:H1.
    + exists (Some (egressId rec)), (Some rec). split.
      * eapply resolve_record; eauto.
      * eapply resolve_record; eauto. rewrite <- Hsame. exact H1.
    + exists egressId_, None. split.
      * apply resolve_no_record. right. exact H1.
      * apply resolve_no_record. right. cbn [default].
        rewrite <- Hsame. exact H1.
  - exists egressId_, None. split; apply resolve_no_record; left; exact Ht.
Qed.

Lemma stop_same_map (out : Outside) (room egressId_ : option string)
    (w1 w2 : World) :
  same_map w1 w2 →
  (stopRecording out room egressId_ w1).1 = (stopRecording out room egressId_ w2).1
  ∧ same_map (stopRecording out room egressId_ w1).2
             (stopRecording out room egressId_ w2).2.
Proof.
  intros Hsame.
  destruct (resolve_same_map room egressId_ w1 w2 Hsame)
    as (target & info & E1 & E2).
  rewrite (stop_after_resolve _ _ _ _ _ _ E1),
    (stop_after_resolve _ _ _ _ _ _ E2).
  unfold stop_resolved, same_map in *.
  destruct (truthy target); cbn [negb]; [|auto].
  destruct (reply out); cbn; [|auto].
  destruct (truthy room); rewrite ?Hsame; auto.
Qed.

Lemma respond_same_map (m : M Response) (w1 w2 : World) :
  (m w1).1 = (m w2).1 ∧ same_map (m w1).2 (m w2).2 →
  (respond m w1).1 = (respond m w2).1
  ∧ same_map (respond m w1).2 (respond m w2).2.
Proof.
  unfold respond, same_map.
  destruct (m w1) as [[r1|e1] w1'], (m w2) as [[r2|e2] w2']; cbn;
    intros [[= ->] Hmap]; auto.
Qed.

Lemma handler_same_map (cfg : Config) (out : Outside) (req : Request)
    (w1 w2 : World) :
  same_map w1 w2 →
  (handler cfg out req w1).1 = (handler cfg out req w2).1
  ∧ same_map (handler cfg out req w1).2 (handler cfg out req w2).2.
Proof.
  intros Hsame. unfold handler.
  destruct (String.eqb (method req) "OPTIONS"); [auto|].
  destruct (_ || _); [auto|].
  destruct (_ || _); [auto|].
  cbv zeta.
  destruct (match action req with Some a => String.eqb a "start" | None => false end).
  { destruct (negb (truthy (p_room req))); [auto|].
    apply respond_same_map, start_same_map, Hsame. }
  destruct (match action req with Some a => String.eqb a "stop" | None => false end).
  { destruct (negb (truthy (p_room req)) && negb (truthy (p_egressId req)));
      [auto|].
    apply respond_same_map, stop_same_map, Hsame. }
  destruct (match action req with Some a => String.eqb a "status" | None => false end).
  { destruct (negb (truthy (p_room req))); [auto|].
    apply respond_same_map. rewrite !status_lookup.
    unfold same_map in *. cbn. rewrite Hsame. auto. }
  auto.
Qed.

(** X11. The answer to a request and the map after it depend on the world
    only through the map: two worlds with the same map, whatever their
    histories of egress requests and console lines, give the same answer
    and the same map again. *)
Theorem answers_depend_on_map_only (cfg : Config) (out : Outside)
    (req : Request) (w1 w2 : World) :
  activeRecordings w1 = activeRecordings w2 →
  (handler cfg out req w1).1 = (handler cfg out req w2).1
  ∧ activeRecordings (handler cfg out req w1).2
    = activeRecordings (handler cfg out req w2).2.
Proof. apply handler_same_map. Qed.

Lemma answers_depend_on_map_only_witness :
  (handler cfg_ok (answers (Resolved "EG_2")) (start_request "room-A" None)
     recording_A).1
  = (handler cfg_ok (answers (Resolved "EG_2")) (start_request "room-A" None)
       (mkWorld (activeRecordings recording_A) [StopEgress "EG_0"] ["line"])).1.
Proof.
  exact (proj1 (answers_depend_on_map_only cfg_ok (answers (Resolved "EG_2"))
                  (start_request "room-A" None) recording_A
                  (mkWorld (activeRecordings recording_A) [StopEgress "EG_0"]
                     ["line"]) eq_refl)).
Defined.

(** X13. A request that the egress service rejected is invisible to the
    requests that follow: whatever is asked next is answered as if the
    rejected request had never been made, and leaves the same map. *)
Theorem rejected_request_is_invisible (cfg : Config) (out : Outside)
    (req : Request) (w : World) (message : string)
    (out' : Outside) (req' : Request) :
  reply out = Rejected message →
  (handler cfg out' req' (handler cfg out req w).2).1
  = (handler cfg out' req' w).1
  ∧ activeRecordings (handler cfg out' req' (handler cfg out req w).2).2
    = activeRecordings (handler cfg out' req' w).2.
Proof.
  intros Hrej. apply handler_same_map. unfold same_map.
  destruct (handler_effect cfg out req w)
    as [Hm _|room id _ _ _ Hreply _ _|room id acc _ _ Hreply _ _].
  - exact Hm.
  - congruence.
  - congruence.
Qed.

Lemma rejected_request_is_invisible_witness :
  (handler cfg_ok (answers (Resolved "EG_2")) (start_request "room-A" None)
     (handler cfg_ok (answers (Rejected "egress unavailable"))
        (start_request "room-A" None) idle).2).1
  = (handler cfg_ok (answers (Resolved "EG_2")) (start_request "room-A" None)
       idle).1.
Proof.
  exact (proj1 (rejected_request_is_invisible cfg_ok
                  (answers (Rejected "egress unavailable"))
                  (start_request "room-A" None) idle "egress unavailable"
                  (answers (Resolved "EG_2")) (start_request "room-A" None)
                  eq_refl)).
Defined.

(** *** The answers on the wire *)

Lemma object_wire (props : list (string * jsval)) :
  ∃ text,
    wire (Some (JObj props)) = Some text
    ∧ parse text = Some (prune (JObj props)).
Proof.
  eexists. split; [reflexivity|]. apply parse_stringify_prune. reflexivity.
Qed.

Lemma handler_sendable (cfg : Config) (out : Outside) (req : Request)
    (w : World) (body : jsval) :
  http_body (handler cfg out req w).1 = Some body → sendable body.
Proof.
  assert (Herr : ∀ code message b,
            http_body (error_response code message, w).1 = Some b → sendable b).
  { intros code message b [= <-]. apply sendable_plain. reflexivity. }
  unfold handler.
  destruct (String.eqb (method req) "OPTIONS"); [discriminate|].
  destruct (_ || _); [apply Herr|].
  destruct (_ || _); [apply Herr|].
  cbv zeta.
  destruct (match action req with Some a => String.eqb a "start" | None => false end).
  { destruct (negb (truthy (p_room req))); [apply Herr|].
    unfold respond.
    destruct (start_answers out (default "" (p_room req)) (p_identity req) w)
      as [(existing & _ & ->)|(_ & [(id & _ & E & _)|(e & _ & E & _)])].
    - intros [= <-]. apply sendable_plain. reflexivity.
    - destruct (startRecording _ _ _ w) as [res w']. cbn [fst snd] in *.
      subst res. intros [= <-]. apply sendable_plain. reflexivity.
    - destruct (startRecording _ _ _ w) as [res w']. cbn [fst snd] in *.
      subst res. intros [= <-]. apply sendable_plain. reflexivity. }
  destruct (match action req with Some a => String.eqb a "stop" | None => false end).
  { destruct (negb (truthy (p_room req)) && negb (truthy (p_egressId req)));
      [apply Herr|].
    unfold respond.
    destruct (stop_answers out (p_room req) (p_egressId req) w)
      as [->|[(id & path & E & Hpath & _)|(e & _ & E & _)]].
    - intros [= <-]. apply sendable_plain. reflexivity.
    - destruct (stopRecording _ _ _ w) as [res w']. cbn [fst snd] in *.
      subst res. intros [= <-]. cbn [Recording.body].
      destruct Hpath as [->|[p ->]];
        [apply sendable_stopped|apply sendable_plain; reflexivity].
    - destruct (stopRecording _ _ _ w) as [res w']. cbn [fst snd] in *.
      subst res. intros [= <-]. apply sendable_plain. reflexivity. }
  destruct (match action req with Some a => String.eqb a "status" | None => false end).
  { destruct (negb (truthy (p_room req))); [apply Herr|].
    unfold respond. rewrite status_lookup. intros [= <-]. cbn [Recording.body].
    destruct (activeRecordings w !! default "" (p_room req));
      apply sendable_plain; reflexivity. }
  apply Herr.
Qed.

(** X15. Every body the endpoint sends is a JSON object that has a text,
    and a client that parses the text reads the body as it was built,
    with one exception: the answer to a [stop] that found no record has
    no filepath property on the wire. *)
Theorem answers_are_json (cfg : Config) (out : Outside) (req : Request)
    (w : World) (body : jsval) :
  http_body (handler cfg out req w).1 = Some body →
  ∃ text seen,
    wire (Some body) = Some text
    ∧ parse text = Some seen
    ∧ (seen = body
       ∨ ∃ id, body = stopped_body id JUndefined ∧ seen = stopped_wire id).
Proof.
  intros H. destruct (handler_sendable _ _ _ _ _ H) as [props Hprune|id].
  - destruct (object_wire props) as (text & Htext & Hparse).
    exists text, (JObj props). rewrite Hparse, Hprune. auto.
  - destruct (object_wire [("success", JBool true); ("egressId", JStr id);
                           ("filepath", JUndefined);
                           ("message", JStr "Recording stopped")])
      as (text & Htext & Hparse).
    exists text, (stopped_wire id). split; [exact Htext|].
    split; [exact Hparse|]. right. eauto.
Qed.

Lemma answers_are_json_witness :
  ∃ text seen,
    wire (Some (stopped_body "EG_9" JUndefined)) = Some text
    ∧ parse text = Some seen
    ∧ (seen = stopped_body "EG_9" JUndefined
       ∨ ∃ id, stopped_body "EG_9" JUndefined = stopped_body id JUndefined
               ∧ seen = stopped_wire id).
Proof.
  exact (answers_are_json cfg_ok (answers (Resolved "EG_9"))
           (stop_request None (Some "EG_9")) idle
           (stopped_body "EG_9" JUndefined) eq_refl).
Defined.

(** *** Stopping by session id alone *)

(** X12. After an accepted [start] of a room, an accepted [stop] that
    names only the session id stops that session at the egress service
    and answers 200 without an output path, but the room keeps its
    record: [status] still reports it as recording with that session id,
    and every further [start] of the room is answered 409. *)
Theorem stop_by_session_id_orphans_record (out1 out2 out3 : Outside)
    (room id accepted : string) (identity identity3 : option string) (w : World) :
  activeRecordings w !! room = None →
  reply out1 = Resolved id → id ≠ "" → reply out2 = Resolved accepted →
  ∃ r1 w1 w2 info,
    startRecording out1 room identity w = (Ok r1, w1)
    ∧ status r1 = 200
    ∧ stopRecording out2 None (Some id) w1
      = (Ok (mkResponse 200 (stopped_body id JUndefined)), w2)
    ∧ egressCalls w2 = (egressCalls w1 ++ [StopEgress id])%list
    ∧ activeRecordings w2 = activeRecordings w1
    ∧ activeRecordings w2 !! room = Some info
    ∧ egressId info = id
    ∧ getRecordingStatus room w2
      = (Ok (mkResponse 200
               (JObj [("isRecording", JBool true);
                      ("egressId", JStr id);
                      ("startedBy", JStr (startedBy info));
                      ("startedAt", JStr (startedAt info))])), w2)
    ∧ startRecording out3 room identity3 w2
      = (Ok (mkResponse 409 (conflict_body info)), w2).
Proof.
  intros Hnone Hreply1 Hid Hreply2.
  destruct (start_succeeds out1 room identity w id Hnone Hreply1)
    as (w1 & E1 & Hmap1 & _).
  pose (info := mkInfo id (or_else identity "unknown")
                  (ISODate.toISOString (date_after out1))
                  (output_path room (date_before out1))).
  assert (Hrec : activeRecordings w1 !! room = Some info)
    by (rewrite Hmap1; apply lookup_insert_eq).
  pose proof (stop_after_resolve out2 None (Some id) w1 (Some id) None
                (resolve_no_record None (Some id) w1 (or_introl eq_refl))) as E2.
  unfold stop_resolved in E2. apply truthy_Some in Hid.
  rewrite Hid, Hreply2 in E2. cbn [negb truthy default] in E2.
  eexists _, w1, _, info.
  split; [exact E1|]. split; [reflexivity|]. split; [exact E2|].
  split; [reflexivity|]. split; [reflexivity|]. split; [exact Hrec|].
  split; [reflexivity|]. split.
  - rewrite status_lookup. cbn [activeRecordings]. rewrite Hrec. reflexivity.
  - apply start_when_recording. exact Hrec.
Qed.

Lemma stop_by_session_id_orphans_record_witness :
  ∃ r1 w1 w2,
    startRecording (answers (Resolved "EG_1")) "room-A" (Some "alice") idle
    = (Ok r1, w1)
    ∧ stopRecording (answers (Resolved "EG_1")) None (Some "EG_1") w1
      = (Ok (mkResponse 200 (stopped_body "EG_1" JUndefined)), w2)
    ∧ (∃ info, activeRecordings w2 !! "room-A" = Some info).
Proof.
  destruct (stop_by_session_id_orphans_record
              (answers (Resolved "EG_1")) (answers (Resolved "EG_1"))
              (answers (Resolved "EG_2")) "room-A" "EG_1" "EG_1"
              (Some "alice") None idle (idle_lookup "room-A") eq_refl
              ltac:(discriminate) eq_refl)
    as (r1 & w1 & w2 & info & E1 & _ & E2 & _ & _ & Hrec & _).
  exists r1, w1, w2. split; [exact E1|]. split; [exact E2|]. eauto.
Defined.

(** *** Who started a recording *)

(** X14. The starter of a recording is the identity of the [start]
    request, and the word unknown when the request has no identity or an
    empty one; this is what [status] and the 409 of a later [start]
    report. *)
Theorem starter_defaults_to_unknown (out out' : Outside) (room id : string)
    (identity identity' : option string) (w : World) :
  activeRecordings w !! room = None → reply out = Resolved id →
  ∃ r1 w1 starter,
    startRecording out room identity w = (Ok r1, w1)
    ∧ starter = match identity with
                | Some name => if String.eqb name "" then "unknown" else name
                | None => "unknown"
                end
    ∧ starter ≠ ""
    ∧ (∃ r, getRecordingStatus room w1 = (Ok r, w1)
            ∧ JSON.get "startedBy" (body r) = JStr starter)
    ∧ (∃ r, startRecording out' room identity' w1 = (Ok r, w1)
            ∧ status r = 409
            ∧ JSON.get "startedBy" (body r) = JStr starter).
Proof.
  intros Hnone Hreply.
  destruct (start_succeeds out room identity w id Hnone Hreply)
    as (w1 & E1 & Hmap1 & _).
  assert (Hrec : activeRecordings w1 !! room
                 = Some (mkInfo id (or_else identity "unknown")
                           (ISODate.toISOString (date_after out))
                           (output_path room (date_before out))))
    by (rewrite Hmap1; apply lookup_insert_eq).
  eexists _, w1, (or_else identity "unknown").
  split; [exact E1|]. split; [reflexivity|].
  split; [apply or_else_nonempty; discriminate|]. split.
  - rewrite status_lookup, Hrec. eexists. split; reflexivity.
  - rewrite (start_when_recording _ _ _ _ _ Hrec). eexists. repeat split.
Qed.

Lemma starter_defaults_to_unknown_witness :
  ∃ r1 w1 r,
    startRecording (answers (Resolved "EG_1")) "room-A" (Some "") idle
    = (Ok r1, w1)
    ∧ getRecordingStatus "room-A" w1 = (Ok r, w1)
    ∧ JSON.get "startedBy" (body r) = JStr "unknown".
Proof.
  destruct (starter_defaults_to_unknown
              (answers (Resolved "EG_1")) (answers (Resolved "EG_2"))
              "room-A" "EG_1" (Some "") None idle (idle_lookup "room-A") eq_refl)
    as (r1 & w1 & starter & E1 & -> & _ & (r & E & Hget) & _).
  exists r1, w1, r. split; [exact E1|]. split; [exact E|exact Hget].
Defined.

(** *** A recording from start to stop *)

(** X22. An accepted [start] of a room, with a name that is not empty
    and no record, followed by an accepted [stop] of that room is a round
    trip on the map when the session id the egress service issued is not
    empty: the stop answers with the session id and the output path the
    start answered with, the egress service has been asked to start and
    then to stop that one session, and the map is again what it was
    before the start. When the session id issued is empty, the stop
    answers 404, sends nothing and the room keeps its record. Either way
    the session id the stop request itself carries is not looked at. *)
Theorem start_stop_round_trip (out1 out2 : Outside) (room id accepted : string)
    (identity egressId_ : option string) (w : World) :
  room ≠ "" → activeRecordings w !! room = None →
  reply out1 = Resolved id → reply out2 = Resolved accepted →
  ∃ w1 path,
    startRecording out1 room identity w
    = (Ok (mkResponse 200 (started_body id path)), w1)
    ∧ (id ≠ "" →
       ∃ w2,
         stopRecording out2 (Some room) egressId_ w1
         = (Ok (mkResponse 200 (stopped_body id (JStr path))), w2)
         ∧ activeRecordings w2 = activeRecordings w
         ∧ egressCalls w2
           = (egressCalls w
              ++ [StartRoomCompositeEgress room path; StopEgress id])%list)
    ∧ (id = "" →
       stopRecording out2 (Some room) egressId_ w1
       = (Ok (mkResponse 404 not_found_body), w1)
       ∧ room_state w1 room = StRecording).
Proof.
  intros Hroom Hnone Hreply1 Hreply2.
  destruct (start_succeeds out1 room identity w id Hnone Hreply1)
    as (w1 & E1 & Hmap1 & Hcalls1).
  set (path := output_path room (date_before out1)) in *.
  set (info := mkInfo id (or_else identity "unknown")
                 (ISODate.toISOString (date_after out1)) path) in *.
  assert (Hrec : activeRecordings w1 !! room = Some info)
    by (rewrite Hmap1; apply lookup_insert_eq).
  pose proof (stop_after_resolve out2 (Some room) egressId_ w1 _ _
                (resolve_record _ egressId_ _ _ _ eq_refl Hroom Hrec)) as E2.
  unfold stop_resolved in E2. cbn [egressId filepath info] in E2.
  exists w1, path. split; [exact E1|]. split.
  - intros Hid. apply truthy_Some in Hid, Hroom.
    rewrite Hid, Hreply2, Hroom in E2. cbn [negb default] in E2.
    eexists. split; [exact E2|].
    cbn [activeRecordings egressCalls]. split.
    + rewrite Hmap1. apply delete_insert_id, Hnone.
    + rewrite Hcalls1, <- List.app_assoc. reflexivity.
  - intros ->. split; [exact E2|].
    apply room_state_recording. eauto.
Qed.

Lemma start_stop_round_trip_witness :
  ∃ w1 w2 path,
    startRecording (answers (Resolved "EG_1")) "room-A" (Some "alice") idle
    = (Ok (mkResponse 200 (started_body "EG_1" path)), w1)
    ∧ stopRecording (answers (Resolved "EG_1")) (Some "room-A") (Some "EG_7") w1
      = (Ok (mkResponse 200 (stopped_body "EG_1" (JStr path))), w2)
    ∧ activeRecordings w2 = activeRecordings idle.
Proof.
  destruct (start_stop_round_trip
              (answers (Resolved "EG_1")) (answers (Resolved "EG_1"))
              "room-A" "EG_1" "EG_1" (Some "alice") (Some "EG_7") idle
              ltac:(discriminate) (idle_lookup "room-A") eq_refl eq_refl)
    as (w1 & path & E1 & Hstop & _).
  destruct (Hstop ltac:(discriminate)) as (w2 & E2 & Hmap & _).
  exists w1, w2, path. split; [exact E1|]. split; [exact E2|exact Hmap].
Defined.

End RecordingMore.

(** ** The standalone servers *)

Module ServerFacts.

Import JSON JSONPrune Recording Server ServerViews Str StrFacts JSONFacts
  JSONPruneFacts TokenFacts RecordingFacts RecordingMore.

Lemma start_route_parsed (out : Outside) (room identity egressId_ : option string) :
  truthy room = true →
  start_route out (Parsed room identity egressId_)
  = startRecording out (default "" room) identity.
Proof. intros H. unfold start_route. rewrite H. reflexivity. Qed.

Lemma stop_route_parsed (out : Outside) (room identity egressId_ : option string)
    (w : World) :
  negb (truthy room) && negb (truthy egressId_) = false →
  stop_route out (Parsed room identity egressId_) w
  = stopRecording out room egressId_ w.
Proof.
  intros H. unfold stop_route, stopRecording, resolve. rewrite H.
  unfold mbind, M_bind.
  destruct ((if truthy room then Map_has (default "" room) else mret false) w)
    as [[has|e] w']; reflexivity.
Qed.

Lemma guarded_ext (failure log : string) (m m' : M Response) (w : World) :
  m w = m' w → guarded failure log m w = guarded failure log m' w.
Proof. unfold guarded. intros ->. reflexivity. Qed.

Lemma start_not_500 (out : Outside) (room : string) (identity : option string)
    (w : World) (r : Response) :
  (startRecording out room identity w).1 = Ok r → status r ≠ 500.
Proof.
  destruct (start_answers out room identity w)
    as [(existing & _ & ->)|(_ & [(id & _ & -> & _)|(e & _ & -> & _)])];
    intros [= <-]; discriminate.
Qed.

Lemma stop_not_500 (out : Outside) (room egressId_ : option string)
    (w : World) (r : Response) :
  (stopRecording out room egressId_ w).1 = Ok r → status r ≠ 500.
Proof.
  destruct (stop_answers out room egressId_ w)
    as [->|[(id & path & -> & _)|(e & _ & -> & _)]];
    intros [= <-]; discriminate.
Qed.

Lemma guarded_agree (failure log : string) (m : M Response) (w : World) :
  (∀ r, (m w).1 = Ok r → status r ≠ 500) →
  agree (guarded failure log m w) (respond m w).
Proof.
  unfold agree, guarded, respond. intros H.
  destruct (m w) as [[r|e] w']; cbn [fst snd http_status http_body
    activeRecordings egressCalls] in *.
  - repeat split; auto. intros E. destruct (H r eq_refl E).
  - repeat split; auto; [congruence|]. intros _. eauto.
Qed.

Lemma is_route_method (req : Server.Request) (path verb : string) :
  is_route req path verb = true →
  Server.pathname req = path ∧ Server.method req = verb.
Proof.
  unfold is_route. intros [H1 H2]%andb_true_iff.
  apply String.eqb_eq in H1, H2. auto.
Qed.

Lemma server_start (env : Token.Env) (out : Outside) (req : Server.Request)
    (w : World) :
  is_route req "/start-recording" "POST" = true →
  server env out req w
  = guarded "Failed to start recording" "Error starting recording: "
      (start_route out (Server.body req)) w.
Proof.
  intros H. unfold server. destruct (is_route_method _ _ _ H) as [Hp Hm].
  rewrite H. unfold is_route. rewrite Hp, Hm. reflexivity.
Qed.

Lemma server_stop (env : Token.Env) (out : Outside) (req : Server.Request)
    (w : World) :
  is_route req "/stop-recording" "POST" = true →
  server env out req w
  = guarded "Failed to stop recording" "Error stopping recording: "
      (stop_route out (Server.body req)) w.
Proof.
  intros H. unfold server. destruct (is_route_method _ _ _ H) as [Hp Hm].
  rewrite H. unfold is_route. rewrite Hp, Hm. reflexivity.
Qed.

Lemma server_status (env : Token.Env) (out : Outside) (req : Server.Request)
    (w : World) :
  is_route req "/recording-status" "GET" = true →
  server env out req w = status_route req w.
Proof.
  intros H. unfold server. destruct (is_route_method _ _ _ H) as [Hp Hm].
  rewrite H. unfold is_route. rewrite Hp, Hm. reflexivity.
Qed.

Lemma server_token (env : Token.Env) (out : Outside) (req : Server.Request)
    (w : World) :
  is_route req "/token" "GET" = true →
  server env out req w = token_route env req w.
Proof.
  intros H. unfold server. destruct (is_route_method _ _ _ H) as [Hp Hm].
  rewrite H. rewrite Hm. reflexivity.
Qed.

Lemma agree_refl (a : HttpResponse * World) :
  http_status a.1 ≠ 500 → agree a a.
Proof. intros H. unfold agree. repeat split; auto. intros E. destruct (H E). Qed.

(** X16. The recording routes of the standalone server and the actions of
    the serverless endpoint are the same operations: for a request whose
    body parsed, and a fully configured endpoint, both give the same
    status, leave the same map and send the same requests to the egress
    service; unless the status is 500 the answers and the console are
    equal too, and at 500 the bodies carry the same details under a
    different error text. *)
Theorem recording_routes_agree (env : Token.Env) (cfg : Config) (out : Outside)
    (req : Server.Request) (act : Recording.Request) (w : World) :
  as_action req = Some act →
  configured cfg = true →
  agree (server env out req w) (handler cfg out act w).
Proof.
  intros Hact Hcfg. destruct (configured_checks cfg Hcfg) as [Hk Ha].
  unfold as_action in Hact.
  destruct (is_route req "/start-recording" "POST") eqn:Hstart.
  { destruct (Server.body req) as [room identity eg|e] eqn:Hbody; [|discriminate].
    injection Hact as <-. rewrite (server_start _ _ _ _ Hstart), Hbody.
    unfold handler. cbn [Recording.method action p_room p_identity String.eqb Ascii.eqb
      Bool.eqb]. rewrite Hk, Ha. cbv zeta. cbn [String.eqb Ascii.eqb Bool.eqb].
    destruct (truthy room) eqn:Hroom; cbn [negb].
    - rewrite (start_route_parsed _ _ _ _ Hroom).
      apply guarded_agree. apply start_not_500.
    - unfold start_route. rewrite Hroom. apply agree_refl. discriminate. }
  destruct (is_route req "/stop-recording" "POST") eqn:Hstop.
  { destruct (Server.body req) as [room identity eg|e] eqn:Hbody; [|discriminate].
    injection Hact as <-. rewrite (server_stop _ _ _ _ Hstop), Hbody.
    unfold handler. cbn [Recording.method action p_room p_egressId String.eqb Ascii.eqb
      Bool.eqb]. rewrite Hk, Ha. cbv zeta. cbn [String.eqb Ascii.eqb Bool.eqb].
    destruct (negb (truthy room) && negb (truthy eg)) eqn:Hmiss.
    - unfold stop_route. rewrite Hmiss. apply agree_refl. discriminate.
    - rewrite (guarded_ext _ _ _ _ _ (stop_route_parsed out _ identity _ w Hmiss)).
      apply guarded_agree. apply stop_not_500. }
  destruct (is_route req "/recording-status" "GET") eqn:Hstatus; [|discriminate].
  injection Hact as <-. rewrite (server_status _ _ _ _ Hstatus).
  unfold handler. cbn [Recording.method action p_room String.eqb Ascii.eqb Bool.eqb].
  rewrite Hk, Ha. cbv zeta. cbn [String.eqb Ascii.eqb Bool.eqb].
  unfold status_route. destruct (negb (truthy (Server.q_room req))).
  - apply agree_refl. discriminate.
  - unfold respond. rewrite status_lookup. apply agree_refl. discriminate.
Qed.

Lemma recording_routes_agree_witness :
  as_action (Server.mkRequest "POST" "/stop-recording" None None
               (Parsed (Some "room-A") None None))
  = Some (stop_request (Some "room-A") None)
  ∧ configured cfg_ok = true
  ∧ agree (server (Token.mkEnv None None 0) (answers (Rejected "gone"))
             (Server.mkRequest "POST" "/stop-recording" None None
                (Parsed (Some "room-A") None None)) recording_A)
          (handler cfg_ok (answers (Rejected "gone"))
             (stop_request (Some "room-A") None) recording_A).
Proof.
  split; [reflexivity|]. split; [reflexivity|].
  apply (recording_routes_agree (Token.mkEnv None None 0) cfg_ok
           (answers (Rejected "gone"))
           (Server.mkRequest "POST" "/stop-recording" None None
              (Parsed (Some "room-A") None None))
           (stop_request (Some "room-A") None) recording_A);
    reflexivity.
Defined.

(** *** What the standalone server never does *)

Lemma guarded_untouched (failure log : string) (m : M Response) (w : World) :
  activeRecordings (m w).2 = activeRecordings w →
  egressCalls (m w).2 = egressCalls w →
  activeRecordings (guarded failure log m w).2 = activeRecordings w
  ∧ egressCalls (guarded failure log m w).2 = egressCalls w.
Proof.
  unfold guarded. destruct (m w) as [[r|e] w']; cbn [snd activeRecordings
    egressCalls]; auto.
Qed.

Lemma token_route_untouched (env : Token.Env) (req : Server.Request) (w : World) :
  activeRecordings (token_route env req w).2 = activeRecordings w
  ∧ egressCalls (token_route env req w).2 = egressCalls w.
Proof.
  unfold token_route. destruct (_ || _); [auto|]. cbv zeta.
  destruct (Token.createToken _ _ _); auto.
Qed.

(** X17. Only a POST to one of the two recording routes, with a body that
    parsed and names what the route needs, can reach the egress service or
    the map: every other request to the standalone server, a malformed
    body included, leaves both as they were. A malformed body on a
    recording route is answered with 500 and the parser's message. *)
Theorem only_recording_posts_act (env : Token.Env) (out : Outside)
    (req : Server.Request) (w : World) :
  let r := server env out req w in
  (may_record req
   ∨ (activeRecordings r.2 = activeRecordings w
      ∧ egressCalls r.2 = egressCalls w))
  ∧ (∀ e, Server.body req = Malformed e →
          is_route req "/start-recording" "POST"
          || is_route req "/stop-recording" "POST" = true →
          http_status r.1 = 500
          ∧ ∃ text,
              http_body r.1
              = Some (JObj [("error", JStr text); ("details", JStr e)])).
Proof.
  cbv zeta. split.
  - destruct (String.eqb (Server.method req) "OPTIONS") eqn:Hopt.
    { right. unfold server. rewrite Hopt. auto. }
    destruct (is_route req "/token" "GET") eqn:Htoken.
    { right. rewrite (server_token _ _ _ _ Htoken). apply token_route_untouched. }
    destruct (is_route req "/start-recording" "POST") eqn:Hstart.
    { rewrite (server_start _ _ _ _ Hstart).
      destruct (is_route_method _ _ _ Hstart) as [Hp Hm].
      destruct (Server.body req) as [room identity eg|e] eqn:Hbody.
      - destruct (truthy room) eqn:Hroom.
        + left. split; [exact Hm|]. exists room, identity, eg. auto.
        + right. apply guarded_untouched; unfold start_route; rewrite Hroom;
            reflexivity.
      - right. apply guarded_untouched; reflexivity. }
    destruct (is_route req "/stop-recording" "POST") eqn:Hstop.
    { rewrite (server_stop _ _ _ _ Hstop).
      destruct (is_route_method _ _ _ Hstop) as [Hp Hm].
      destruct (Server.body req) as [room identity eg|e] eqn:Hbody.
      - destruct (truthy room || truthy eg) eqn:Hany.
        + left. split; [exact Hm|]. exists room, identity, eg. auto.
        + right. apply orb_false_elim in Hany as [Hroom Heg].
          apply guarded_untouched; unfold stop_route; rewrite Hroom, Heg;
            reflexivity.
      - right. apply guarded_untouched; reflexivity. }
    right. unfold server. rewrite Hopt, Htoken, Hstart, Hstop.
    destruct (is_route req "/recording-status" "GET"); [|auto].
    unfold status_route. destruct (negb _); auto.
  - intros e Hbody Hroute.
    destruct (is_route req "/start-recording" "POST") eqn:Hstart.
    { rewrite (server_start _ _ _ _ Hstart), Hbody. split; [reflexivity|].
      eexists. reflexivity. }
    cbn [orb] in Hroute.
    rewrite (server_stop _ _ _ _ Hroute), Hbody. split; [reflexivity|].
    eexists. reflexivity.
Qed.

(** *** The three token endpoints *)

Lemma token_route_request (env : Token.Env) (out : Outside)
    (identity room : option string) (w : World) :
  server env out (token_request identity room) w
  = token_route env (token_request identity room) w.
Proof. reflexivity. Qed.

(** X18. With both credentials set, and the secret not the placeholder of
    token-server.js, the three token endpoints give the same answer to the
    same request: the same status and the same body, so the same
    credential. The combined server changes neither the map nor the
    requests sent to the egress service. *)
Theorem token_routes_agree (env : Token.Env) (out : Outside)
    (identity room : option string) (w : World) :
  truthy (Token.LIVEKIT_API_KEY env) = true →
  truthy (Token.LIVEKIT_API_SECRET env) = true →
  Token.LIVEKIT_API_SECRET env ≠ Some placeholder →
  let a := Token.handler env (token_handler_request identity room) in
  let r := server env out (token_request identity room) w in
  TokenServer.server env (token_server_request identity room) = a
  ∧ r.1 = mkHttp (Token.status a) (Token.body a)
  ∧ activeRecordings r.2 = activeRecordings w
  ∧ egressCalls r.2 = egressCalls w.
Proof.
  intros Hkey Hsecret Hplace. cbv zeta. rewrite token_route_request.
  unfold Token.handler, TokenServer.server, token_route, TokenServer.answer,
    error_response, token_handler_request, token_server_request, token_request.
  cbn [Token.method TokenServer.method TokenServer.pathname Server.q_identity
    Server.q_room Token.q_identity Token.q_room TokenServer.q_identity
    TokenServer.q_room].
  change (String.eqb "GET" "OPTIONS") with false.
  change (String.eqb "/token" "/token" && String.eqb "GET" "GET") with true.
  cbv iota. rewrite Hkey, Hsecret. cbn [negb orb].
  destruct (negb (truthy identity) || negb (truthy room)); [auto|].
  destruct env as [key [secret|] ms]; cbn [Token.LIVEKIT_API_SECRET] in *;
    [|discriminate].
  destruct (String.eqb_spec secret "YOUR_API_SECRET_HERE") as [->|_].
  { destruct Hplace. reflexivity. }
  rewrite createToken_Some. cbv zeta. auto.
Qed.

Lemma token_routes_agree_witness :
  ∃ token,
    TokenServer.server (Token.mkEnv (Some "APIkey") (Some "secret") 1700000000123)
      (token_server_request (Some "alice") (Some "room-A"))
    = Token.mkResponse 200 (Some (JObj [("token", JStr token)]))
    ∧ (server (Token.mkEnv (Some "APIkey") (Some "secret") 1700000000123)
         (answers (Rejected "unused")) (token_request (Some "alice") (Some "room-A"))
         idle).1
      = mkHttp 200 (Some (JObj [("token", JStr token)])).
Proof.
  destruct (token_routes_agree
              (Token.mkEnv (Some "APIkey") (Some "secret") 1700000000123)
              (answers (Rejected "unused")) (Some "alice") (Some "room-A") idle)
    as (H1 & H2 & _); [reflexivity|reflexivity|discriminate|].
  eexists. split; [exact H1|exact H2].
Defined.

(** X19. The standalone servers do not check the credentials the
    serverless endpoint checks. For a request that names an identity and
    a room, the combined server grants a credential exactly when the
    secret is set, and token-server.js exactly when it is set and is not
    the placeholder, and both answer 500 otherwise: with the secret unset
    the failure answer of the catch clause, and token-server.js with the
    placeholder its own configuration error. So with the API key unset or
    the secret empty both still answer 200, with the same credential,
    where the serverless endpoint answers 500. *)
Theorem standalone_token_checks (env : Token.Env) (out : Outside)
    (identity room : option string) (w : World) :
  truthy identity = true → truthy room = true →
  let a := (server env out (token_request identity room) w).1 in
  let b := TokenServer.server env (token_server_request identity room) in
  let c := Token.handler env (token_handler_request identity room) in
  (http_status a = 200 ↔ Token.LIVEKIT_API_SECRET env ≠ None)
  ∧ (Token.status b = 200
     ↔ Token.LIVEKIT_API_SECRET env ≠ None
       ∧ Token.LIVEKIT_API_SECRET env ≠ Some placeholder)
  ∧ (http_status a = 200 ∨ http_status a = 500)
  ∧ (Token.status c = 200 → http_status a = 200 ∧ http_body a = Token.body c)
  ∧ (truthy (Token.LIVEKIT_API_KEY env) && truthy (Token.LIVEKIT_API_SECRET env)
     = false → Token.status c = 500)
  ∧ (Token.status b = 200 ∨ Token.status b = 500)
  ∧ (Token.status b = 200 → Token.body b = http_body a)
  ∧ (Token.LIVEKIT_API_SECRET env = None →
     a = error_response 500 "Failed to generate token"
     ∧ b = TokenServer.answer 500 "Failed to generate token")
  ∧ (Token.LIVEKIT_API_SECRET env = Some placeholder →
     b = TokenServer.answer 500
           "Token server not configured. Please set LIVEKIT_API_SECRET in token-server.js").
Proof.
  intros Hid Hroom. cbv zeta. rewrite token_route_request.
  unfold Token.handler, TokenServer.server, token_route, TokenServer.answer,
    error_response, token_handler_request, token_server_request, token_request.
  cbn [Token.method TokenServer.method TokenServer.pathname Server.q_identity
    Server.q_room Token.q_identity Token.q_room TokenServer.q_identity
    TokenServer.q_room].
  change (String.eqb "GET" "OPTIONS") with false.
  change (String.eqb "/token" "/token" && String.eqb "GET" "GET") with true.
  cbv iota. rewrite Hid, Hroom. cbn [negb orb].
  destruct env as [key [secret|] ms];
    cbn [Token.LIVEKIT_API_SECRET Token.LIVEKIT_API_KEY].
  - rewrite createToken_Some. cbv zeta. cbn [fst http_status http_body].
    split; [split; [discriminate|reflexivity]|].
    split.
    { destruct (String.eqb_spec secret "YOUR_API_SECRET_HERE") as [->|Hne];
        cbn [Token.status TokenServer.answer].
      - split; [discriminate|]. intros [_ H]. destruct H. reflexivity.
      - split; [|reflexivity]. intros _. split; [discriminate|].
        unfold placeholder. congruence. }
    split; [auto|].
    split.
    { destruct (truthy key), (truthy (Some secret)); cbn [negb orb andb
        Token.status Token.body]; split; auto; discriminate. }
    split.
    { destruct (truthy key), (truthy (Some secret)); cbn [negb orb andb
        Token.status]; intros; try reflexivity; discriminate. }
    destruct (String.eqb_spec secret "YOUR_API_SECRET_HERE") as [->|Hne];
      cbn [Token.status Token.body].
    + split; [auto|]. split; [discriminate|]. split; [discriminate|reflexivity].
    + split; [auto|]. split; [reflexivity|]. split; [discriminate|].
      unfold placeholder. congruence.
  - rewrite TokenMore.createToken_None. cbn [fst http_status http_body Token.status].
    split; [split; [discriminate|intros H; destruct H; reflexivity]|].
    split; [split; [discriminate|intros [H _]; destruct H; reflexivity]|].
    split; [auto|].
    cbn [truthy]. rewrite andb_false_r, orb_true_r. cbn [Token.status].
    split; [discriminate|]. split; [reflexivity|].
    split; [auto|]. split; [discriminate|]. split; [|discriminate].
    intros _. split; reflexivity.
Qed.

Lemma standalone_token_checks_witness :
  (http_status
     (server (Token.mkEnv None (Some "") 0) (answers (Rejected "unused"))
        (token_request (Some "alice") (Some "room-A")) idle).1 = 200
   ↔ Some "" ≠ (None : option string))
  ∧ Token.status
      (Token.handler (Token.mkEnv None (Some "") 0)
         (token_handler_request (Some "alice") (Some "room-A"))) = 500.
Proof.
  destruct (standalone_token_checks (Token.mkEnv None (Some "") 0)
              (answers (Rejected "unused")) (Some "alice") (Some "room-A") idle)
    as (H1 & _ & _ & _ & H5 & _); [reflexivity|reflexivity|].
  split; [exact H1|]. apply H5. reflexivity.
Defined.

End ServerFacts.

(** ** Facts about the calendar *)

Module DayFacts.

Import ISODate DayKey.

Local Open Scope Z_scope.

Lemma from_spec (n : nat) (z : Z) (p : Z → bool) :
  from n z p = true → ∀ x, z ≤ x < z + Z.of_nat n → p x = true.
Proof.
  revert z. induction n as [|k IH]; intros z H x Hx; [lia|].
  cbn [from] in H. destruct (p z) eqn:Hz; [|discriminate].
  destruct (Z.eq_dec x z) as [->|Hne]; [exact Hz|].
  apply (IH (z + 1)); [exact H|lia].
Qed.

Lemma days_check : from (Z.to_nat 146096) 0 day_ok = true.
Proof. vm_compute. reflexivity. Qed.

Lemma day_checked (doe : Z) : 0 ≤ doe < 146096 → day_ok doe = true.
Proof. intros H. apply (from_spec _ _ _ days_check doe). lia. Qed.

Lemma key_step (doe : Z) :
  0 ≤ doe < 146096 → key_of (civil_of_doe doe) < key_of (civil_of_doe (doe + 1)).
Proof.
  intros H%day_checked. unfold day_ok in H.
  apply andb_true_iff in H as [_ H]. apply Z.ltb_lt, H.
Qed.

Lemma day_in_calendar (doe : Z) :
  0 ≤ doe < 146097 → in_calendar (civil_of_doe doe) = true.
Proof.
  intros H. destruct (Z.eq_dec doe 146096) as [->|Hne]; [reflexivity|].
  pose proof (day_checked doe ltac:(lia)) as Hd. unfold day_ok in Hd.
  apply andb_true_iff in Hd as [Hd _]. exact Hd.
Qed.

Lemma key_mono (a b : Z) :
  0 ≤ a → a < b → b < 146097 →
  key_of (civil_of_doe a) < key_of (civil_of_doe b).
Proof.
  intros Ha Hab Hb.
  assert (H : ∀ n : nat, a + 1 + Z.of_nat n < 146097 →
              key_of (civil_of_doe a)
              < key_of (civil_of_doe (a + 1 + Z.of_nat n))).
  { induction n as [|n IH]; intros Hn.
    - rewrite Z.add_0_r. apply key_step. lia.
    - eapply Z.lt_trans; [apply IH; lia|].
      replace (a + 1 + Z.of_nat (S n)) with (a + 1 + Z.of_nat n + 1) by lia.
      apply key_step. lia. }
  replace b with (a + 1 + Z.of_nat (Z.to_nat (b - a - 1))) by lia.
  apply H. lia.
Qed.

Lemma civil_era (days : Z) :
  civil_from_days days
  = let '(y, m, d) := civil_of_doe ((days + 719468) mod 146097) in
    (y + 400 * ((days + 719468) / 146097), m, d).
Proof.
  unfold civil_of_doe, civil_from_days.
  set (z := days + 719468).
  replace (z mod 146097 - 719468 + 719468) with (z mod 146097) by lia.
  rewrite Z.mod_mod by lia.
  rewrite (Z.div_small (z mod 146097) 146097) by (apply Z.mod_pos_bound; lia).
  cbv zeta. f_equal. f_equal. lia.
Qed.

Lemma key_era (days : Z) :
  key_of (civil_from_days days)
  = key_of (civil_of_doe ((days + 719468) mod 146097))
    + 204800 * ((days + 719468) / 146097).
Proof.
  rewrite civil_era.
  destruct (civil_of_doe _) as [[y m] d]. unfold key_of. lia.
Qed.

Lemma key_first : key_of (civil_of_doe 0) = 97.
Proof. reflexivity. Qed.

Lemma key_last : key_of (civil_of_doe 146096) = 204893.
Proof. reflexivity. Qed.

Lemma key_days_mono (a b : Z) :
  a < b → key_of (civil_from_days a) < key_of (civil_from_days b).
Proof.
  intros Hab. rewrite !key_era.
  set (za := a + 719468). set (zb := b + 719468).
  assert (Hz : za < zb) by (subst za zb; lia).
  pose proof (Z.mod_pos_bound za 146097 ltac:(lia)) as Ha.
  pose proof (Z.mod_pos_bound zb 146097 ltac:(lia)) as Hb.
  pose proof (Z.div_mod za 146097 ltac:(lia)) as Ea.
  pose proof (Z.div_mod zb 146097 ltac:(lia)) as Eb.
  assert (Hlo : ∀ x, 0 ≤ x < 146097 → 97 ≤ key_of (civil_of_doe x)).
  { intros x Hx. destruct (Z.eq_dec x 0) as [->|Hne]; [rewrite key_first; lia|].
    pose proof (key_mono 0 x ltac:(lia) ltac:(lia) ltac:(lia)) as H.
    rewrite key_first in H. lia. }
  assert (Hhi : ∀ x, 0 ≤ x < 146097 → key_of (civil_of_doe x) ≤ 204893).
  { intros x Hx. destruct (Z.eq_dec x 146096) as [->|Hne]; [rewrite key_last; lia|].
    pose proof (key_mono x 146096 ltac:(lia) ltac:(lia) ltac:(lia)) as H.
    rewrite key_last in H. lia. }
  destruct (Z.eq_dec (za / 146097) (zb / 146097)) as [He|Hne].
  - rewrite He.
    pose proof (key_mono (za mod 146097) (zb mod 146097) ltac:(lia)
                  ltac:(lia) ltac:(lia)).
    lia.
  - assert (za / 146097 < zb / 146097) by lia.
    pose proof (Hhi _ Ha). pose proof (Hlo _ Hb). lia.
Qed.

Lemma civil_from_days_inj (a b : Z) :
  civil_from_days a = civil_from_days b → a = b.
Proof.
  intros H. destruct (Z.lt_trichotomy a b) as [Hlt|[Heq|Hgt]]; [|exact Heq|].
  - apply key_days_mono in Hlt. rewrite H in Hlt. lia.
  - apply key_days_mono in Hgt. rewrite H in Hgt. lia.
Qed.

Lemma civil_bounds (days y m d : Z) :
  civil_from_days days = (y, m, d) →
  400 * ((days + 719468) / 146097) ≤ y ≤ 400 * ((days + 719468) / 146097) + 400
  ∧ 1 ≤ m ≤ 12 ∧ 1 ≤ d ≤ 31.
Proof.
  rewrite civil_era.
  pose proof (day_in_calendar ((days + 719468) mod 146097)) as H.
  destruct (civil_of_doe _) as [[y' m'] d']. intros [= <- <- <-].
  unfold in_calendar in H.
  pose proof (Z.mod_pos_bound (days + 719468) 146097 ltac:(lia)) as Hb.
  specialize (H ltac:(lia)). lia.
Qed.

End DayFacts.

(** ** The timestamp of the file name *)

Module TimestampFacts.

Import Recording Str StrFacts ISODate DayKey DayFacts RecordingFacts.

Local Open Scope Z_scope.

(** *** Decimal fields *)

Lemma digits_length (width : nat) (n : Z) :
  String.length (digits width n) = width.
Proof.
  revert n. induction width as [|w IH]; intros n; [reflexivity|].
  cbn [digits]. rewrite length_app, IH. cbn. lia.
Qed.

Lemma digit_inj (a b : Z) : digit a = digit b → a mod 10 = b mod 10.
Proof.
  unfold digit. intros H. apply (f_equal N_of_ascii) in H.
  pose proof (Z.mod_pos_bound a 10 ltac:(lia)).
  pose proof (Z.mod_pos_bound b 10 ltac:(lia)).
  rewrite !N_ascii_embedding in H by lia. lia.
Qed.

Lemma app_inj_len (a b x y : string) :
  String.length a = String.length b → a +:+ x = b +:+ y → a = b ∧ x = y.
Proof.
  revert b. induction a as [|c a IH]; intros [|e b] Hlen; try discriminate Hlen.
  - rewrite !app_nil_l. auto.
  - rewrite !app_cons. intros H. injection H as -> H.
    destruct (IH b ltac:(cbn in Hlen; lia) H) as [-> ->]. auto.
Qed.

Lemma digits_inj (width : nat) (a b : Z) :
  digits width a = digits width b →
  a mod 10 ^ Z.of_nat width = b mod 10 ^ Z.of_nat width.
Proof.
  revert a b. induction width as [|w IH]; intros a b H.
  - cbn. rewrite !Z.mod_1_r. reflexivity.
  - cbn [digits] in H.
    apply app_inj_len in H as [Hhi Hlo]; [|rewrite !digits_length; reflexivity].
    apply IH in Hhi. injection Hlo as Hlo. apply digit_inj in Hlo.
    rewrite Nat2Z.inj_succ, Z.pow_succ_r by lia.
    rewrite !Z.rem_mul_r by lia. lia.
Qed.

Lemma digits_inj_small (width : nat) (a b : Z) :
  0 ≤ a < 10 ^ Z.of_nat width → 0 ≤ b < 10 ^ Z.of_nat width →
  digits width a = digits width b → a = b.
Proof.
  intros Ha Hb H%digits_inj. rewrite !Z.mod_small in H by assumption. exact H.
Qed.

Lemma keeps_digit (n : Z) : is_colon_or_dot (digit n) = false.
Proof.
  unfold is_colon_or_dot, digit.
  pose proof (Z.mod_pos_bound n 10 ltac:(lia)).
  apply orb_false_intro; apply Ascii.eqb_neq; intros H';
    apply (f_equal N_of_ascii) in H';
    rewrite N_ascii_embedding in H' by lia; cbn in H'; lia.
Qed.

Lemma replace_digits (width : nat) (n : Z) :
  replace_g is_colon_or_dot "-" (digits width n) = digits width n.
Proof.
  revert n. induction width as [|w IH]; intros n; [reflexivity|].
  cbn [digits]. rewrite replace_g_app, IH, replace_g_cons, keeps_digit.
  reflexivity.
Qed.

Lemma replace_year (y : Z) :
  replace_g is_colon_or_dot "-" (year_string y) = year_string y.
Proof.
  unfold year_string.
  destruct (_ && _); [apply replace_digits|].
  destruct (y <? 0); rewrite replace_g_app, replace_digits; reflexivity.
Qed.

Lemma year_string_inj (y1 y2 : Z) :
  -999999 ≤ y1 ≤ 999999 → -999999 ≤ y2 ≤ 999999 →
  year_string y1 = year_string y2 → y1 = y2.
Proof.
  intros H1 H2. unfold year_string.
  destruct (Z.leb_spec 0 y1), (Z.leb_spec y1 9999), (Z.ltb_spec y1 0),
    (Z.leb_spec 0 y2), (Z.leb_spec y2 9999), (Z.ltb_spec y2 0);
    cbn [andb]; try lia; rewrite ?app_cons, ?app_nil_l; intros Heq.
  all: match type of Heq with
       | digits 4 _ = digits 4 _ =>
           apply digits_inj_small in Heq;
           change (10 ^ Z.of_nat 4) with 10000; lia
       | String ?c (digits 6 _) = String ?c (digits 6 _) =>
           apply (f_equal (λ s, match s with String _ r => r | _ => s end)) in Heq;
           apply digits_inj_small in Heq;
           change (10 ^ Z.of_nat 6) with 1000000; lia
       | String "-" _ = String "+" _ =>
           apply (f_equal (String.get 0)) in Heq; discriminate Heq
       | String "+" _ = String "-" _ =>
           apply (f_equal (String.get 0)) in Heq; discriminate Heq
       | _ =>
           apply (f_equal String.length) in Heq; cbn [String.length] in Heq;
           rewrite ?digits_length in Heq; lia
       end.
Qed.

(** The text of the file name, field by field. *)
Lemma file_timestamp_fields (ms : Z) :
  file_timestamp ms
  = let '(y, m, d) := civil_from_days (ms / 86400000) in
    let t := ms mod 86400000 in
    (year_string y +:+ "-" +:+ digits 2 m +:+ "-" +:+ digits 2 d +:+ "T"
     +:+ digits 2 (t / 3600000) +:+ "-" +:+ digits 2 (t / 60000 mod 60)
     +:+ "-" +:+ digits 2 (t / 1000 mod 60) +:+ "-" +:+ digits 3 (t mod 1000)
     +:+ "Z")%string.
Proof.
  unfold file_timestamp, toISOString.
  destruct (civil_from_days _) as [[y m] d]. cbv zeta.
  rewrite !replace_g_app, !replace_digits, replace_year. reflexivity.
Qed.

Lemma cons_inj (c : ascii) (a b : string) : String c a = String c b → a = b.
Proof. intros H. injection H as H. exact H. Qed.

Ltac field E :=
  match goal with
  | H : (?a +:+ ?x = ?b +:+ ?y)%string |- _ =>
      apply app_inj_len in H as [E H];
      [apply digits_inj_small in E;
       [|change (10 ^ Z.of_nat 2) with 100; change (10 ^ Z.of_nat 3) with 1000; lia
        |change (10 ^ Z.of_nat 2) with 100; change (10 ^ Z.of_nat 3) with 1000; lia]
      |rewrite !digits_length; reflexivity]
  end.

Lemma file_timestamp_inj (ms1 ms2 : Z) :
  valid_date ms1 → valid_date ms2 →
  file_timestamp ms1 = file_timestamp ms2 → ms1 = ms2.
Proof.
  unfold valid_date. intros V1 V2. rewrite !file_timestamp_fields.
  destruct (civil_from_days (ms1 / 86400000)) as [[y1 m1] d1] eqn:C1.
  destruct (civil_from_days (ms2 / 86400000)) as [[y2 m2] d2] eqn:C2.
  cbv zeta.
  pose proof (civil_bounds _ _ _ _ C1) as (By1 & Bm1 & Bd1).
  pose proof (civil_bounds _ _ _ _ C2) as (By2 & Bm2 & Bd2).
  pose proof (Z.mod_pos_bound ms1 86400000 ltac:(lia)) as T1.
  pose proof (Z.mod_pos_bound ms2 86400000 ltac:(lia)) as T2.
  set (t1 := ms1 mod 86400000) in *. set (t2 := ms2 mod 86400000) in *.
  assert (Hy1 : -999999 ≤ y1 ≤ 999999)
    by (clear - By1 V1; Z.to_euclidean_division_equations; lia).
  assert (Hy2 : -999999 ≤ y2 ≤ 999999)
    by (clear - By2 V2; Z.to_euclidean_division_equations; lia).
  intros H.
  assert (Hlen : String.length (year_string y1) = String.length (year_string y2)).
  { apply (f_equal String.length) in H.
    rewrite !length_app, !digits_length in H. cbn in H. lia. }
  apply app_inj_len in H as [Hy H]; [|exact Hlen].
  apply year_string_inj in Hy; [|assumption|assumption].
  assert (Hh1 : 0 ≤ t1 / 3600000 < 24)
    by (clear - T1; Z.to_euclidean_division_equations; lia).
  assert (Hh2 : 0 ≤ t2 / 3600000 < 24)
    by (clear - T2; Z.to_euclidean_division_equations; lia).
  pose proof (Z.mod_pos_bound (t1 / 60000) 60 ltac:(lia)).
  pose proof (Z.mod_pos_bound (t2 / 60000) 60 ltac:(lia)).
  pose proof (Z.mod_pos_bound (t1 / 1000) 60 ltac:(lia)).
  pose proof (Z.mod_pos_bound (t2 / 1000) 60 ltac:(lia)).
  pose proof (Z.mod_pos_bound t1 1000 ltac:(lia)).
  pose proof (Z.mod_pos_bound t2 1000 ltac:(lia)).
  rewrite !app_cons, !app_nil_l in H.
  apply cons_inj in H. field Em. apply cons_inj in H. field Ed.
  apply cons_inj in H. field Eh. apply cons_inj in H. field Emin.
  apply cons_inj in H. field Esec. apply cons_inj in H. field Emil.
  clear H.
  assert (Hdays : ms1 / 86400000 = ms2 / 86400000).
  { apply civil_from_days_inj. congruence. }
  assert (Ht : t1 = t2).
  { clearbody t1 t2. clear - Eh Emin Esec Emil T1 T2.
    Z.to_euclidean_division_equations. lia. }
  pose proof (Z.div_mod ms1 86400000 ltac:(lia)).
  pose proof (Z.div_mod ms2 86400000 ltac:(lia)).
  subst t1 t2. lia.
Qed.

(** *** The output path *)

Lemma path_tail_inj (a b x y : string) :
  all no_slash x = true → all no_slash y = true →
  a +:+ String "/" x = b +:+ String "/" y → a = b ∧ x = y.
Proof.
  intros Hx Hy. revert b.
  induction a as [|c a IH]; intros [|d b]; rewrite ?app_nil_l, ?app_cons.
  - intros [= H]. auto.
  - intros [= <- H]. exfalso. subst x.
    rewrite all_app in Hx. cbn in Hx.
    rewrite andb_false_r in Hx. discriminate Hx.
  - intros [= -> H]. exfalso. subst y.
    rewrite all_app in Hy. cbn in Hy.
    rewrite andb_false_r in Hy. discriminate Hy.
  - intros [= -> H]. destruct (IH b H) as [-> ->]. auto.
Qed.

Lemma app_inj_suffix (x y t : string) : x +:+ t = y +:+ t → x = y.
Proof.
  intros H.
  assert (Hlen : String.length x = String.length y).
  { apply (f_equal String.length) in H. rewrite !length_app in H. lia. }
  revert y H Hlen. induction x as [|c x IH]; intros [|d y] H Hlen;
    try discriminate Hlen; [reflexivity|].
  rewrite !app_cons in H. injection H as -> H. f_equal. apply IH; [exact H|].
  cbn in Hlen. lia.
Qed.

(** X20. The output path determines the room and the clock reading: two
    starts with the same output path were starts of the same room, with
    the same timestamp text and, for clock readings a Date can hold, in
    the same millisecond. So recordings of different rooms never go to the
    same path, whatever slashes or dots the room names contain, and two
    recordings of one room do only when started in the same
    millisecond. *)
Theorem output_path_injective (room1 room2 : string) (ms1 ms2 : Z) :
  output_path room1 ms1 = output_path room2 ms2 →
  room1 = room2
  ∧ file_timestamp ms1 = file_timestamp ms2
  ∧ (valid_date ms1 → valid_date ms2 → ms1 = ms2).
Proof.
  unfold output_path.
  change ("recordings/" +:+ ?r +:+ "/" +:+ ?t +:+ ".ogg")%string
    with ("recordings/" +:+ (r +:+ String "/" (t +:+ ".ogg")))%string.
  intros H. apply (inj (String.append "recordings/")) in H.
  apply path_tail_inj in H as [Hroom Ht].
  - apply app_inj_suffix in Ht. split; [exact Hroom|]. split; [exact Ht|].
    intros V1 V2. apply file_timestamp_inj; assumption.
  - rewrite all_app, file_timestamp_no_slash. reflexivity.
  - rewrite all_app, file_timestamp_no_slash. reflexivity.
Qed.

Lemma output_path_injective_witness :
  "a/b"%string = "a/b"%string
  ∧ file_timestamp 1700000000123 = file_timestamp 1700000000123.
Proof.
  destruct (output_path_injective "a/b" "a/b" 1700000000123 1700000000123
              eq_refl) as (H1 & H2 & _).
  split; [exact H1|exact H2].
Defined.

End TimestampFacts.
